(** * GDriveFS: the Google Drive wrapper and its retrying proxy

    A shallow embedding of [gdrivefs/gdtool/drive.py]: the operations of
    [_GdriveManager] and the retry loop of [_GoogleProxy], as computations
    over an explicit world (local file system, clock, memoised client,
    scripted replies of the remote service, log of external effects). *)

From Stdlib Require Import ZArith QArith Qcanon Ascii DecimalString.
From stdpp Require Import base gmap strings list.

Open Scope Z_scope.
Open Scope string_scope.

(** ** Values decoded from JSON

    What [json.loads] returns: [None], booleans, integers, floats, unicode
    strings, lists and dicts (a dict as the association list of its items). *)
#[warnings="-register-all"]
Inductive json : Type :=
| JNull
| JBool (b : bool)
| JInt (z : Z)
| JFloat (q : Qc)
| JStr (s : string)
| JArr (items : list json)
| JObj (fields : list (string * json)).

(** The body of an HTTP error reply, as [json.loads] sees it: either it
    decodes, or [json.loads] raises [ValueError]. *)
Inductive http_content : Type :=
| NotJson (raw : string)
| Json (j : json).

(** ** Exceptions, by class. *)
Inductive exn : Type :=
| SSLError (msg : string)                  (* ssl.SSLError *)
| BadStatusLine (line : string)            (* httplib.BadStatusLine *)
| SocketError (errno : Z)                  (* socket.error that is no SSLError *)
| HttpError (status : Z) (content : http_content)   (* apiclient.errors.HttpError *)
| AuthorizationFaultError (msg : string)
| ExportFormatError (msg : string)
| PlainException (msg : string)            (* Exception(message) *)
| UnboundLocalError (var : string)
| TypeError (msg : string)
| AttributeError (msg : string)
| IndexError (msg : string)
| KeyError (key : string)
| ValueError (msg : string)
| OSError (path : string)
| IOError (path : string).

(** ** The local file system, flat: a path names a directory or a regular
    file with its bytes and the modification time [stat] reports. Parent
    directories and permissions are not tracked: a call fails only for what
    the path itself names. Times are the rationals the Python floats stand
    for. *)
Inductive node : Type :=
| Dir
| File (content : string) (st_mtime : Qc).

(** ** Replies of the remote service *)

Record change_item := {
  ci_id : Z;                   (* int(item[u'id']) *)
  ci_fileId : string;
  ci_deleted : bool;
  ci_file : option json        (* item[u'file'], when the key is present *)
}.

Record changes_response := {
  cr_items : list change_item;
  cr_largestChangeId : Z;
  cr_nextPageToken : option string
}.

Record files_response := {
  fr_items : list json;
  fr_nextPageToken : option string
}.

(** What one [next_chunk] of the chunked downloader yields: the bytes it
    appended to the file, and the [done] and [total_size] it returns. *)
Record chunk := {
  ch_data : string;
  ch_done : bool;
  ch_total_size : Z
}.

Inductive outcome (A : Type) : Type :=
| Returns (a : A)
| Raises (e : exn).
Arguments Returns {A} a.
Arguments Raises {A} e.

(** The scripted service: for each external call, what its successive
    invocations answer, first call first. *)
Record remote := {
  r_credentials : list (outcome unit);      (* authorize.get_credentials() *)
  r_build : list (outcome unit);            (* apiclient.discovery.build *)
  r_refresh : list (outcome unit);          (* authorize.check_credential_state() *)
  r_about : list (outcome json);            (* about().get().execute() *)
  r_changes : list (outcome changes_response);
  r_children : list (outcome (list string));
  r_files_list : list (outcome files_response);
  r_files_insert : list (outcome json);
  r_files_update : list (outcome json);
  r_chunks : list (outcome chunk)           (* downloader.next_chunk() *)
}.

(** ** Request bodies: Python dicts keyed by field name. *)
Record media_upload := { mu_filename : string; mu_mimetype : string }.

Record insert_args := {
  ia_body : gmap string json;
  ia_media_body : option media_upload
}.

Record update_args := {
  ua_fileId : string;
  ua_body : gmap string json;
  ua_setModifiedDate : bool;
  ua_updateViewedDate : Z;
  ua_media_body : option media_upload
}.

(** ** External effects, in the order they happen. *)
Inductive event : Type :=
| EvGetCredentials
| EvBuild (discoveryUrl : string)
| EvCheckCredentialState
| EvAboutGet
| EvChangesList (pageToken : option string) (startChangeId : option Z)
| EvChildrenList (q : option string) (folderId : string) (maxResults : option Z)
| EvFilesList (q : option string) (pageToken : option string)
| EvFilesInsert (args : insert_args)
| EvFilesUpdate (args : update_args)
| EvMakedirs (path : string)
| EvOpenWb (path : string)
| EvNextChunk (url : string)
| EvUtime (path : string) (atime mtime : Qc)
| EvSleep (seconds : Z).

(** The events that go, or may go, over the network: all but the calls on
    the local file system and the sleeps. (Reading the credentials may
    refresh them.) *)
Definition is_network (ev : event) : bool :=
  match ev with
  | EvMakedirs _ | EvOpenWb _ | EvUtime _ _ _ | EvSleep _ => false
  | _ => true
  end.

Record Conf := {
  google_discovery_service_url : string;
  hidden_flags_list_remote : list string;
  file_download_temp_path : string;
  directory_mimetype : string;
  file_default_mime_type : string
}.

Record world := {
  w_conf : Conf;
  w_fs : gmap string node;
  w_clock : Qc;                (* time.time() *)
  w_entropy : nat -> Z;        (* the random source, by draw number *)
  w_draws : nat;               (* draws made so far *)
  w_client : bool;             (* GdriveAuth.__client is not None *)
  w_remote : remote;
  w_trace : list event         (* oldest first *)
}.

(** ** Computations: a state and exception monad over the world. [NoReply]
    marks a run the script does not determine (it ran out of replies). *)
Inductive res (A : Type) : Type :=
| Ok (a : A)
| Raise (e : exn)
| NoReply.
Arguments Ok {A} a.
Arguments Raise {A} e.
Arguments NoReply {A}.

Definition M (A : Type) : Type := world -> res A * world.

Definition ret {A} (a : A) : M A := fun w => (Ok a, w).
Definition raise {A} (e : exn) : M A := fun w => (Raise e, w).
Definition bind {A B} (m : M A) (k : A -> M B) : M B :=
  fun w => match m w with
           | (Ok a, w') => k a w'
           | (Raise e, w') => (Raise e, w')
           | (NoReply, w') => (NoReply, w')
           end.
(** [try: m except e: h e]. An exception raised by the handler leaves. *)
Definition catch {A} (m : M A) (h : exn -> M A) : M A :=
  fun w => match m w with
           | (Raise e, w') => h e w'
           | r => r
           end.

Declare Scope gd_scope.
Delimit Scope gd_scope with gd.
Notation "x <- m ;; k" := (bind m (fun x => k))
  (at level 100, m at next level, right associativity) : gd_scope.
Notation "m ;;; k" := (bind m (fun _ => k))
  (at level 100, right associativity) : gd_scope.
Open Scope gd_scope.

Definition log (ev : event) : M unit := fun w =>
  (Ok tt, {| w_conf := w_conf w; w_fs := w_fs w; w_clock := w_clock w;
             w_entropy := w_entropy w; w_draws := w_draws w;
             w_client := w_client w; w_remote := w_remote w;
             w_trace := w_trace w ++ [ev] |}).

Definition set_remote (r : remote) : M unit := fun w =>
  (Ok tt, {| w_conf := w_conf w; w_fs := w_fs w; w_clock := w_clock w;
             w_entropy := w_entropy w; w_draws := w_draws w;
             w_client := w_client w; w_remote := r;
             w_trace := w_trace w |}).

Definition set_fs (fs : gmap string node) : M unit := fun w =>
  (Ok tt, {| w_conf := w_conf w; w_fs := fs; w_clock := w_clock w;
             w_entropy := w_entropy w; w_draws := w_draws w;
             w_client := w_client w; w_remote := w_remote w;
             w_trace := w_trace w |}).

Definition set_client (b : bool) : M unit := fun w =>
  (Ok tt, {| w_conf := w_conf w; w_fs := w_fs w; w_clock := w_clock w;
             w_entropy := w_entropy w; w_draws := w_draws w;
             w_client := b; w_remote := w_remote w;
             w_trace := w_trace w |}).

Definition get_conf : M Conf := fun w => (Ok (w_conf w), w).
Definition get_fs : M (gmap string node) := fun w => (Ok (w_fs w), w).
Definition get_remote : M remote := fun w => (Ok (w_remote w), w).
Definition time_time : M Qc := fun w => (Ok (w_clock w), w).

(** [random.randint(a, b)]: the next draw, brought into [a..b]. *)
Definition random_randint (a b : Z) : M Z := fun w =>
  (Ok (a + (w_entropy w (w_draws w)) mod (b - a + 1)),
   {| w_conf := w_conf w; w_fs := w_fs w; w_clock := w_clock w;
      w_entropy := w_entropy w; w_draws := S (w_draws w);
      w_client := w_client w; w_remote := w_remote w;
      w_trace := w_trace w |}).

(** [time.sleep(d)]: the clock moves on by [d] seconds. *)
Definition time_sleep (d : Z) : M unit := fun w =>
  (Ok tt, {| w_conf := w_conf w; w_fs := w_fs w;
             w_clock := (w_clock w + Q2Qc (inject_Z d))%Qc;
             w_entropy := w_entropy w; w_draws := w_draws w;
             w_client := w_client w; w_remote := w_remote w;
             w_trace := w_trace w ++ [EvSleep d] |}).

(** One external call: log it, take the next scripted answer. *)
Definition reply {A} (ev : event) (script : remote -> list (outcome A))
    (rest : remote -> list (outcome A) -> remote) : M A :=
  log ev ;;;
  r <- get_remote ;;
  match script r with
  | [] => fun w => (NoReply, w)
  | Returns a :: tl => set_remote (rest r tl) ;;; ret a
  | Raises e :: tl => set_remote (rest r tl) ;;; raise e
  end.

(** ** GdriveAuth *)

Definition get_credentials : M unit :=
  reply EvGetCredentials r_credentials
    (fun r tl => {| r_credentials := tl; r_build := r_build r;
                    r_refresh := r_refresh r; r_about := r_about r;
                    r_changes := r_changes r; r_children := r_children r;
                    r_files_list := r_files_list r;
                    r_files_insert := r_files_insert r;
                    r_files_update := r_files_update r;
                    r_chunks := r_chunks r |}).

Definition build (discoveryUrl : string) : M unit :=
  reply (EvBuild discoveryUrl) r_build
    (fun r tl => {| r_credentials := r_credentials r; r_build := tl;
                    r_refresh := r_refresh r; r_about := r_about r;
                    r_changes := r_changes r; r_children := r_children r;
                    r_files_list := r_files_list r;
                    r_files_insert := r_files_insert r;
                    r_files_update := r_files_update r;
                    r_chunks := r_chunks r |}).

Definition check_credential_state : M unit :=
  reply EvCheckCredentialState r_refresh
    (fun r tl => {| r_credentials := r_credentials r; r_build := r_build r;
                    r_refresh := tl; r_about := r_about r;
                    r_changes := r_changes r; r_children := r_children r;
                    r_files_list := r_files_list r;
                    r_files_insert := r_files_insert r;
                    r_files_update := r_files_update r;
                    r_chunks := r_chunks r |}).

(** [GdriveAuth.get_authed_http]: re-read the credentials, wrap a fresh
    [Http()] with them. *)
Definition get_authed_http : M unit :=
  get_credentials ;;;
  ret tt.

(** [GdriveAuth.get_client]: build the client on first use, from the
    discovery document, and keep it. *)
Definition get_client : M unit := fun w =>
  if w_client w then (Ok tt, w)
  else (get_authed_http ;;;
        c <- get_conf ;;
        catch (build (google_discovery_service_url c))
              (fun e => raise e) ;;;
        set_client true) w.

(** ** _GdriveManager.get_about_info *)
Definition about_get_execute : M json :=
  reply EvAboutGet r_about
    (fun r tl => {| r_credentials := r_credentials r; r_build := r_build r;
                    r_refresh := r_refresh r; r_about := tl;
                    r_changes := r_changes r; r_children := r_children r;
                    r_files_list := r_files_list r;
                    r_files_insert := r_files_insert r;
                    r_files_update := r_files_update r;
                    r_chunks := r_chunks r |}).

Definition get_about_info : M json :=
  get_client ;;;
  response <- about_get_execute ;;
  ret response.

(** ** _GoogleProxy *)

Fixpoint assoc_get {V} (k : string) (l : list (string * V)) : option V :=
  match l with
  | [] => None
  | (k', v) :: tl => if String.eqb k k' then Some v else assoc_get k tl
  end.

(** [d.get(key)] on a decoded value: only a dict has [get]. *)
Definition py_get (d : json) (key : string) : exn + json :=
  match d with
  | JObj fields => inr (default JNull (assoc_get key fields))
  | _ => inl (AttributeError "get")
  end.

(** [v[0]]. *)
Definition py_item0 (v : json) : exn + json :=
  match v with
  | JArr (x :: _) => inr x
  | JArr [] => inl (IndexError "list index out of range")
  | JStr (String c _) => inr (JStr (String c EmptyString))
  | JStr EmptyString => inl (IndexError "string index out of range")
  | JObj _ => inl (KeyError "0")
  | _ => inl (TypeError "__getitem__")
  end.

(** [d[key]] with a string key. *)
Definition py_getitem (d : json) (key : string) : exn + json :=
  match d with
  | JObj fields =>
      match assoc_get key fields with
      | Some v => inr v
      | None => inl (KeyError key)
      end
  | JArr _ => inl (TypeError "list indices must be integers, not unicode")
  | JStr _ => inl (TypeError "string indices must be integers")
  | _ => inl (TypeError "__getitem__")
  end.

(** [v == 403]. *)
Definition py_eq_403 (v : json) : bool :=
  match v with
  | JInt z => (z =? 403)%Z
  | JFloat q => Qeq_bool (this q) (inject_Z 403)
  | _ => false
  end.

(** [v in ['rateLimitExceeded', 'userRateLimitExceeded']]. *)
Definition py_in_rate_limit_reasons (v : json) : bool :=
  match v with
  | JStr s => String.eqb s "rateLimitExceeded" || String.eqb s "userRateLimitExceeded"
  | _ => false
  end.

(** The test of the [HttpError] handler on the local [error], which is
    unbound until a body has decoded:
    [error.get('code') == 403 and
     error.get('errors')[0].get('reason') in [...]]. *)
Definition is_rate_limit (error : option json) : exn + bool :=
  match error with
  | None => inl (UnboundLocalError "error")
  | Some err =>
      match py_get err "code" with
      | inl x => inl x
      | inr code =>
          if py_eq_403 code then
            match py_get err "errors" with
            | inl x => inl x
            | inr errors =>
                match py_item0 errors with
                | inl x => inl x
                | inr first =>
                    match py_get first "reason" with
                    | inl x => inl x
                    | inr reason => inr (py_in_rate_limit_reasons reason)
                    end
                end
            end
          else inr false
      end
  end.

(** [time.sleep((2 ** n) + random.randint(0, 1000) / 1000)], the division
    being Python 2's on integers. *)
Definition backoff_sleep (n : Z) : M unit :=
  r <- random_randint 0 1000 ;;
  time_sleep (2 ^ n + r / 1000).

(** The body of [proxied_method]: [for n in range(0, 5)], with the local
    [error] carried from one round to the next. Falling out of the loop,
    the function ends without a [return]: the caller gets [None]. *)
Fixpoint proxied_loop {A} (auto_refresh : bool) (method : M A)
    (ns : list Z) (error : option json) : M (option A) :=
  match ns with
  | [] => ret None
  | n :: ns' =>
      fun w =>
        match method w with
        | (Ok a, w1) => (Ok (Some a), w1)
        | (NoReply, w1) => (NoReply, w1)
        | (Raise e, w1) =>
            match e with
            | SSLError _ | BadStatusLine _ =>
                (backoff_sleep n ;;;
                 proxied_loop auto_refresh method ns' error) w1
            | HttpError _ content =>
                let error' := match content with
                              | Json j => Some j
                              | NotJson _ => error
                              end in
                match is_rate_limit error' with
                | inl x => (Raise x, w1)
                | inr true =>
                    (backoff_sleep n ;;;
                     proxied_loop auto_refresh method ns' error') w1
                | inr false => (Raise e, w1)
                end
            | AuthorizationFaultError _ =>
                if negb auto_refresh || (n =? 1)%Z then (Raise e, w1)
                else (check_credential_state ;;;
                      proxied_loop auto_refresh method ns' error) w1
            | _ => (Raise e, w1)
            end
        end
  end.

Definition proxied_method {A} (auto_refresh : bool) (method : M A) : M (option A) :=
  proxied_loop auto_refresh method (seqZ 0 5) None.

(** ** _GdriveManager *)

(** A [datetime]: what [time.mktime] makes of its [timetuple()] (whole
    seconds), and the microseconds the time tuple drops. *)
Record datetime := { dt_mktime : Z; dt_microsecond : Z }.

(** The attributes of a [NormalEntry] this module reads. *)
Record normal_entry := {
  ne_id : string;
  ne_mime_type : string;
  ne_download_links : list (string * string);
  ne_modified_date : datetime
}.

(** Python's truth value of an optional string and of an optional integer. *)
Definition truthy_str (s : option string) : bool :=
  match s with
  | Some (String _ _) => true
  | _ => false
  end.

Definition truthy_int (z : option Z) : bool :=
  match z with
  | Some v => negb (v =? 0)%Z
  | None => false
  end.

Definition str_of (s : option string) : string := default EmptyString s.

(** ["%d" % z]. *)
Definition fmt_d (z : Z) : string :=
  DecimalString.NilZero.string_of_int (Z.to_int z).

(** An [OrderedDict] keyed by change id: items in order of first insertion;
    assigning to a key already there replaces its value in place. *)
Fixpoint od_set {V} (k : Z) (v : V) (d : list (Z * V)) : list (Z * V) :=
  match d with
  | [] => [(k, v)]
  | (k', v') :: tl => if (k =? k')%Z then (k, v) :: tl else (k', v') :: od_set k v tl
  end.

Definition lift {A} (r : exn + A) : M A :=
  match r with
  | inl e => raise e
  | inr a => ret a
  end.

(** File-system calls of [os] and [os.path]. *)
Definition isdir (fs : gmap string node) (path : string) : bool :=
  match fs !! path with
  | Some Dir => true
  | _ => false
  end.

Definition isfile (fs : gmap string node) (path : string) : bool :=
  match fs !! path with
  | Some (File _ _) => true
  | _ => false
  end.

(** [os.path.split]: the tail is what follows the last slash, the head
    what comes before it, without the slashes it ends in unless it is made
    of slashes only. *)
Definition is_slash (c : ascii) : bool := Ascii.eqb c "/"%char.

Fixpoint split_last_slash (p : string) : string * string :=
  match p with
  | EmptyString => (EmptyString, EmptyString)
  | String c p' =>
      match split_last_slash p' with
      | (EmptyString, tail) =>
          if is_slash c then (String c EmptyString, tail)
          else (EmptyString, String c tail)
      | (head, tail) => (String c head, tail)
      end
  end.

Fixpoint rstrip_slashes (s : string) : string :=
  match s with
  | EmptyString => EmptyString
  | String c s' =>
      match rstrip_slashes s' with
      | EmptyString => if is_slash c then EmptyString else String c EmptyString
      | r => String c r
      end
  end.

Definition path_split (p : string) : string * string :=
  let (head, tail) := split_last_slash p in
  (match rstrip_slashes head with EmptyString => head | r => r end, tail).

Definition nonempty_str (s : string) : bool :=
  match s with
  | EmptyString => false
  | String _ _ => true
  end.

(** The directories [os.makedirs(name)] makes on the way to [name]: it
    splits [name] (once more when the tail is empty) and, when head and
    tail are not empty and the head does not exist, first does the same for
    the head. Each head is shorter than the name it comes from, so as many
    rounds as [name] has characters are enough. *)
Fixpoint missing_heads (fuel : nat) (fs : gmap string node) (name : string)
    : list string :=
  match fuel with
  | O => []
  | S fuel' =>
      let (head0, tail0) := path_split name in
      let (head, tail) :=
        if nonempty_str tail0 then (head0, tail0) else path_split head0 in
      if nonempty_str head && nonempty_str tail
         && negb (bool_decide (is_Some (fs !! head)))
      then head :: missing_heads fuel' fs head
      else []
  end.

Definition mkdirs (names : list string) (fs : gmap string node)
    : gmap string node :=
  foldr (fun name acc => <[name := Dir]> acc) fs names.

(** [os.makedirs(path)]: the directory [path] is made, after every
    missing directory on the way to it; a [path] that is there already is
    an [OSError]. The file system is the map of the paths as they are
    written, and a path that is there is taken to have its parents there. *)
Definition makedirs (path : string) : M unit :=
  log (EvMakedirs path) ;;;
  fs <- get_fs ;;
  match fs !! path with
  | None =>
      set_fs (mkdirs (path :: missing_heads (String.length path) fs path) fs)
  | Some _ => raise (OSError path)
  end.

Record stat_result := { st_size : Z; st_mtime : Qc }.

Definition stat (path : string) : M stat_result :=
  fs <- get_fs ;;
  match fs !! path with
  | Some (File content mtime) =>
      ret {| st_size := Z.of_nat (String.length content); st_mtime := mtime |}
  | Some Dir => ret {| st_size := 0; st_mtime := 0%Qc |}
  | None => raise (OSError path)
  end.

(** [open(path, 'wb')]: the file is created or cut to length zero. *)
Definition open_wb (path : string) : M unit :=
  log (EvOpenWb path) ;;;
  fs <- get_fs ;;
  now <- time_time ;;
  match fs !! path with
  | Some Dir => raise (IOError path)
  | _ => set_fs (<[path := File EmptyString now]> fs)
  end.

Definition write_append (path : string) (data : string) : M unit :=
  fs <- get_fs ;;
  now <- time_time ;;
  match fs !! path with
  | Some (File content _) => set_fs (<[path := File (content ++ data) now]> fs)
  | _ => raise (IOError path)
  end.

Definition utime (path : string) (atime mtime : Qc) : M unit :=
  log (EvUtime path atime mtime) ;;;
  fs <- get_fs ;;
  match fs !! path with
  | Some (File content _) => set_fs (<[path := File content mtime]> fs)
  | Some Dir => ret tt
  | None => raise (OSError path)
  end.

(** The remote calls: [client.<collection>().<verb>(...).execute()]. *)
Definition changes_list_execute (pageToken : option string)
    (startChangeId : option Z) : M changes_response :=
  reply (EvChangesList pageToken startChangeId) r_changes
    (fun r tl => {| r_credentials := r_credentials r; r_build := r_build r;
                    r_refresh := r_refresh r; r_about := r_about r;
                    r_changes := tl; r_children := r_children r;
                    r_files_list := r_files_list r;
                    r_files_insert := r_files_insert r;
                    r_files_update := r_files_update r;
                    r_chunks := r_chunks r |}).

Definition children_list_execute (q : option string) (folderId : string)
    (maxResults : option Z) : M (list string) :=
  reply (EvChildrenList q folderId maxResults) r_children
    (fun r tl => {| r_credentials := r_credentials r; r_build := r_build r;
                    r_refresh := r_refresh r; r_about := r_about r;
                    r_changes := r_changes r; r_children := tl;
                    r_files_list := r_files_list r;
                    r_files_insert := r_files_insert r;
                    r_files_update := r_files_update r;
                    r_chunks := r_chunks r |}).

Definition files_list_execute (q : option string)
    (pageToken : option string) : M files_response :=
  reply (EvFilesList q pageToken) r_files_list
    (fun r tl => {| r_credentials := r_credentials r; r_build := r_build r;
                    r_refresh := r_refresh r; r_about := r_about r;
                    r_changes := r_changes r; r_children := r_children r;
                    r_files_list := tl;
                    r_files_insert := r_files_insert r;
                    r_files_update := r_files_update r;
                    r_chunks := r_chunks r |}).

Definition files_insert_execute (args : insert_args) : M json :=
  reply (EvFilesInsert args) r_files_insert
    (fun r tl => {| r_credentials := r_credentials r; r_build := r_build r;
                    r_refresh := r_refresh r; r_about := r_about r;
                    r_changes := r_changes r; r_children := r_children r;
                    r_files_list := r_files_list r;
                    r_files_insert := tl;
                    r_files_update := r_files_update r;
                    r_chunks := r_chunks r |}).

Definition files_update_execute (args : update_args) : M json :=
  reply (EvFilesUpdate args) r_files_update
    (fun r tl => {| r_credentials := r_credentials r; r_build := r_build r;
                    r_refresh := r_refresh r; r_about := r_about r;
                    r_changes := r_changes r; r_children := r_children r;
                    r_files_list := r_files_list r;
                    r_files_insert := r_files_insert r;
                    r_files_update := tl;
                    r_chunks := r_chunks r |}).

(** Modelled from the spec: [gdrivefs.gdtool.chunked_download] is not among
    the sources. Section 4.6: each step requests the next chunk over the
    authenticated transport and appends it to the target file; the step
    reports whether the server signalled completion and the total size. *)
Definition next_chunk (url path : string) : M chunk :=
  c <- reply (EvNextChunk url) r_chunks
    (fun r tl => {| r_credentials := r_credentials r; r_build := r_build r;
                    r_refresh := r_refresh r; r_about := r_about r;
                    r_changes := r_changes r; r_children := r_children r;
                    r_files_list := r_files_list r;
                    r_files_insert := r_files_insert r;
                    r_files_update := r_files_update r;
                    r_chunks := tl |}) ;;
  write_append path (ch_data c) ;;;
  ret c.

(** Keyword arguments. [None] is a keyword left out (or passed as [None]);
    for [is_hidden], whose default is [False], the outer option tells a
    keyword left out from one passed, the inner one is the value passed. *)
Record insert_kwargs := {
  ik_data_filepath : option string;
  ik_modified_datetime : option string;
  ik_accessed_datetime : option string;
  ik_is_hidden : option (option bool);
  ik_description : option string
}.

Record update_kwargs := {
  uk_filename : option string;
  uk_data_filepath : option string;
  uk_mime_type : option string;
  uk_parents : option json;
  uk_modified_datetime : option string;
  uk_accessed_datetime : option string;
  uk_is_hidden : option (option bool);
  uk_description : option string
}.

Definition json_of_opt_bool (b : option bool) : json :=
  match b with
  | Some v => JBool v
  | None => JNull
  end.

Definition json_of_opt_str (s : option string) : json :=
  match s with
  | Some v => JStr v
  | None => JNull
  end.

Definition has_key {V} (k : string) (l : list (string * V)) : bool :=
  match assoc_get k l with
  | Some _ => true
  | None => false
  end.

(** What [list_changes] keeps of one change: the entry's id, whether it was
    deleted, and the normalised entry unless it was. *)
Abbreviation change := (string * bool * option normal_entry)%type.

Section Manager.

(** Functions of the other modules of the package. *)
Variable NormalEntry : string -> json -> exn + normal_entry.
Variable escape_filename_for_query : string -> string.
Variable get_flat_normal_fs_time_from_dt : Qc -> string.
Variable split_path_nolookups :
  string -> exn + (string * string * option string * bool).

(** [apiclient.http.MediaFileUpload(filename, mimetype=...)], which opens
    the file and may fail. *)
Variable MediaFileUpload : string -> string -> exn + media_upload.

Definition now_phrase : M string :=
  t <- time_time ;;
  ret (get_flat_normal_fs_time_from_dt t).

(** *** list_changes *)


Definition list_changes_message (change_id last_change_id : Z) : string :=
  "Change-ID (" ++ fmt_d change_id ++ ") being processed is less-than the "
  ++ "last change-ID (" ++ fmt_d last_change_id ++ ") to be processed.".

(** [for item in items: ...], with [last_change_id] and [changes]. *)
Fixpoint list_changes_items (items : list change_item)
    (last_change_id : option Z) (changes : list (Z * change))
    : M (list (Z * change)) :=
  match items with
  | [] => ret changes
  | item :: items' =>
      let change_id := ci_id item in
      let entry_id := ci_fileId item in
      let was_deleted := ci_deleted item in
      entry <- (if ci_deleted item then ret None
                else match ci_file item with
                     | Some f => ret (Some f)
                     | None => raise (KeyError "file")
                     end) ;;
      if truthy_int last_change_id
         && (change_id <=? default 0 last_change_id)%Z
      then raise (PlainException
                    (list_changes_message change_id (default 0 last_change_id)))
      else
        normalized_entry <-
          (if was_deleted then ret None
           else match entry with
                | Some f => e <- lift (NormalEntry "list_changes" f) ;; ret (Some e)
                | None => ret None
                end) ;;
        list_changes_items items' (Some change_id)
          (od_set change_id (entry_id, was_deleted, normalized_entry) changes)
  end.

Definition list_changes (start_change_id : option Z) (page_token : option string)
    : M (Z * option string * list (Z * change)) :=
  get_client ;;;
  response <- changes_list_execute page_token start_change_id ;;
  let items := cr_items response in
  let largest_change_id := cr_largestChangeId response in
  let next_page_token := cr_nextPageToken response in
  changes <- list_changes_items items None [] ;;
  ret (largest_change_id, next_page_token, changes).

(** *** get_children_under_parent_id *)

(** A [raise] without argument re-raises the exception being handled,
    [exc_info], and with none being handled is itself a [TypeError]. *)
Definition bare_raise {A} (exc_info : option exn) : M A :=
  raise (match exc_info with
         | Some e => e
         | None => TypeError "exceptions must be old-style classes or derived from BaseException, not NoneType"
         end).

Definition get_children_under_parent_id (exc_info : option exn)
    (parent_id : string) (query_contains_string query_is_string : option string)
    (max_results : option Z) : M (list string) :=
  get_client ;;;
  (if truthy_str query_contains_string && truthy_str query_is_string
   then bare_raise exc_info
   else ret tt) ;;;
  let query :=
    if truthy_str query_is_string then
      Some ("title='" ++ escape_filename_for_query (str_of query_is_string) ++ "'")
    else if truthy_str query_contains_string then
      Some ("title contains '"
            ++ escape_filename_for_query (str_of query_contains_string) ++ "'")
    else None in
  response <- children_list_execute query parent_id max_results ;;
  ret response.

(** *** list_files *)

Definition list_files_query (query_contains_string query_is_string
    parent_id : option string) (hidden_flags : list string) : option string :=
  let components0 : list string := [] in
  let components1 :=
    if truthy_str parent_id
    then app components0 ["'" ++ str_of parent_id ++ "' in parents"]
    else components0 in
  let components2 :=
    if truthy_str query_is_string then
      app components1
        ["title='" ++ escape_filename_for_query (str_of query_is_string) ++ "'"]
    else if truthy_str query_contains_string then
      app components1
        ["title contains '"
         ++ escape_filename_for_query (str_of query_contains_string) ++ "'"]
    else components1 in
  let query_components :=
    app components2
      (map (fun hidden_flag => hidden_flag ++ " = false") hidden_flags) in
  match query_components with
  | [] => None
  | _ => Some (String.concat " and " query_components)
  end.

(** [for entry_raw in result[u'items']: entries.append(NormalEntry(...))].
    The handler reads [entry_raw[u'id']] for its log line before it
    re-raises: when that lookup fails, its error is the one that leaves. *)
Fixpoint list_files_items (items : list json) (entries : list normal_entry)
    : M (list normal_entry) :=
  match items with
  | [] => ret entries
  | entry_raw :: items' =>
      entry <- catch (lift (NormalEntry "list_files" entry_raw))
                     (fun e => lift (py_getitem entry_raw "id") ;;; raise e) ;;
      list_files_items items' (app entries [entry])
  end.

(** [while 1: ...]; [fuel] bounds the rounds. *)
Fixpoint list_files_pages (fuel : nat) (query page_token : option string)
    (page_num : Z) (entries : list normal_entry) : M (list normal_entry) :=
  match fuel with
  | O => fun w => (NoReply, w)
  | S fuel' =>
      result <- files_list_execute query page_token ;;
      entries' <- list_files_items (fr_items result) entries ;;
      match fr_nextPageToken result with
      | None => ret entries'
      | Some token =>
          list_files_pages fuel' query (Some token) (page_num + 1) entries'
      end
  end.

(** Each round takes one reply of the script, so one more round than
    there are replies always suffices. *)
Definition list_files (query_contains_string query_is_string
    parent_id : option string) : M (list normal_entry) :=
  get_client ;;;
  conf <- get_conf ;;
  let hidden_flags := hidden_flags_list_remote conf in
  let query := list_files_query query_contains_string query_is_string
                 parent_id hidden_flags in
  r <- get_remote ;;
  list_files_pages (S (length (r_files_list r))) query None 0 [].

(** *** download_to_local *)

Definition export_message (normalized_entry : normal_entry)
    (mime_type : string) : string :=
  "Entry with ID [" ++ ne_id normalized_entry
  ++ "] can not be exported to type [" ++ mime_type
  ++ "]. The available types are: "
  ++ String.concat ", " (map fst (ne_download_links normalized_entry)).

(** [while 1: status, done, total_size = downloader.next_chunk(); ...] *)
Fixpoint download_chunks (fuel : nat) (url path : string) : M Z :=
  match fuel with
  | O => fun w => (NoReply, w)
  | S fuel' =>
      c <- next_chunk url path ;;
      if ch_done c then ret (ch_total_size c)
      else download_chunks fuel' url path
  end.

Definition gd_mtime_epoch (normalized_entry : normal_entry) : Qc :=
  Q2Qc (inject_Z (dt_mktime (ne_modified_date normalized_entry))).

(** The second half of [download_to_local], from [# Go and get the
    file.] on. *)
Definition download_fresh (output_file_path : string)
    (normalized_entry : normal_entry) (mime_type : string)
    (gd_mtime : Qc) : M (Z * bool) :=
  get_authed_http ;;;
  url <- match assoc_get mime_type (ne_download_links normalized_entry) with
         | Some u => ret u
         | None => raise (KeyError mime_type)
         end ;;
  open_wb output_file_path ;;;
  r <- get_remote ;;
  total_size <- download_chunks (S (length (r_chunks r))) url output_file_path ;;
  now <- time_time ;;
  utime output_file_path now gd_mtime ;;;
  ret (total_size, true).

Definition download_to_local (output_file_path : string)
    (normalized_entry : normal_entry) (mime_type : string)
    (allow_cache : bool) : M (Z * bool) :=
  (if negb (String.eqb mime_type (ne_mime_type normalized_entry))
      && negb (has_key mime_type (ne_download_links normalized_entry))
   then raise (ExportFormatError (export_message normalized_entry mime_type))
   else ret tt) ;;;
  conf <- get_conf ;;
  let temp_path := file_download_temp_path conf in
  fs <- get_fs ;;
  (if isdir fs temp_path then ret tt
   else catch (makedirs temp_path) (fun e => raise e)) ;;;
  let gd_mtime := gd_mtime_epoch normalized_entry in
  fs <- get_fs ;;
  cached <-
    (if allow_cache && isfile fs output_file_path then
       stat_info <- catch (stat output_file_path) (fun e => raise e) ;;
       ret (Qeq_bool (this gd_mtime) (this (st_mtime stat_info)), Some stat_info)
     else ret (false, None)) ;;
  match cached with
  | (true, Some stat_info) => ret (st_size stat_info, false)
  | (true, None) => raise (UnboundLocalError "stat_info")
  | (false, _) =>
      download_fresh output_file_path normalized_entry mime_type gd_mtime
  end.

(** *** __insert_entry *)

(** [if data_filepath: args['media_body'] = MediaFileUpload(...)] *)
Definition media_body_of (data_filepath : option string) (mime_type : string)
    : M (option media_upload) :=
  if truthy_str data_filepath then
    m <- lift (MediaFileUpload (str_of data_filepath) mime_type) ;;
    ret (Some m)
  else ret None.

Definition insert_body (filename mime_type : string) (parents : list string)
    (modified_datetime accessed_datetime : option string)
    (is_hidden : option bool) (description : option string)
    : gmap string json :=
  let body : gmap string json :=
    <["title" := JStr filename]>
    (<["parents" := JArr (map (fun parent => JObj [("id", JStr parent)]) parents)]>
    (<["mimeType" := JStr mime_type]>
    (<["labels" := JObj [("hidden", json_of_opt_bool is_hidden)]]>
    (<["description" := json_of_opt_str description]> ∅)))) in
  let body :=
    match modified_datetime with
    | Some m => <["modifiedDate" := JStr m]> body
    | None => body
    end in
  match accessed_datetime with
  | Some a => <["lastViewedByMeDate" := JStr a]> body
  | None => body
  end.

Definition insert_entry (filename mime_type : string)
    (parents : option (list string)) (kw : insert_kwargs) : M normal_entry :=
  let data_filepath := ik_data_filepath kw in
  let is_hidden := default (Some false) (ik_is_hidden kw) in
  let description := ik_description kw in
  let parents := match parents with None => [] | Some ps => ps end in
  now_phrase <- now_phrase ;;
  let modified_datetime :=
    match ik_modified_datetime kw with
    | None => Some now_phrase
    | Some m => Some m
    end in
  let accessed_datetime :=
    match ik_accessed_datetime kw with
    | None => Some now_phrase
    | Some a => Some a
    end in
  get_client ;;;
  let body := insert_body filename mime_type parents modified_datetime
                accessed_datetime is_hidden description in
  media_body <- media_body_of data_filepath mime_type ;;
  let args := {| ia_body := body; ia_media_body := media_body |} in
  result <- catch (files_insert_execute args) (fun e => raise e) ;;
  normalized_entry <- lift (NormalEntry "insert_entry" result) ;;
  ret normalized_entry.

(** *** update_entry *)

Definition update_body (mime_type : string) (filename : option string)
    (parents : option json) (is_hidden : option bool)
    (description : option string) (modified_datetime : option string)
    (now : string) (accessed_datetime : option string) : gmap string json :=
  let body : gmap string json := <["mimeType" := JStr mime_type]> ∅ in
  let body := match filename with
              | Some f => <["title" := JStr f]> body
              | None => body
              end in
  let body := match parents with
              | Some ps => <["parents" := ps]> body
              | None => body
              end in
  let body := match is_hidden with
              | Some h => <["labels" := JObj [("hidden", JBool h)]]> body
              | None => body
              end in
  let body := match description with
              | Some d => <["description" := JStr d]> body
              | None => body
              end in
  let body := match modified_datetime with
              | Some m => <["modifiedDate" := JStr m]> body
              | None => <["modifiedDate" := JStr now]> body
              end in
  match accessed_datetime with
  | Some a => <["lastViewedByMeDate" := JStr a]> body
  | None => body
  end.

Definition update_entry (normalized_entry : normal_entry)
    (kw : update_kwargs) : M normal_entry :=
  let is_hidden := default (Some false) (uk_is_hidden kw) in
  let mime_type :=
    if truthy_str (uk_mime_type kw) then str_of (uk_mime_type kw)
    else ne_mime_type normalized_entry in
  get_client ;;;
  now <- now_phrase ;;
  let body := update_body mime_type (uk_filename kw) (uk_parents kw)
                is_hidden (uk_description kw) (uk_modified_datetime kw)
                now (uk_accessed_datetime kw) in
  let set_mtime := true in
  let set_atime := match uk_accessed_datetime kw with
                   | Some _ => 1%Z
                   | None => 0%Z
                   end in
  media_body <- media_body_of (uk_data_filepath kw) mime_type ;;
  let args :=
    {| ua_fileId := ne_id normalized_entry;
       ua_body := body;
       ua_setModifiedDate := set_mtime;
       ua_updateViewedDate := set_atime;
       ua_media_body := media_body |} in
  result <- files_update_execute args ;;
  normalized_entry' <- lift (NormalEntry "update_entry" result) ;;
  ret normalized_entry'.

Definition no_update_kwargs : update_kwargs :=
  {| uk_filename := None; uk_data_filepath := None; uk_mime_type := None;
     uk_parents := None; uk_modified_datetime := None;
     uk_accessed_datetime := None; uk_is_hidden := None;
     uk_description := None |}.

Definition truncate (normalized_entry : normal_entry) : M unit :=
  catch (update_entry normalized_entry
           {| uk_filename := None; uk_data_filepath := Some "/dev/null";
              uk_mime_type := None; uk_parents := None;
              uk_modified_datetime := None; uk_accessed_datetime := None;
              uk_is_hidden := None; uk_description := None |} ;;;
         ret tt)
        (fun e => raise e).



Definition rename (normalized_entry : normal_entry) (new_filename : string)
    : M normal_entry :=
  result <- lift (split_path_nolookups new_filename) ;;
  let '(path, filename_stripped, mime_type, is_hidden) := result in
  update_entry normalized_entry
    {| uk_filename := Some filename_stripped; uk_data_filepath := None;
       uk_mime_type := None; uk_parents := None;
       uk_modified_datetime := None; uk_accessed_datetime := None;
       uk_is_hidden := Some (Some is_hidden); uk_description := None |}.

End Manager.

(** The classes the handlers of [proxied_method] tell apart. *)
Definition is_transient (e : exn) : bool :=
  match e with
  | SSLError _ | BadStatusLine _ => true
  | _ => false
  end.

Definition is_http_error (e : exn) : bool :=
  match e with
  | HttpError _ _ => true
  | _ => false
  end.

Definition is_authorization_fault (e : exn) : bool :=
  match e with
  | AuthorizationFaultError _ => true
  | _ => false
  end.

(** *** What the request bodies hold

    Whether the caller gave a keyword. *)
Definition given {A} (o : option A) : bool :=
  match o with
  | Some _ => true
  | None => false
  end.

(** The reading under which a body holds optional fields only when the
    caller gave them: for each key of an update body, whether the keyword
    that feeds it was given (the modification date may always be there). *)
Definition update_supplied (kw : update_kwargs) (key : string) : bool :=
  if String.eqb key "modifiedDate" then true
  else if String.eqb key "mimeType" then given (uk_mime_type kw)
  else if String.eqb key "title" then given (uk_filename kw)
  else if String.eqb key "parents" then given (uk_parents kw)
  else if String.eqb key "labels" then given (uk_is_hidden kw)
  else if String.eqb key "description" then given (uk_description kw)
  else if String.eqb key "lastViewedByMeDate" then given (uk_accessed_datetime kw)
  else false.

(** The same for an insert body, whose title, parents and MIME type are
    not optional. *)
Definition insert_supplied (kw : insert_kwargs) (key : string) : bool :=
  if String.eqb key "modifiedDate" then true
  else if String.eqb key "title" then true
  else if String.eqb key "parents" then true
  else if String.eqb key "mimeType" then true
  else if String.eqb key "labels" then given (ik_is_hidden kw)
  else if String.eqb key "description" then given (ik_description kw)
  else if String.eqb key "lastViewedByMeDate" then given (ik_accessed_datetime kw)
  else false.

Definition hidden_label (h : bool) : json := JObj [("hidden", JBool h)].

(** What the body of an update holds, field by field, for the keywords
    [kw] on the entry [ne] at the time [now]. *)
Definition update_body_holds (ne : normal_entry) (kw : update_kwargs)
    (now : string) (body : gmap string json) : Prop :=
  body !! "mimeType"
    = Some (JStr (if truthy_str (uk_mime_type kw) then str_of (uk_mime_type kw)
                  else ne_mime_type ne))
  /\ body !! "modifiedDate" = Some (JStr (default now (uk_modified_datetime kw)))
  /\ body !! "labels"
     = match uk_is_hidden kw with
       | None => Some (hidden_label false)
       | Some h => hidden_label <$> h
       end
  /\ body !! "title" = JStr <$> uk_filename kw
  /\ body !! "parents" = uk_parents kw
  /\ body !! "description" = JStr <$> uk_description kw
  /\ body !! "lastViewedByMeDate" = JStr <$> uk_accessed_datetime kw
  /\ forall key, is_Some (body !! key) ->
       In key ["mimeType"; "modifiedDate"; "labels"; "title"; "parents";
               "description"; "lastViewedByMeDate"].

(** What the body of an insert holds. *)
Definition insert_body_holds (filename mime_type : string)
    (parents : option (list string)) (kw : insert_kwargs)
    (now : string) (body : gmap string json) : Prop :=
  body !! "title" = Some (JStr filename)
  /\ body !! "parents"
     = Some (JArr (map (fun parent => JObj [("id", JStr parent)])
                     (default [] parents)))
  /\ body !! "mimeType" = Some (JStr mime_type)
  /\ body !! "labels"
     = Some (JObj [("hidden", json_of_opt_bool (default (Some false) (ik_is_hidden kw)))])
  /\ body !! "description" = Some (json_of_opt_str (ik_description kw))
  /\ body !! "modifiedDate" = Some (JStr (default now (ik_modified_datetime kw)))
  /\ body !! "lastViewedByMeDate" = Some (JStr (default now (ik_accessed_datetime kw)))
  /\ forall key, is_Some (body !! key) ->
       In key ["title"; "parents"; "mimeType"; "labels"; "description";
               "modifiedDate"; "lastViewedByMeDate"].

(** The world once the staging directory is there: as it was, or with the
    directory just made, and with it the missing directories on the way. *)
Definition staged (w : world) : world :=
  let temp_path := file_download_temp_path (w_conf w) in
  if isdir (w_fs w) temp_path then w
  else {| w_conf := w_conf w;
          w_fs := mkdirs (temp_path :: missing_heads (String.length temp_path)
                                         (w_fs w) temp_path) (w_fs w);
          w_clock := w_clock w; w_entropy := w_entropy w; w_draws := w_draws w;
          w_client := w_client w; w_remote := w_remote w;
          w_trace := w_trace w ++ [EvMakedirs temp_path] |}.

(** The bytes of a run of chunks, in order. *)
Definition received (chunks : list chunk) : string :=
  fold_right (fun c acc => ch_data c ++ acc) EmptyString chunks.

(** The world after an external call [ev] that left the script [r]. *)
Definition with_reply (w : world) (ev : event) (r : remote) : world :=
  {| w_conf := w_conf w; w_fs := w_fs w; w_clock := w_clock w;
     w_entropy := w_entropy w; w_draws := w_draws w;
     w_client := w_client w; w_remote := r;
     w_trace := w_trace w ++ [ev] |}.

(** A raw entry carries the flag [hidden_flag]: its [labels], where
    [__insert_entry] and [update_entry] put [hidden], hold it as true. *)
Definition flagged (hidden_flag : string) (raw : json) : bool :=
  match raw with
  | JObj fields =>
      match assoc_get "labels" fields with
      | Some (JObj labels) =>
          match assoc_get hidden_flag labels with
          | Some (JBool true) => true
          | _ => false
          end
      | _ => false
      end
  | _ => false
  end.

(** Ids that grow strictly, starting above [last] when there is one. *)
Fixpoint increasing_from (last : option Z) (ids : list Z) : Prop :=
  match ids with
  | [] => True
  | i :: ids' =>
      match last with
      | Some l => (l < i)%Z
      | None => True
      end /\ increasing_from (Some i) ids'
  end.

(** ** Fixtures: concrete collaborators and worlds for the examples. *)
Module Fixture.

Definition conf : Conf :=
  {| google_discovery_service_url := "https://www.googleapis.com/discovery/v1/apis/{api}/{apiVersion}/rest";
     hidden_flags_list_remote := ["trashed"];
     file_download_temp_path := "/tmp/gdrivefs";
     directory_mimetype := "application/vnd.google-apps.folder";
     file_default_mime_type := "application/octet-stream" |}.

Definition no_replies : remote :=
  {| r_credentials := []; r_build := []; r_refresh := []; r_about := [];
     r_changes := []; r_children := []; r_files_list := [];
     r_files_insert := []; r_files_update := []; r_chunks := [] |}.

(** A world whose client is built ([client] true) or not, with the given
    files and scripted replies, the clock at [1000] and a random source
    that always draws [0]. *)
Definition world_of (client : bool) (fs : gmap string node) (r : remote) : world :=
  {| w_conf := conf; w_fs := fs; w_clock := Q2Qc (inject_Z 1000);
     w_entropy := fun _ => 0; w_draws := 0%nat; w_client := client;
     w_remote := r; w_trace := [] |}.

Definition about_script (script : list (outcome json)) (refresh : list (outcome unit))
    : remote :=
  {| r_credentials := []; r_build := []; r_refresh := refresh; r_about := script;
     r_changes := []; r_children := []; r_files_list := [];
     r_files_insert := []; r_files_update := []; r_chunks := [] |}.

(** A normaliser reading the [id] and [mimeType] of a raw entry. *)
Definition NormalEntry (source : string) (raw : json) : exn + normal_entry :=
  match raw with
  | JObj fields =>
      match assoc_get "id" fields with
      | Some (JStr i) =>
          inr {| ne_id := i;
                 ne_mime_type := match assoc_get "mimeType" fields with
                                 | Some (JStr m) => m
                                 | _ => EmptyString
                                 end;
                 ne_download_links := [];
                 ne_modified_date := {| dt_mktime := 0; dt_microsecond := 0 |} |}
      | _ => inl (KeyError "id")
      end
  | _ => inl (TypeError "raw entry")
  end.

Definition escape_filename_for_query (s : string) : string := s.

Definition get_flat_normal_fs_time_from_dt (t : Qc) : string :=
  "2013-05-01T12:00:00.000Z".

Definition MediaFileUpload (filename mimetype : string) : exn + media_upload :=
  inr {| mu_filename := filename; mu_mimetype := mimetype |}.

Definition changes_script (script : list (outcome changes_response)) : remote :=
  {| r_credentials := []; r_build := []; r_refresh := []; r_about := [];
     r_changes := script; r_children := []; r_files_list := [];
     r_files_insert := []; r_files_update := []; r_chunks := [] |}.

Definition deletion (change_id : Z) (file_id : string) : change_item :=
  {| ci_id := change_id; ci_fileId := file_id; ci_deleted := true;
     ci_file := None |}.

Definition build_script (credentials build : list (outcome unit)) : remote :=
  {| r_credentials := credentials; r_build := build; r_refresh := [];
     r_about := []; r_changes := []; r_children := [];
     r_files_list := []; r_files_insert := []; r_files_update := [];
     r_chunks := [] |}.

(** A spreadsheet that exports to PDF and CSV, last modified at 5000. *)
Definition sheet : normal_entry :=
  {| ne_id := "1a2b";
     ne_mime_type := "application/vnd.google-apps.spreadsheet";
     ne_download_links := [("application/pdf", "https://docs.example/export?format=pdf");
                           ("text/csv", "https://docs.example/export?format=csv")];
     ne_modified_date := {| dt_mktime := 5000; dt_microsecond := 250000 |} |}.

Definition no_insert_kwargs : insert_kwargs :=
  {| ik_data_filepath := None; ik_modified_datetime := None;
     ik_accessed_datetime := None; ik_is_hidden := None;
     ik_description := None |}.

Definition files_script (script : list (outcome files_response)) : remote :=
  {| r_credentials := []; r_build := []; r_refresh := []; r_about := [];
     r_changes := []; r_children := []; r_files_list := script;
     r_files_insert := []; r_files_update := []; r_chunks := [] |}.

Definition raw_file (file_id : string) : json :=
  JObj [("id", JStr file_id); ("mimeType", JStr "text/plain")].

Definition file_entry (file_id : string) : normal_entry :=
  {| ne_id := file_id; ne_mime_type := "text/plain"; ne_download_links := [];
     ne_modified_date := {| dt_mktime := 0; dt_microsecond := 0 |} |}.

(** Three pages of sizes 2, 2 and 1; the last has no continuation token. *)
Definition three_pages : list files_response :=
  [ {| fr_items := [raw_file "f1"; raw_file "f2"]; fr_nextPageToken := Some "t1" |};
    {| fr_items := [raw_file "f3"; raw_file "f4"]; fr_nextPageToken := Some "t2" |} ].

Definition last_page : files_response :=
  {| fr_items := [raw_file "f5"]; fr_nextPageToken := None |}.

Definition chunks_script (credentials : list (outcome unit))
    (script : list (outcome chunk)) : remote :=
  {| r_credentials := credentials; r_build := []; r_refresh := [];
     r_about := []; r_changes := []; r_children := []; r_files_list := [];
     r_files_insert := []; r_files_update := []; r_chunks := script |}.

Definition staging : gmap string node := {["/tmp/gdrivefs" := Dir]}.

(** The staging directory with a copy of the sheet's PDF whose
    modification time is [mtime]. *)
Definition staging_with_copy (content : string) (mtime : Z) : gmap string node :=
  <["/tmp/gdrivefs/1a2b" := File content (Q2Qc (inject_Z mtime))]> staging.

Definition first_half : chunk :=
  {| ch_data := "%PDF-"; ch_done := false; ch_total_size := 8 |}.

Definition second_half : chunk :=
  {| ch_data := "1.4"; ch_done := true; ch_total_size := 8 |}.

Definition upload_kwargs : insert_kwargs :=
  {| ik_data_filepath := Some "/tmp/notes"; ik_modified_datetime := None;
     ik_accessed_datetime := None; ik_is_hidden := None;
     ik_description := None |}.

Definition rate_limited : exn :=
  HttpError 403
    (Json (JObj [("code", JInt 403);
                 ("errors", JArr [JObj [("reason", JStr "rateLimitExceeded")]])])).

Definition bad_gateway : exn :=
  HttpError 502 (NotJson "<html>502 Bad Gateway</html>").

End Fixture.


(** ** More of _GdriveManager: parents, single entries

    The requests of these operations are taken as given computations. *)

Fixpoint chars_of (s : string) : list json :=
  match s with
  | EmptyString => []
  | String c s' => JStr (String c EmptyString) :: chars_of s'
  end.

(** What [for x in v] goes through: the items of a list, the keys of a
    dict, the characters of a string. *)
Definition py_iter (v : json) : exn + list json :=
  match v with
  | JArr items => inr items
  | JObj fields => inr (map (fun kv => JStr (fst kv)) fields)
  | JStr s => inr (chars_of s)
  | _ => inl (TypeError "not iterable")
  end.

(** [[ entry[u'id'] for entry in entries ]] *)
Fixpoint ids_of (entries : list json) : exn + list json :=
  match entries with
  | [] => inr []
  | entry :: entries' =>
      match py_getitem entry "id" with
      | inl e => inl e
      | inr i =>
          match ids_of entries' with
          | inl e => inl e
          | inr ids => inr (i :: ids)
          end
      end
  end.

Section Lookups.

Variable NormalEntry : string -> json -> exn + normal_entry.

(** [client.parents().list(fileId=...).execute()] and
    [client.files().get(fileId=...).execute()]. *)
Variable parents_list_execute : string -> M json.
Variable files_get_execute : string -> M json.

Definition get_parents_containing_id (child_id : string) : M (list json) :=
  get_client ;;;
  response <- parents_list_execute child_id ;;
  items <- lift (py_getitem response "items") ;;
  entries <- lift (py_iter items) ;;
  lift (ids_of entries).

Definition get_entry (entry_id : string) : M normal_entry :=
  get_client ;;;
  entry_raw <- catch (files_get_execute entry_id) (fun e => raise e) ;;
  entry <- catch (lift (NormalEntry "direct_read" entry_raw)) (fun e => raise e) ;;
  ret entry.

(** [for entry_id in entry_ids: ...], with the dict [retrieved]. Each entry
    is fetched through [drive_proxy('get_entry', entry_id=...)], that is
    through [proxied_method] with auto-refresh on, in the proxy this
    manager belongs to. *)
Fixpoint get_entries_from (entry_ids : list string)
    (retrieved : gmap string (option normal_entry))
    : M (gmap string (option normal_entry)) :=
  match entry_ids with
  | [] => ret retrieved
  | entry_id :: entry_ids' =>
      entry <- catch (proxied_method true (get_entry entry_id))
                     (fun e => raise e) ;;
      get_entries_from entry_ids' (<[entry_id := entry]> retrieved)
  end.

Definition get_entries (entry_ids : list string)
    : M (gmap string (option normal_entry)) :=
  get_entries_from entry_ids ∅.

End Lookups.

(** *** Notions the properties below are stated with *)

(** An optional string with the empty string taken for a missing one. *)
Definition nonempty (s : option string) : option string :=
  if truthy_str s then s else None.

(** A computation whose every run takes a world to one related to it by
    [R]. *)
Definition respects {A} (R : world -> world -> Prop) (m : M A) : Prop :=
  forall w, R w (snd (m w)).

(** The configuration is the same. *)
Definition same_conf (w w' : world) : Prop := w_conf w' = w_conf w.

(** The file system is the same but for the paths [paths]. *)
Definition same_fs_outside (paths : list string) (w w' : world) : Prop :=
  forall p, ~ In p paths -> w_fs w' !! p = w_fs w !! p.

(** The credentials still to be read are the same. *)
Definition same_credentials (w w' : world) : Prop :=
  r_credentials (w_remote w') = r_credentials (w_remote w).

(** In a dict of changes, the changes marked deleted are those without an
    entry. *)
Definition deleted_iff_no_entry (kv : Z * change) : Prop :=
  snd (fst (snd kv)) = true <-> snd (snd kv) = None.

(** The jitter of a backoff: [random.randint(0, 1000) / 1000] for the
    draw [x]. *)
Definition jitter (x : Z) : Z := (0 + x mod (1000 - 0 + 1)) / 1000.

Module Sample.

Definition parents_reply (reply : json) : string -> M json :=
  fun _ => ret reply.

Definition always_returns (reply : json) : string -> M json :=
  fun _ => ret reply.

Definition always_bad_status : string -> M json :=
  fun _ => raise (BadStatusLine EmptyString).

Definition split_path_nolookups (s : string)
    : exn + (string * string * option string * bool) :=
  inr ("/", "report", None, true).

Definition writes_script (inserts updates : list (outcome json)) : remote :=
  {| r_credentials := []; r_build := []; r_refresh := []; r_about := [];
     r_changes := []; r_children := []; r_files_list := [];
     r_files_insert := inserts; r_files_update := updates; r_chunks := [] |}.

Definition touch_kwargs : update_kwargs :=
  {| uk_filename := None; uk_data_filepath := None; uk_mime_type := None;
     uk_parents := None; uk_modified_datetime := None;
     uk_accessed_datetime := Some "2013-05-02T08:00:00.000Z";
     uk_is_hidden := None; uk_description := None |}.

Definition live : change_item :=
  {| ci_id := 12; ci_fileId := "f12"; ci_deleted := false;
     ci_file := Some (Fixture.raw_file "f12") |}.

Definition torn : change_item :=
  {| ci_id := 13; ci_fileId := "f13"; ci_deleted := false; ci_file := None |}.

End Sample.

(** * Properties *)

(** ** External calls *)

Lemma reply_returns {A} (ev : event) (script : remote -> list (outcome A))
    (rest : remote -> list (outcome A) -> remote) (a : A)
    (tl : list (outcome A)) (w : world) :
  script (w_remote w) = Returns a :: tl ->
  reply ev script rest w = (Ok a, with_reply w ev (rest (w_remote w) tl)).
Proof.
  intros H. unfold reply, bind, log, get_remote, set_remote, ret. simpl.
  rewrite H. reflexivity.
Qed.

Lemma reply_raises {A} (ev : event) (script : remote -> list (outcome A))
    (rest : remote -> list (outcome A) -> remote) (e : exn)
    (tl : list (outcome A)) (w : world) :
  script (w_remote w) = Raises e :: tl ->
  reply ev script rest w = (Raise e, with_reply w ev (rest (w_remote w) tl)).
Proof.
  intros H. unfold reply, bind, log, get_remote, set_remote, raise. simpl.
  rewrite H. reflexivity.
Qed.

Lemma get_client_built (w : world) :
  w_client w = true -> get_client w = (Ok tt, w).
Proof. intros H. unfold get_client. by rewrite H. Qed.

(** ** The retrying proxy *)

Lemma range_0_5 : seqZ 0 5 = [0; 1; 2; 3; 4].
Proof. reflexivity. Qed.

Lemma backoff_sleep_ok (n : Z) (w : world) :
  exists w', backoff_sleep n w = (Ok tt, w').
Proof. unfold backoff_sleep, bind, random_randint, time_sleep. eauto. Qed.

(** A method that fails with a transient connection error at every call
    makes the loop run dry: whatever rounds are left, the proxy ends by
    returning [None]. *)
Lemma proxied_loop_transient_runs_dry {A} (auto_refresh : bool) (method : M A)
    (ns : list Z) (error : option json) (w : world) :
  (forall w0, exists e w1, method w0 = (Raise e, w1) /\ is_transient e = true) ->
  exists w', proxied_loop auto_refresh method ns error w = (Ok None, w').
Proof.
  intros Hm. revert error w.
  induction ns as [|n ns IH]; intros error w; simpl.
  - unfold ret. eauto.
  - destruct (Hm w) as (e & w1 & -> & He).
    destruct e; simpl in He; try discriminate.
    + unfold bind at 1. destruct (backoff_sleep_ok n w1) as [w2 ->]. apply IH.
    + unfold bind at 1. destruct (backoff_sleep_ok n w1) as [w2 ->]. apply IH.
Qed.

Lemma proxied_method_transient_swallowed {A} (auto_refresh : bool)
    (method : M A) (w : world) :
  (forall w0, exists e w1, method w0 = (Raise e, w1) /\ is_transient e = true) ->
  exists w', proxied_method auto_refresh method w = (Ok None, w').
Proof. apply proxied_loop_transient_runs_dry. Qed.

(** C1, at the failing input: [get_about_info] proxied while the service
    answers every request with a malformed status line. The proxy calls
    five times, sleeps after each failure (the fifth too), and then returns
    [None]: the last error does not reach the caller. *)
Theorem proxied_method_transient_exhausted_returns_none :
  let w := Fixture.world_of true ∅
             (Fixture.about_script (repeat (Raises (BadStatusLine EmptyString)) 5) []) in
  fst (proxied_method true get_about_info w) = Ok None
  /\ w_trace (snd (proxied_method true get_about_info w))
     = [EvAboutGet; EvSleep 1; EvAboutGet; EvSleep 2; EvAboutGet; EvSleep 4;
        EvAboutGet; EvSleep 8; EvAboutGet; EvSleep 16].
Proof. split; vm_compute; reflexivity. Qed.

(** A connection reset is a [socket.error] that neither handler names: it
    leaves at the first attempt, without sleep or retry. *)
Lemma proxied_method_connection_reset_not_retried {A} (auto_refresh : bool)
    (method : M A) (errno : Z) (w w1 : world) :
  method w = (Raise (SocketError errno), w1) ->
  proxied_method auto_refresh method w = (Raise (SocketError errno), w1).
Proof. intros H. unfold proxied_method. rewrite range_0_5. simpl. by rewrite H. Qed.

(** A result at any attempt is returned as it is. *)
Lemma proxied_method_success_first {A} (auto_refresh : bool)
    (method : M A) (a : A) (w w1 : world) :
  method w = (Ok a, w1) ->
  proxied_method auto_refresh method w = (Ok (Some a), w1).
Proof. intros H. unfold proxied_method. rewrite range_0_5. simpl. by rewrite H. Qed.

(** Four malformed status lines, then a result: the fifth attempt's result
    is returned, after four sleeps. *)
Lemma proxied_method_fifth_attempt_succeeds :
  let w := Fixture.world_of true ∅
             (Fixture.about_script
                (app (repeat (Raises (BadStatusLine EmptyString)) 4)
                     [Returns (JStr "about")]) []) in
  fst (proxied_method true get_about_info w) = Ok (Some (JStr "about"))
  /\ w_trace (snd (proxied_method true get_about_info w))
     = [EvAboutGet; EvSleep 1; EvAboutGet; EvSleep 2; EvAboutGet; EvSleep 4;
        EvAboutGet; EvSleep 8; EvAboutGet].
Proof. split; vm_compute; reflexivity. Qed.

(** *** Authorization faults *)

(** With auto-refresh off, an authorization fault of the first attempt
    leaves unchanged. *)
Lemma proxied_method_fault_no_auto_refresh {A} (method : M A) (msg : string)
    (w w1 : world) :
  method w = (Raise (AuthorizationFaultError msg), w1) ->
  proxied_method false method w = (Raise (AuthorizationFaultError msg), w1).
Proof. intros H. unfold proxied_method. rewrite range_0_5. simpl. by rewrite H. Qed.

(** Two faults in a row at the first two attempts: one refresh between
    them, and the second fault leaves unchanged. *)
Lemma proxied_method_two_faults_in_a_row {A} (method : M A) (m1 m2 : string)
    (w w1 w2 w3 : world) :
  method w = (Raise (AuthorizationFaultError m1), w1) ->
  check_credential_state w1 = (Ok tt, w2) ->
  method w2 = (Raise (AuthorizationFaultError m2), w3) ->
  proxied_method true method w = (Raise (AuthorizationFaultError m2), w3).
Proof.
  intros H1 H2 H3. unfold proxied_method. rewrite range_0_5.
  simpl. rewrite H1. simpl. unfold bind at 1. rewrite H2.
  simpl. by rewrite H3.
Qed.

(** A fault at the first attempt, answered by a refresh, then a result. *)
Lemma proxied_method_fault_refresh_retry {A} (method : M A) (m1 : string) (a : A)
    (w w1 w2 w3 : world) :
  method w = (Raise (AuthorizationFaultError m1), w1) ->
  check_credential_state w1 = (Ok tt, w2) ->
  method w2 = (Ok a, w3) ->
  proxied_method true method w = (Ok (Some a), w3).
Proof.
  intros H1 H2 H3. unfold proxied_method. rewrite range_0_5.
  simpl. rewrite H1. simpl. unfold bind at 1. rewrite H2.
  simpl. by rewrite H3.
Qed.

(** C3, at the failing input: auto-refresh is on, the first attempt meets
    a malformed status line and the second the call's first authorization
    fault. The test [n == 1] takes the second attempt for one that follows
    a refresh: the fault leaves with no refresh made and no retry, though
    the next request would have succeeded. *)
Theorem proxied_method_first_fault_at_second_attempt :
  let w := Fixture.world_of true ∅
             (Fixture.about_script
                [Raises (BadStatusLine EmptyString); Raises (AuthorizationFaultError "expired");
                 Returns JNull]
                [Returns tt]) in
  fst (proxied_method true get_about_info w) = Raise (AuthorizationFaultError "expired")
  /\ w_trace (snd (proxied_method true get_about_info w))
     = [EvAboutGet; EvSleep 1; EvAboutGet]
  /\ r_refresh (w_remote (snd (proxied_method true get_about_info w))) = [Returns tt].
Proof. repeat split; vm_compute; reflexivity. Qed.

(** The same test lets every later fault refresh again: faults at the
    attempts 0, 2, 3 and 4 make four refreshes, and the call ends by
    returning [None]. *)
Lemma proxied_method_refreshes_four_times :
  let w := Fixture.world_of true ∅
             (Fixture.about_script
                [Raises (AuthorizationFaultError "a"); Raises (BadStatusLine EmptyString);
                 Raises (AuthorizationFaultError "b"); Raises (AuthorizationFaultError "c");
                 Raises (AuthorizationFaultError "d")]
                (repeat (Returns tt) 4)) in
  fst (proxied_method true get_about_info w) = Ok None
  /\ w_trace (snd (proxied_method true get_about_info w))
     = [EvAboutGet; EvCheckCredentialState; EvAboutGet; EvSleep 2; EvAboutGet;
        EvCheckCredentialState; EvAboutGet; EvCheckCredentialState; EvAboutGet;
        EvCheckCredentialState].
Proof. split; vm_compute; reflexivity. Qed.

(** *** Errors the proxy does not handle *)

(** An exception of no handled class leaves at once, with the world the
    failed attempt left. *)
Lemma proxied_method_unhandled_propagates {A} (auto_refresh : bool)
    (method : M A) (e : exn) (w w1 : world) :
  method w = (Raise e, w1) ->
  is_transient e = false -> is_http_error e = false ->
  is_authorization_fault e = false ->
  proxied_method auto_refresh method w = (Raise e, w1).
Proof.
  intros H Ht Hh Ha. unfold proxied_method. rewrite range_0_5. simpl. rewrite H.
  destruct e; simpl in *; try discriminate; reflexivity.
Qed.

(** An HTTP error whose body decodes and is no rate-limit signal leaves at
    once, unchanged. *)
Lemma proxied_method_http_error_propagates {A} (auto_refresh : bool)
    (method : M A) (status : Z) (j : json) (w w1 : world) :
  method w = (Raise (HttpError status (Json j)), w1) ->
  is_rate_limit (Some j) = inr false ->
  proxied_method auto_refresh method w = (Raise (HttpError status (Json j)), w1).
Proof.
  intros H Hr. unfold proxied_method. rewrite range_0_5. simpl. rewrite H.
  by rewrite Hr.
Qed.

(** An HTTP error whose body is not JSON, met before any body has decoded:
    the local [error] is still unbound when it is read. *)
Lemma proxied_method_non_json_first {A} (auto_refresh : bool)
    (method : M A) (status : Z) (raw : string) (w w1 : world) :
  method w = (Raise (HttpError status (NotJson raw)), w1) ->
  proxied_method auto_refresh method w = (Raise (UnboundLocalError "error"), w1).
Proof. intros H. unfold proxied_method. rewrite range_0_5. simpl. by rewrite H. Qed.

(** C8, at the failing input: the service answers with a 502 whose body is
    an HTML page. After logging that the body is not JSON the handler reads
    the local [error], never bound: the caller gets an [UnboundLocalError]
    in place of the [HttpError]. *)
Theorem proxied_method_non_json_body_kind_lost :
  let w := Fixture.world_of true ∅
             (Fixture.about_script [Raises Fixture.bad_gateway] []) in
  fst (proxied_method true get_about_info w) = Raise (UnboundLocalError "error")
  /\ fst (get_about_info w) = Raise Fixture.bad_gateway
  /\ w_trace (snd (proxied_method true get_about_info w)) = [EvAboutGet].
Proof. repeat split; vm_compute; reflexivity. Qed.

(** After a rate-limit reply the local [error] still holds that reply's
    body: a following HTTP error with a body that is not JSON is taken for
    a rate limit again, and retried. *)
Lemma proxied_method_non_json_after_rate_limit_retried :
  let w := Fixture.world_of true ∅
             (Fixture.about_script
                [Raises Fixture.rate_limited; Raises Fixture.bad_gateway; Returns JNull]
                []) in
  fst (proxied_method true get_about_info w) = Ok (Some JNull)
  /\ w_trace (snd (proxied_method true get_about_info w))
     = [EvAboutGet; EvSleep 1; EvAboutGet; EvSleep 2; EvAboutGet].
Proof. split; vm_compute; reflexivity. Qed.

(** ** list_changes *)

Section ListChanges.

Variable NormalEntry : string -> json -> exn + normal_entry.

Lemma od_set_fresh {V} (k : Z) (v : V) (d : list (Z * V)) :
  Forall (fun kv => (fst kv < k)%Z) d -> od_set k v d = app d [(k, v)].
Proof.
  induction 1 as [|[k' v'] d Hk Hd IH]; simpl; [reflexivity|].
  simpl in Hk. destruct (Z.eqb_spec k k'); [lia|]. by rewrite IH.
Qed.

Lemma order_test_false (last : option Z) (i l : Z) :
  truthy_int last && (i <=? default 0 last)%Z = false ->
  last <> Some 0 -> last = Some l -> (l < i)%Z.
Proof.
  intros Htest Hlast ->. simpl in Htest.
  destruct (Z.eqb_spec l 0); [congruence|]. simpl in Htest. lia.
Qed.

(** One more key above all those present goes to the end, and stays the
    largest. *)
Lemma od_set_step (last : option Z) (item : change_item) (v : change)
    (changes : list (Z * change)) :
  truthy_int last && (ci_id item <=? default 0 last)%Z = false ->
  last <> Some 0 ->
  Forall (fun kv => exists l, last = Some l /\ (fst kv <= l)%Z) changes ->
  od_set (ci_id item) v changes = app changes [(ci_id item, v)]
  /\ Forall (fun kv => exists l, Some (ci_id item) = Some l /\ (fst kv <= l)%Z)
       (od_set (ci_id item) v changes).
Proof.
  intros Htest Hlast Hch.
  assert (Hfresh : od_set (ci_id item) v changes = app changes [(ci_id item, v)]).
  { apply od_set_fresh. eapply Forall_impl; [exact Hch|].
    intros kv (l & Hl & Hle).
    pose proof (order_test_false _ _ _ Htest Hlast Hl). lia. }
  split; [exact Hfresh|]. rewrite Hfresh. apply Forall_app. split.
  - eapply Forall_impl; [exact Hch|]. intros kv (l & Hl & Hle).
    exists (ci_id item). split; [reflexivity|].
    pose proof (order_test_false _ _ _ Htest Hlast Hl). lia.
  - constructor; [|constructor]. exists (ci_id item). simpl. split; [reflexivity|lia].
Qed.

(** The loop over the items has no effect on the world; when it ends
    normally over ids that are not zero, the ids grew strictly and the
    dict holds them in that order. *)
Lemma list_changes_items_ok (items : list change_item) :
  forall (last : option Z) (changes r : list (Z * change)) (w w' : world),
    Forall (fun item => ci_id item <> 0) items ->
    last <> Some 0 ->
    Forall (fun kv => exists l, last = Some l /\ (fst kv <= l)%Z) changes ->
    list_changes_items NormalEntry items last changes w = (Ok r, w') ->
    w' = w
    /\ increasing_from last (map ci_id items)
    /\ map fst r = app (map fst changes) (map ci_id items).
Proof.
  induction items as [|item items IH]; intros last changes r w w' Hnz Hlast Hch Hrun.
  - simpl in Hrun. unfold ret in Hrun. inversion Hrun; subst.
    simpl. by rewrite app_nil_r.
  - inversion Hnz as [|? ? Hid Hnz']; subst.
    simpl in Hrun.
    assert (Hstep : exists v,
      truthy_int last && (ci_id item <=? default 0 last)%Z = false
      /\ list_changes_items NormalEntry items (Some (ci_id item))
           (od_set (ci_id item) v changes) w = (Ok r, w')).
    { destruct (ci_deleted item); [|destruct (ci_file item) as [f|]];
        unfold bind, ret, raise in Hrun; simpl in Hrun; try discriminate;
        destruct (truthy_int last && (ci_id item <=? default 0 last)%Z);
        try discriminate.
      - eexists. split; [reflexivity|exact Hrun].
      - destruct (NormalEntry "list_changes" f); simpl in Hrun;
          unfold raise, ret in Hrun; try discriminate.
        eexists. split; [reflexivity|exact Hrun]. }
    destruct Hstep as (v & Htest & Hrest).
    destruct (od_set_step last item v changes Htest Hlast Hch) as [Hset Hch'].
    apply IH in Hrest as (-> & Hinc & Hkeys); auto; [|congruence].
    split; [reflexivity|]. split.
    + simpl. split; [|exact Hinc].
      destruct last as [l|]; [|trivial].
      by eapply order_test_false.
    + rewrite Hkeys, Hset, map_app. simpl. by rewrite <- app_assoc.
Qed.

(** The loop raises or ends normally; it asks nothing of the world. *)
Lemma list_changes_items_pure (items : list change_item) :
  forall (last : option Z) (changes : list (Z * change)) (w : world),
    snd (list_changes_items NormalEntry items last changes w) = w
    /\ fst (list_changes_items NormalEntry items last changes w) <> NoReply.
Proof.
  induction items as [|item items IH]; intros last changes w; simpl.
  - by unfold ret.
  - destruct (ci_deleted item); [|destruct (ci_file item) as [f|]];
      unfold bind, ret, raise; simpl;
      destruct (truthy_int last && (ci_id item <=? default 0 last)%Z);
      simpl; try done; try apply IH.
    destruct (NormalEntry "list_changes" f); simpl; unfold raise, ret;
      try done; apply IH.
Qed.

(** Over ids that are not zero, a page whose ids do not grow strictly
    makes the loop raise: no dict comes back. *)
Lemma list_changes_items_violation_aborts (items : list change_item) (w : world) :
  Forall (fun item => ci_id item <> 0) items ->
  ~ increasing_from None (map ci_id items) ->
  exists e, list_changes_items NormalEntry items None [] w = (Raise e, w).
Proof.
  intros Hnz Hbad.
  destruct (list_changes_items_pure items None [] w) as [Hw Hr].
  destruct (list_changes_items NormalEntry items None [] w) as [r w'] eqn:Hrun.
  simpl in Hw, Hr. subst w'. destruct r as [r|e|]; [|by eauto|done].
  destruct (list_changes_items_ok items None [] r w w Hnz
              ltac:(congruence) ltac:(constructor) Hrun) as (_ & Hinc & _).
  done.
Qed.

(** [list_changes] on a page whose ids are not zero: a result holds the
    ids of the page, in the page's order, and they grow strictly. *)
Lemma list_changes_result_increasing (start_change_id : option Z)
    (page_token : option string) (page : changes_response)
    (rest : list (outcome changes_response)) (w w0 w' : world)
    (largest : Z) (next : option string) (changes : list (Z * change)) :
  get_client w = (Ok tt, w0) ->
  r_changes (w_remote w0) = Returns page :: rest ->
  Forall (fun item => ci_id item <> 0) (cr_items page) ->
  list_changes NormalEntry start_change_id page_token w
    = (Ok (largest, next, changes), w') ->
  map fst changes = map ci_id (cr_items page)
  /\ increasing_from None (map ci_id (cr_items page))
  /\ largest = cr_largestChangeId page /\ next = cr_nextPageToken page.
Proof.
  intros Hc Hs Hnz Hrun. unfold list_changes in Hrun.
  unfold bind at 1 in Hrun. rewrite Hc in Hrun.
  unfold bind at 1 in Hrun. unfold changes_list_execute in Hrun.
  rewrite (reply_returns _ _ _ _ _ _ Hs) in Hrun.
  unfold bind at 1 in Hrun.
  destruct (list_changes_items NormalEntry (cr_items page) None [] _)
    as [[r|e|] w1] eqn:Hitems; try discriminate.
  unfold ret in Hrun. inversion Hrun; subst.
  destruct (list_changes_items_ok _ None [] _ _ _ Hnz
              ltac:(congruence) ltac:(constructor) Hitems) as (_ & Hinc & Hkeys).
  by rewrite Hkeys.
Qed.

Lemma list_changes_violation_aborts (start_change_id : option Z)
    (page_token : option string) (page : changes_response)
    (rest : list (outcome changes_response)) (w w0 : world) :
  get_client w = (Ok tt, w0) ->
  r_changes (w_remote w0) = Returns page :: rest ->
  Forall (fun item => ci_id item <> 0) (cr_items page) ->
  ~ increasing_from None (map ci_id (cr_items page)) ->
  exists e, fst (list_changes NormalEntry start_change_id page_token w) = Raise e.
Proof.
  intros Hc Hs Hnz Hbad. unfold list_changes.
  unfold bind at 1. rewrite Hc.
  unfold bind at 1. unfold changes_list_execute.
  rewrite (reply_returns _ _ _ _ _ _ Hs).
  unfold bind at 1.
  destruct (list_changes_items_violation_aborts (cr_items page)
              (with_reply w0 (EvChangesList page_token start_change_id)
                 {| r_credentials := r_credentials (w_remote w0);
                    r_build := r_build (w_remote w0);
                    r_refresh := r_refresh (w_remote w0);
                    r_about := r_about (w_remote w0);
                    r_changes := rest;
                    r_children := r_children (w_remote w0);
                    r_files_list := r_files_list (w_remote w0);
                    r_files_insert := r_files_insert (w_remote w0);
                    r_files_update := r_files_update (w_remote w0);
                    r_chunks := r_chunks (w_remote w0) |}) Hnz Hbad)
    as [e He].
  rewrite He. eauto.
Qed.

End ListChanges.

(** C2, at the failing input: a page of two changes that both carry the
    id 0. The order test reads [last_change_id and ...], and 0 counts as
    false: the second change passes the test though its id is not above the
    first one's, nothing is raised, and the dict that comes back has lost
    the first change. *)
Theorem list_changes_zero_id_not_checked :
  let page := {| cr_items := [Fixture.deletion 0 "a"; Fixture.deletion 0 "b"];
                 cr_largestChangeId := 0; cr_nextPageToken := None |} in
  let w := Fixture.world_of true ∅ (Fixture.changes_script [Returns page]) in
  fst (list_changes Fixture.NormalEntry None None w)
  = Ok (0, None, [(0, ("b", true, None))]).
Proof. vm_compute. reflexivity. Qed.

(** The same with ids that go down from 0. *)
Lemma list_changes_below_zero_not_checked :
  let page := {| cr_items := [Fixture.deletion 0 "a"; Fixture.deletion (-7) "b"];
                 cr_largestChangeId := 0; cr_nextPageToken := None |} in
  let w := Fixture.world_of true ∅ (Fixture.changes_script [Returns page]) in
  fst (list_changes Fixture.NormalEntry None None w)
  = Ok (0, None, [(0, ("a", true, None)); (-7, ("b", true, None))]).
Proof. vm_compute. reflexivity. Qed.

(** Away from 0 the test works: 5 after 5 raises. *)
Lemma list_changes_repeated_id_raises :
  let page := {| cr_items := [Fixture.deletion 5 "a"; Fixture.deletion 5 "b"];
                 cr_largestChangeId := 5; cr_nextPageToken := None |} in
  let w := Fixture.world_of true ∅ (Fixture.changes_script [Returns page]) in
  fst (list_changes Fixture.NormalEntry None None w)
  = Raise (PlainException
      "Change-ID (5) being processed is less-than the last change-ID (5) to be processed.").
Proof. vm_compute. reflexivity. Qed.

(** ** download_to_local: the export check *)

Lemma has_key_not_in {V} (k : string) (l : list (string * V)) :
  ~ In k (map fst l) -> has_key k l = false.
Proof.
  unfold has_key. induction l as [|[k' v] l IH]; simpl; [reflexivity|].
  intros Hn. destruct (String.eqb_spec k k') as [->|Hne]; [tauto|]. apply IH. tauto.
Qed.

(** C7: asked for a MIME type that is not the entry's own and is no key of
    its download links, [download_to_local] raises [ExportFormatError] and
    leaves the world as it was: nothing was requested, read or written. *)
Theorem download_to_local_export_format_error (output_file_path : string)
    (normalized_entry : normal_entry) (mime_type : string) (allow_cache : bool)
    (w : world) :
  mime_type <> ne_mime_type normalized_entry ->
  ~ In mime_type (map fst (ne_download_links normalized_entry)) ->
  download_to_local output_file_path normalized_entry mime_type allow_cache w
  = (Raise (ExportFormatError (export_message normalized_entry mime_type)), w).
Proof.
  intros Hne Hnk. unfold download_to_local.
  destruct (String.eqb_spec mime_type (ne_mime_type normalized_entry)); [done|].
  rewrite (has_key_not_in _ _ Hnk). reflexivity.
Qed.

Lemma download_to_local_export_format_error_witness :
  download_to_local "/tmp/gdrivefs/1a2b" Fixture.sheet "image/png" true
    (Fixture.world_of true ∅ Fixture.no_replies)
  = (Raise (ExportFormatError
       "Entry with ID [1a2b] can not be exported to type [image/png]. The available types are: application/pdf, text/csv"),
     Fixture.world_of true ∅ Fixture.no_replies).
Proof.
  apply (download_to_local_export_format_error "/tmp/gdrivefs/1a2b"
           Fixture.sheet "image/png" true).
  - discriminate.
  - simpl. intros [H|[H|[]]]; discriminate.
Defined.

(** ** get_children_under_parent_id: both query strings *)

(** Getting the client touches the credentials and the discovery service
    only, and none of the children listings. *)
Lemma get_client_effects (w : world) :
  r_children (w_remote (snd (get_client w))) = r_children (w_remote w)
  /\ exists evs, w_trace (snd (get_client w)) = app (w_trace w) evs
       /\ Forall (fun ev => ev = EvGetCredentials
                    \/ ev = EvBuild (google_discovery_service_url (w_conf w))) evs.
Proof.
  unfold get_client. destruct (w_client w).
  - simpl. split; [reflexivity|]. exists []. by rewrite app_nil_r.
  - unfold get_authed_http, get_credentials, build, reply, catch, bind, log,
      get_remote, set_remote, get_conf, set_client, ret, raise. simpl.
    destruct (r_credentials (w_remote w)) as [|[[]|e] tl]; simpl.
    + split; [reflexivity|]. exists [EvGetCredentials]. split; [reflexivity|].
      repeat constructor.
    + destruct (r_build (w_remote w)) as [|[[]|e] tl']; simpl;
        (split; [reflexivity|]; eexists [_; _]; rewrite <- app_assoc;
         split; [reflexivity|]; constructor; [by left|]; constructor; [by right|constructor]).
    + split; [reflexivity|]. exists [EvGetCredentials]. split; [reflexivity|].
      repeat constructor.
Qed.

(** C6, as the code has it: with both query strings given, the call
    returns no result and sends no children listing. It first gets the
    service client, and raises as soon as it has it: with the client
    already built that is at once, the world untouched; with none built
    yet, the credentials are read and the discovery document is fetched
    first, and nothing else is asked for. When getting the client fails,
    that failure is what the caller sees. *)
Theorem get_children_both_queries_fails
    (escape_filename_for_query : string -> string) (exc_info : option exn)
    (parent_id : string) (query_contains_string query_is_string : option string)
    (max_results : option Z) (w : world) :
  truthy_str query_contains_string = true ->
  truthy_str query_is_string = true ->
  let run := get_children_under_parent_id escape_filename_for_query exc_info
               parent_id query_contains_string query_is_string max_results w in
  (forall ids, fst run <> Ok ids)
  /\ r_children (w_remote (snd run)) = r_children (w_remote w)
  /\ (exists evs, w_trace (snd run) = app (w_trace w) evs
        /\ Forall (fun ev => ev = EvGetCredentials
                     \/ ev = EvBuild (google_discovery_service_url (w_conf w))) evs)
  /\ (w_client w = true -> exists e, run = (Raise e, w))
  /\ (forall w1, get_client w = (Ok tt, w1) -> exists e, run = (Raise e, w1))
  /\ (forall e w1, get_client w = (Raise e, w1) -> run = (Raise e, w1)).
Proof.
  intros Hc Hi run.
  destruct (get_client_effects w) as (Hch & evs & Htr & Hevs).
  assert (Hrun : run = match get_client w with
                       | (Ok _, w1) =>
                           (Raise (match exc_info with
                                   | Some e => e
                                   | None => TypeError "exceptions must be old-style classes or derived from BaseException, not NoneType"
                                   end), w1)
                       | (Raise e, w1) => (Raise e, w1)
                       | (NoReply, w1) => (NoReply, w1)
                       end).
  { subst run. unfold get_children_under_parent_id. rewrite Hc, Hi. simpl.
    unfold bind, bare_raise, raise.
    destruct (get_client w) as [[[]|e|] w1]; reflexivity. }
  rewrite Hrun. clear Hrun run.
  destruct (get_client w) as [[[]|e|] w1] eqn:Hg; simpl in *.
  - split; [done|]. split; [done|]. split; [by eauto|]. split; [|split].
    + intros Hb. rewrite (get_client_built _ Hb) in Hg. inversion Hg; subst. eauto.
    + intros w2 H2. inversion H2; subst. eauto.
    + intros e w2 H2. discriminate.
  - split; [done|]. split; [done|]. split; [by eauto|]. split; [|split].
    + intros Hb. rewrite (get_client_built _ Hb) in Hg. discriminate.
    + intros w2 H2. discriminate.
    + intros e' w2 H2. inversion H2; subst. reflexivity.
  - split; [done|]. split; [done|]. split; [by eauto|]. split; [|split].
    + intros Hb. rewrite (get_client_built _ Hb) in Hg. discriminate.
    + intros w2 H2. discriminate.
    + intros e' w2 H2. discriminate.
Qed.

Lemma get_children_both_queries_fails_witness :
  let run (w : world) :=
    get_children_under_parent_id Fixture.escape_filename_for_query None
      "root" (Some "a") (Some "b") None w in
  (exists e,
      run (Fixture.world_of true ∅ Fixture.no_replies)
      = (Raise e, Fixture.world_of true ∅ Fixture.no_replies))
  /\ (exists e,
        fst (run (Fixture.world_of false ∅
                    (Fixture.build_script [Returns tt] [Returns tt])))
        = Raise e)
  /\ fst (run (Fixture.world_of false ∅
                 (Fixture.build_script [Returns tt]
                    [Raises (HttpError 503 (NotJson "Service Unavailable"))])))
     = Raise (HttpError 503 (NotJson "Service Unavailable")).
Proof.
  intros run. split; [|split].
  - apply (get_children_both_queries_fails Fixture.escape_filename_for_query None
             "root" (Some "a") (Some "b") None
             (Fixture.world_of true ∅ Fixture.no_replies));
      reflexivity.
  - destruct (get_children_both_queries_fails Fixture.escape_filename_for_query
                None "root" (Some "a") (Some "b") None
                (Fixture.world_of false ∅
                   (Fixture.build_script [Returns tt] [Returns tt])))
      as (_ & _ & _ & _ & Hok & _); [reflexivity|reflexivity|].
    destruct (Hok _ eq_refl) as [e He]. exists e. unfold run. by rewrite He.
  - destruct (get_children_both_queries_fails Fixture.escape_filename_for_query
                None "root" (Some "a") (Some "b") None
                (Fixture.world_of false ∅
                   (Fixture.build_script [Returns tt]
                      [Raises (HttpError 503 (NotJson "Service Unavailable"))])))
      as (_ & _ & _ & _ & _ & Hfail); [reflexivity|reflexivity|].
    unfold run. by rewrite (Hfail _ _ eq_refl).
Defined.

(** C6, as stated, fails on a first call: no client is built yet, and
    before the two query strings are looked at the discovery document has
    been fetched over the network. *)
Lemma get_children_both_queries_fetches_discovery_first :
  let w := Fixture.world_of false ∅
             (Fixture.build_script [Returns tt] [Returns tt]) in
  let run := get_children_under_parent_id Fixture.escape_filename_for_query None
               "root" (Some "a") (Some "b") None w in
  ~ (forall ev, In ev (w_trace (snd run)) -> is_network ev = false).
Proof.
  intros w run H.
  specialize (H (EvBuild (google_discovery_service_url Fixture.conf))).
  assert (Hin : In (EvBuild (google_discovery_service_url Fixture.conf))
                  (w_trace (snd run))) by (vm_compute; tauto).
  specialize (H Hin). discriminate.
Qed.

(** When that fetch fails, its error is what the caller sees. *)
Lemma get_children_both_queries_discovery_failure :
  let w := Fixture.world_of false ∅
             (Fixture.build_script [Returns tt]
                [Raises (HttpError 503 (NotJson "Service Unavailable"))]) in
  fst (get_children_under_parent_id Fixture.escape_filename_for_query None
         "root" (Some "a") (Some "b") None w)
  = Raise (HttpError 503 (NotJson "Service Unavailable")).
Proof. vm_compute. reflexivity. Qed.

(** ** Request bodies of update_entry and __insert_entry *)

Lemma update_body_lookup (ne : normal_entry) (kw : update_kwargs) (now : string) :
  update_body_holds ne kw now
    (update_body
       (if truthy_str (uk_mime_type kw) then str_of (uk_mime_type kw)
        else ne_mime_type ne)
       (uk_filename kw) (uk_parents kw)
       (default (Some false) (uk_is_hidden kw)) (uk_description kw)
       (uk_modified_datetime kw) now (uk_accessed_datetime kw)).
Proof.
  unfold update_body_holds, update_body, hidden_label.
  destruct kw as [fn dp mt ps md ad ih ds]. simpl.
  destruct fn, ps, md, ad, ds, ih as [[|]|]; simpl;
    repeat (split; [by simplify_map_eq|]);
    intros key Hk;
    repeat (apply lookup_insert_is_Some in Hk as [<-|[_ Hk]]; [simpl; tauto|]);
    rewrite lookup_empty in Hk; by destruct Hk.
Qed.

Lemma insert_body_lookup (filename mime_type : string)
    (parents : option (list string)) (kw : insert_kwargs) (now : string) :
  insert_body_holds filename mime_type parents kw now
    (insert_body filename mime_type
       (match parents with None => [] | Some ps => ps end)
       (match ik_modified_datetime kw with None => Some now | Some m => Some m end)
       (match ik_accessed_datetime kw with None => Some now | Some a => Some a end)
       (default (Some false) (ik_is_hidden kw)) (ik_description kw)).
Proof.
  unfold insert_body_holds, insert_body.
  destruct kw as [dp md ad ih ds]. simpl.
  destruct parents, md, ad; simpl;
    repeat (split; [by simplify_map_eq|]);
    intros key Hk;
    repeat (apply lookup_insert_is_Some in Hk as [<-|[_ Hk]]; [simpl; tauto|]);
    rewrite lookup_empty in Hk; by destruct Hk.
Qed.

Lemma reply_trace {A} (ev : event) (script : remote -> list (outcome A))
    (rest : remote -> list (outcome A) -> remote) (w : world) :
  w_trace (snd (reply ev script rest w)) = app (w_trace w) [ev].
Proof.
  unfold reply, bind, log, get_remote, set_remote, ret, raise. simpl.
  destruct (script (w_remote w)) as [|[a|e] tl]; reflexivity.
Qed.

(** C9, as the code has it. Once the client is there and the media object,
    if one is asked for, has been made, an update sends one request whose
    body always holds [mimeType] (the entry's own when none is given) and
    [modifiedDate], holds [labels] unless [is_hidden] is passed as [None]
    (left out, it counts as [False]), and holds [title], [parents],
    [description] and [lastViewedByMeDate] exactly when given; an insert
    sends one request whose body always holds all seven fields, the
    description as null and the last-viewed date as the current time when
    not given. In both, [modifiedDate] is the caller's value when given and
    the current time otherwise. *)
Theorem entry_request_bodies
    (NormalEntry : string -> json -> exn + normal_entry)
    (get_flat_normal_fs_time_from_dt : Qc -> string)
    (MediaFileUpload : string -> string -> exn + media_upload)
    (normalized_entry : normal_entry) (ukw : update_kwargs)
    (filename mime_type : string) (parents : option (list string))
    (ikw : insert_kwargs) (w w0 : world) (um im : option media_upload) :
  get_client w = (Ok tt, w0) ->
  media_body_of MediaFileUpload (uk_data_filepath ukw)
    (if truthy_str (uk_mime_type ukw) then str_of (uk_mime_type ukw)
     else ne_mime_type normalized_entry) w0 = (Ok um, w0) ->
  media_body_of MediaFileUpload (ik_data_filepath ikw) mime_type w0 = (Ok im, w0) ->
  (exists args,
      w_trace (snd (update_entry NormalEntry get_flat_normal_fs_time_from_dt
                      MediaFileUpload normalized_entry ukw w))
      = app (w_trace w0) [EvFilesUpdate args]
      /\ ua_media_body args = um
      /\ update_body_holds normalized_entry ukw
           (get_flat_normal_fs_time_from_dt (w_clock w0)) (ua_body args))
  /\ (exists args,
        w_trace (snd (insert_entry NormalEntry get_flat_normal_fs_time_from_dt
                        MediaFileUpload filename mime_type parents ikw w))
        = app (w_trace w0) [EvFilesInsert args]
        /\ ia_media_body args = im
        /\ insert_body_holds filename mime_type parents ikw
             (get_flat_normal_fs_time_from_dt (w_clock w)) (ia_body args)).
Proof.
  intros Hc Hum Him. split.
  - eexists. split; [|split].
    + unfold update_entry, now_phrase, time_time.
      unfold bind at 1. rewrite Hc. unfold bind at 1. unfold bind at 1.
      unfold ret at 1. unfold bind at 1. rewrite Hum.
      unfold bind at 1. unfold files_update_execute.
      match goal with
      | |- context [reply ?ev ?sc ?rs w0] =>
          pose proof (reply_trace ev sc rs w0) as Ht;
          destruct (reply ev sc rs w0) as [[res|e|] w1]
      end; simpl in Ht; simpl; [|exact Ht|exact Ht].
      unfold bind. rewrite <- Ht.
      destruct (NormalEntry "update_entry" res); reflexivity.
    + reflexivity.
    + simpl. apply update_body_lookup.
  - eexists. split; [|split].
    + unfold insert_entry, now_phrase, time_time.
      unfold bind at 1. unfold bind at 1. unfold ret at 1.
      unfold bind at 1. rewrite Hc. unfold bind at 1. rewrite Him.
      unfold bind at 1. unfold catch, files_insert_execute.
      match goal with
      | |- context [reply ?ev ?sc ?rs w0] =>
          pose proof (reply_trace ev sc rs w0) as Ht;
          destruct (reply ev sc rs w0) as [[res|e|] w1]
      end; simpl in Ht; simpl; [|exact Ht|exact Ht].
      unfold bind. rewrite <- Ht.
      destruct (NormalEntry "insert_entry" res); reflexivity.
    + reflexivity.
    + simpl. apply insert_body_lookup.
Qed.

Lemma entry_request_bodies_witness :
  let w := Fixture.world_of true ∅ Fixture.no_replies in
  (exists args,
      w_trace (snd (update_entry Fixture.NormalEntry
                      Fixture.get_flat_normal_fs_time_from_dt
                      Fixture.MediaFileUpload
                      Fixture.sheet no_update_kwargs w))
      = app (w_trace w) [EvFilesUpdate args]
      /\ ua_media_body args = None
      /\ update_body_holds Fixture.sheet no_update_kwargs
           (Fixture.get_flat_normal_fs_time_from_dt (w_clock w)) (ua_body args))
  /\ (exists args,
        w_trace (snd (insert_entry Fixture.NormalEntry
                        Fixture.get_flat_normal_fs_time_from_dt
                        Fixture.MediaFileUpload
                        "notes.txt" "text/plain" None Fixture.upload_kwargs w))
        = app (w_trace w) [EvFilesInsert args]
        /\ ia_media_body args = Some {| mu_filename := "/tmp/notes";
                                        mu_mimetype := "text/plain" |}
        /\ insert_body_holds "notes.txt" "text/plain" None Fixture.upload_kwargs
             (Fixture.get_flat_normal_fs_time_from_dt (w_clock w)) (ia_body args)).
Proof.
  intros w.
  apply (entry_request_bodies Fixture.NormalEntry
           Fixture.get_flat_normal_fs_time_from_dt Fixture.MediaFileUpload
           Fixture.sheet no_update_kwargs
           "notes.txt" "text/plain" None Fixture.upload_kwargs w w);
    reflexivity.
Defined.

(** C9, as stated, fails on an update with no keyword given: the body
    holds [labels] (hidden: false) and [mimeType], which the caller did not
    supply. *)
Lemma update_entry_sends_fields_not_given :
  let w := Fixture.world_of true ∅ Fixture.no_replies in
  let w' := snd (update_entry Fixture.NormalEntry
                   Fixture.get_flat_normal_fs_time_from_dt
                   Fixture.MediaFileUpload
                   Fixture.sheet no_update_kwargs w) in
  exists args,
    w_trace w' = [EvFilesUpdate args]
    /\ ua_body args !! "labels" = Some (hidden_label false)
    /\ ~ (forall key, is_Some (ua_body args !! key) ->
                      update_supplied no_update_kwargs key = true).
Proof.
  intros w w'. eexists. split; [reflexivity|]. split; [reflexivity|].
  intros H. specialize (H "labels"). simpl in H.
  assert (Hs : true = false -> False) by discriminate.
  apply Hs. symmetry. apply H. eexists. reflexivity.
Qed.

(** An insert with no keyword given sends a null description, the hidden
    label and a last-viewed date all the same. *)
Lemma insert_entry_sends_fields_not_given :
  let w := Fixture.world_of true ∅ Fixture.no_replies in
  let w' := snd (insert_entry Fixture.NormalEntry
                   Fixture.get_flat_normal_fs_time_from_dt
                   Fixture.MediaFileUpload
                   "notes.txt" "text/plain" None Fixture.no_insert_kwargs w) in
  exists args,
    w_trace w' = [EvFilesInsert args]
    /\ ia_body args !! "description" = Some JNull
    /\ ia_body args !! "labels" = Some (hidden_label false)
    /\ ia_body args !! "lastViewedByMeDate" = Some (JStr "2013-05-01T12:00:00.000Z")
    /\ ~ (forall key, is_Some (ia_body args !! key) ->
                      insert_supplied Fixture.no_insert_kwargs key = true).
Proof.
  intros w w'. eexists. split; [reflexivity|]. repeat (split; [reflexivity|]).
  intros H. specialize (H "description"). simpl in H.
  assert (Hs : true = false -> False) by discriminate.
  apply Hs. symmetry. apply H. eexists. reflexivity.
Qed.

(** What [truncate] sends: the media body of [/dev/null], and with it the
    hidden label set to false, whatever the entry's label was. *)
Lemma truncate_resets_hidden_label :
  let w := Fixture.world_of true ∅ Fixture.no_replies in
  let w' := snd (truncate Fixture.NormalEntry
                   Fixture.get_flat_normal_fs_time_from_dt
                   Fixture.MediaFileUpload Fixture.sheet w) in
  exists args,
    w_trace w' = [EvFilesUpdate args]
    /\ ua_media_body args
       = Some {| mu_filename := "/dev/null";
                 mu_mimetype := "application/vnd.google-apps.spreadsheet" |}
    /\ ua_body args !! "labels" = Some (hidden_label false).
Proof.
  intros w w'. eexists. split; [reflexivity|]. split; reflexivity.
Qed.

(** ** list_files *)

Section ListFiles.

Variable NormalEntry : string -> json -> exn + normal_entry.
Variable escape_filename_for_query : string -> string.

(** Raw entries that all normalise are appended, in order. *)
Lemma list_files_items_ok (items : list json) :
  forall (es acc : list normal_entry) (w : world),
    Forall2 (fun raw e => NormalEntry "list_files" raw = inr e) items es ->
    list_files_items NormalEntry items acc w = (Ok (app acc es), w).
Proof.
  induction items as [|raw items IH]; intros es acc w H; inversion H; subst; simpl.
  - unfold ret. by rewrite app_nil_r.
  - unfold bind, catch. match goal with Hn : NormalEntry _ _ = _ |- _ => rewrite Hn end.
    simpl. rewrite (IH _ _ _ ltac:(eassumption)). by rewrite <- app_assoc.
Qed.

(** The page loop over a script that starts with the pages [pages], all
    with a continuation token, and then [last], without one. *)
Lemma list_files_pages_run (query : option string) (last : files_response)
    (rest : list (outcome files_response)) (pages : list files_response) :
  forall (fuel : nat) (page_token : option string) (page_num : Z)
         (acc entries : list normal_entry) (w : world),
    r_files_list (w_remote w) = app (map Returns (app pages [last])) rest ->
    Forall (fun page => is_Some (fr_nextPageToken page)) pages ->
    fr_nextPageToken last = None ->
    Forall2 (fun raw e => NormalEntry "list_files" raw = inr e)
            (concat (map fr_items (app pages [last]))) entries ->
    (length pages < fuel)%nat ->
    exists w',
      list_files_pages NormalEntry fuel query page_token page_num acc w
      = (Ok (app acc entries), w')
      /\ w_trace w'
         = app (w_trace w)
             (map (EvFilesList query) (page_token :: map fr_nextPageToken pages))
      /\ r_files_list (w_remote w') = rest.
Proof.
  induction pages as [|page pages IH];
    intros fuel page_token page_num acc entries w Hs Htok Hlast Hnorm Hfuel;
    (destruct fuel as [|fuel]; [simpl in Hfuel; lia|]); simpl in Hs, Hnorm |- *.
  - rewrite app_nil_r in Hnorm.
    unfold bind at 1. unfold files_list_execute.
    rewrite (reply_returns _ _ _ _ _ _ Hs).
    unfold bind at 1. rewrite (list_files_items_ok _ _ _ _ Hnorm).
    rewrite Hlast. unfold ret. eexists. split; [reflexivity|]. by simpl.
  - apply Forall2_app_inv_l in Hnorm as (es1 & es2 & H1 & H2 & ->).
    inversion Htok as [|? ? [token Htoken] Htok']; subst.
    unfold bind at 1. unfold files_list_execute.
    rewrite (reply_returns _ _ _ _ _ _ Hs).
    unfold bind at 1. rewrite (list_files_items_ok _ _ _ _ H1).
    rewrite Htoken.
    assert (Hfuel' : (length pages < fuel)%nat) by (simpl in Hfuel; lia).
    match goal with
    | |- context [list_files_pages _ _ _ _ _ _ ?w1] =>
        destruct (IH fuel (Some token) (page_num + 1)%Z (app acc es1) es2 w1
                    eq_refl Htok' Hlast H2 Hfuel') as (w' & Hrun & Htr & Hrest)
    end.
    exists w'. rewrite Hrun. split; [by rewrite <- app_assoc|].
    split; [|exact Hrest].
    rewrite Htr. simpl. rewrite <- app_assoc. reflexivity.
Qed.

(** Each hidden flag of the configuration is a clause of the query. *)
Lemma list_files_query_hidden (query_contains_string query_is_string
    parent_id : option string) (hidden_flags : list string) (flag : string) :
  In flag hidden_flags ->
  exists components,
    list_files_query escape_filename_for_query query_contains_string
      query_is_string parent_id hidden_flags
    = Some (String.concat " and " components)
    /\ In (flag ++ " = false") components.
Proof.
  intros Hin. unfold list_files_query.
  match goal with
  | |- context [match ?cs with [] => None | _ :: _ => Some (String.concat _ ?cs') end] =>
      assert (Hc : In (flag ++ " = false") cs)
  end.
  { apply in_or_app. right. apply in_map_iff. eauto. }
  match goal with
  | |- context [match ?cs with [] => None | _ :: _ => _ end] =>
      destruct cs as [|c cs'] eqn:E
  end; [destruct Hc|].
  eexists. split; [reflexivity|]. by rewrite <- E in *.
Qed.

(** C5, as the code has it: over a script of pages that all carry a
    continuation token, followed by one that carries none, [list_files]
    returns the entries of all those pages, normalised, in page order; it
    sends one request per page, each with the token of the page before and
    with the same query, of which every configured hidden flag is a clause;
    and it leaves the replies after the first page without token unread.
    The clauses are all there is to the exclusion: [list_files] drops
    nothing itself, so a raw entry of a page that carries a hidden flag is
    in the result like any other. *)
Theorem list_files_all_pages (query_contains_string query_is_string
    parent_id : option string) (pages : list files_response)
    (last : files_response) (rest : list (outcome files_response))
    (entries : list normal_entry) (w w0 : world) :
  get_client w = (Ok tt, w0) ->
  r_files_list (w_remote w0) = app (map Returns (app pages [last])) rest ->
  Forall (fun page => is_Some (fr_nextPageToken page)) pages ->
  fr_nextPageToken last = None ->
  Forall2 (fun raw e => NormalEntry "list_files" raw = inr e)
          (concat (map fr_items (app pages [last]))) entries ->
  let query := list_files_query escape_filename_for_query query_contains_string
                 query_is_string parent_id (hidden_flags_list_remote (w_conf w0)) in
  let run := list_files NormalEntry escape_filename_for_query
               query_contains_string query_is_string parent_id w in
  fst run = Ok entries
  /\ w_trace (snd run)
     = app (w_trace w0)
         (map (EvFilesList query) (None :: map fr_nextPageToken pages))
  /\ r_files_list (w_remote (snd run)) = rest
  /\ (forall flag, In flag (hidden_flags_list_remote (w_conf w0)) ->
       exists components,
         query = Some (String.concat " and " components)
         /\ In (flag ++ " = false") components)
  /\ (forall flag raw,
       In raw (concat (map fr_items (app pages [last]))) ->
       flagged flag raw = true ->
       exists entry, NormalEntry "list_files" raw = inr entry /\ In entry entries).
Proof.
  intros Hc Hs Htok Hlast Hnorm query run.
  destruct (list_files_pages_run query last rest pages
              (S (length (r_files_list (w_remote w0)))) None 0 [] entries w0
              Hs Htok Hlast Hnorm) as (w' & Hrun & Htr & Hrest).
  { rewrite Hs. rewrite length_app, length_map, length_app. simpl. lia. }
  assert (Hr : run = (Ok entries, w')).
  { subst run. unfold list_files. unfold bind at 1. rewrite Hc.
    unfold bind at 1, get_conf at 1. unfold bind at 1, get_remote at 1.
    exact Hrun. }
  rewrite Hr. simpl. repeat split; try done.
  - intros flag Hin. by apply list_files_query_hidden.
  - intros flag raw Hin _. clear - Hnorm Hin.
    induction Hnorm as [|raw' entry raws entries Hn Hrest IH]; [done|].
    destruct Hin as [->|Hin].
    + exists entry. split; [exact Hn|by left].
    + destruct (IH Hin) as (entry' & Hn' & Hin'). exists entry'.
      split; [exact Hn'|by right].
Qed.

End ListFiles.

Lemma list_files_all_pages_witness :
  let w := Fixture.world_of true ∅
             (Fixture.files_script
                (map Returns (app Fixture.three_pages [Fixture.last_page]))) in
  let run := list_files Fixture.NormalEntry Fixture.escape_filename_for_query
               None None None w in
  fst run = Ok (map Fixture.file_entry ["f1"; "f2"; "f3"; "f4"; "f5"])
  /\ w_trace (snd run)
     = [EvFilesList (Some "trashed = false") None;
        EvFilesList (Some "trashed = false") (Some "t1");
        EvFilesList (Some "trashed = false") (Some "t2")].
Proof.
  intros w run.
  destruct (list_files_all_pages Fixture.NormalEntry
              Fixture.escape_filename_for_query None None None
              Fixture.three_pages Fixture.last_page []
              (map Fixture.file_entry ["f1"; "f2"; "f3"; "f4"; "f5"]) w w)
    as (H1 & H2 & _).
  - reflexivity.
  - reflexivity.
  - repeat constructor; eexists; reflexivity.
  - reflexivity.
  - repeat constructor.
  - split; [exact H1|exact H2].
Defined.

(** C5, as stated, fails: with [trashed] configured as a hidden flag, a
    trashed entry that the service returns all the same, here one on each
    of two pages, is in the result. The request asks the service to leave
    such entries out; [list_files] itself excludes nothing. *)
Lemma list_files_returns_flagged_entry :
  let trashed (file_id : string) :=
    JObj [("id", JStr file_id); ("mimeType", JStr "text/plain");
          ("labels", JObj [("trashed", JBool true)])] in
  let w := Fixture.world_of true ∅
             (Fixture.files_script
                [Returns {| fr_items := [Fixture.raw_file "f1"; trashed "f2"];
                            fr_nextPageToken := Some "t1" |};
                 Returns {| fr_items := [trashed "f3"];
                            fr_nextPageToken := None |}]) in
  let run := list_files Fixture.NormalEntry Fixture.escape_filename_for_query
               None None None w in
  In "trashed" (hidden_flags_list_remote (w_conf w))
  /\ flagged "trashed" (trashed "f2") = true
  /\ flagged "trashed" (trashed "f3") = true
  /\ fst run = Ok (map Fixture.file_entry ["f1"; "f2"; "f3"])
  /\ w_trace (snd run)
     = [EvFilesList (Some "trashed = false") None;
        EvFilesList (Some "trashed = false") (Some "t1")].
Proof.
  intros trashed w run. split; [by left|].
  split; [reflexivity|]. split; [reflexivity|].
  split; vm_compute; reflexivity.
Qed.

(** ** download_to_local: cache and download *)

Lemma string_app_nil_r (s : string) : s ++ EmptyString = s.
Proof.
  induction s as [|c s IH]; [reflexivity|].
  change (String c (s ++ EmptyString) = String c s). by rewrite IH.
Qed.

Lemma string_app_assoc (a b c : string) : (a ++ b) ++ c = a ++ (b ++ c).
Proof.
  induction a as [|x a IH]; [reflexivity|].
  change (String x ((a ++ b) ++ c) = String x (a ++ (b ++ c))). by rewrite IH.
Qed.

Lemma received_app (xs ys : list chunk) :
  received (app xs ys) = received xs ++ received ys.
Proof.
  induction xs as [|x xs IH]; simpl; [reflexivity|].
  by rewrite IH, string_app_assoc.
Qed.

(** *** Paths and the directories [makedirs] makes *)

Lemma string_prefix_app (s t : string) : String.prefix s (s ++ t) = true.
Proof.
  induction s as [|c s IH]; [by destruct t|].
  change (String c s ++ t) with (String c (s ++ t)). simpl.
  by destruct (ascii_dec c c).
Qed.

Lemma string_prefix_inv (s1 : string) :
  forall s2, String.prefix s1 s2 = true -> exists t, s2 = s1 ++ t.
Proof.
  induction s1 as [|c s1 IH]; intros s2 H.
  - by exists s2.
  - destruct s2 as [|d s2]; simpl in H; [discriminate|].
    destruct (ascii_dec c d) as [<-|]; [|discriminate].
    destruct (IH s2 H) as [t ->]. by exists t.
Qed.

Lemma string_prefix_trans (s1 s2 s3 : string) :
  String.prefix s1 s2 = true -> String.prefix s2 s3 = true ->
  String.prefix s1 s3 = true.
Proof.
  intros H1 H2. apply string_prefix_inv in H1 as [t1 ->].
  apply string_prefix_inv in H2 as [t2 ->].
  rewrite string_app_assoc. apply string_prefix_app.
Qed.

Lemma split_last_slash_app (p : string) :
  p = fst (split_last_slash p) ++ snd (split_last_slash p).
Proof.
  induction p as [|c p IH]; [reflexivity|]. simpl.
  destruct (split_last_slash p) as [[|d head] tail]; simpl in IH.
  - destruct (is_slash c); simpl; by rewrite IH.
  - simpl. by rewrite IH at 1.
Qed.

Lemma rstrip_slashes_prefix (s : string) :
  String.prefix (rstrip_slashes s) s = true.
Proof.
  induction s as [|c s IH]; [reflexivity|]. simpl.
  destruct (rstrip_slashes s) as [|d r].
  - destruct (is_slash c); [reflexivity|]. simpl.
    destruct (ascii_dec c c); [by destruct s|done].
  - simpl. by destruct (ascii_dec c c).
Qed.

(** The head of a path is an initial part of it. *)
Lemma path_split_prefix (p : string) :
  String.prefix (fst (path_split p)) p = true.
Proof.
  unfold path_split. pose proof (split_last_slash_app p) as Hp.
  destruct (split_last_slash p) as [head tail]. simpl in Hp |- *.
  assert (Hh : String.prefix head p = true)
    by (rewrite Hp; apply string_prefix_app).
  pose proof (rstrip_slashes_prefix head) as Hr.
  destruct (rstrip_slashes head) as [|d r]; [exact Hh|].
  by apply string_prefix_trans with head.
Qed.

(** The directories made on the way to [name] are initial parts of
    [name], and none of them was there. *)
Lemma missing_heads_spec (fs : gmap string node) (fuel : nat) :
  forall name q,
    In q (missing_heads fuel fs name) ->
    String.prefix q name = true /\ fs !! q = None.
Proof.
  induction fuel as [|fuel IH]; intros name q Hq; simpl in Hq; [done|].
  pose proof (path_split_prefix name) as H0.
  destruct (path_split name) as [head0 tail0]. simpl in H0.
  assert (Hhead : forall head tail,
             (if nonempty_str tail0 then (head0, tail0) else path_split head0)
             = (head, tail) -> String.prefix head name = true).
  { intros head tail E. destruct (nonempty_str tail0).
    - by inversion E; subst.
    - pose proof (path_split_prefix head0) as H1. rewrite E in H1.
      by apply string_prefix_trans with head0. }
  destruct (if nonempty_str tail0 then (head0, tail0) else path_split head0)
    as [head tail].
  specialize (Hhead head tail eq_refl).
  destruct (nonempty_str head && nonempty_str tail
            && negb (bool_decide (is_Some (fs !! head)))) eqn:Hc; [|done].
  destruct Hq as [<-|Hq].
  - split; [exact Hhead|].
    apply andb_prop in Hc as [_ Hc]. apply negb_true_iff in Hc.
    apply bool_decide_eq_false in Hc. by apply eq_None_not_Some.
  - destruct (IH head q Hq) as [Hp Hn]. split; [|exact Hn].
    by apply string_prefix_trans with head.
Qed.

Lemma string_length_app (s t : string) :
  String.length (s ++ t) = (String.length s + String.length t)%nat.
Proof.
  induction s as [|c s IH]; [reflexivity|].
  change (String c s ++ t) with (String c (s ++ t)). simpl. by rewrite IH.
Qed.

Lemma string_prefix_length (s1 s2 : string) :
  String.prefix s1 s2 = true -> (String.length s1 <= String.length s2)%nat.
Proof.
  intros H. apply string_prefix_inv in H as [t ->].
  rewrite string_length_app. lia.
Qed.

(** Head and tail of a path are no longer than the path. *)
Lemma path_split_length (p : string) :
  (String.length (fst (path_split p)) + String.length (snd (path_split p))
   <= String.length p)%nat.
Proof.
  unfold path_split. pose proof (split_last_slash_app p) as Hp.
  apply (f_equal String.length) in Hp. rewrite string_length_app in Hp.
  destruct (split_last_slash p) as [head tail]. simpl in Hp |- *.
  pose proof (string_prefix_length _ _ (rstrip_slashes_prefix head)) as Hr.
  destruct (rstrip_slashes head) as [|d r]; simpl in Hr |- *; lia.
Qed.

(** The rounds of [missing_heads] never run out: with as many rounds as
    the name has characters, more rounds make no difference. *)
Lemma missing_heads_enough (fs : gmap string node) (fuel1 : nat) :
  forall fuel2 name,
    (String.length name <= fuel1)%nat -> (String.length name <= fuel2)%nat ->
    missing_heads fuel1 fs name = missing_heads fuel2 fs name.
Proof.
  assert (Hempty : forall fuel, missing_heads fuel fs EmptyString = []).
  { intros [|fuel]; reflexivity. }
  induction fuel1 as [|fuel1 IH]; intros fuel2 name H1 H2.
  - destruct name; [|simpl in H1; lia]. by rewrite !Hempty.
  - destruct fuel2 as [|fuel2].
    { destruct name; [|simpl in H2; lia]. by rewrite !Hempty. }
    simpl.
    pose proof (path_split_length name) as L0.
    destruct (path_split name) as [head0 tail0]. simpl in L0.
    assert (Hlen : forall head tail,
               (if nonempty_str tail0 then (head0, tail0) else path_split head0)
               = (head, tail) ->
               nonempty_str tail = true ->
               (String.length head < String.length name)%nat).
    { intros head tail E Ht. destruct (nonempty_str tail0).
      - inversion E; subst. destruct tail; [discriminate|]. simpl in L0. lia.
      - pose proof (path_split_length head0) as L1. rewrite E in L1.
        simpl in L1. destruct tail; [discriminate|]. simpl in L1. lia. }
    destruct (if nonempty_str tail0 then (head0, tail0) else path_split head0)
      as [head tail].
    specialize (Hlen head tail eq_refl).
    destruct (nonempty_str head && nonempty_str tail
              && negb (bool_decide (is_Some (fs !! head)))) eqn:Hc; [|done].
    apply andb_prop in Hc as [Hc _]. apply andb_prop in Hc as [_ Hc].
    specialize (Hlen Hc). f_equal. apply IH; lia.
Qed.

Lemma mkdirs_lookup_in (names : list string) (fs : gmap string node) (p : string) :
  In p names -> mkdirs names fs !! p = Some Dir.
Proof.
  induction names as [|name names IH]; simpl; [done|].
  intros [->|Hin]; [apply lookup_insert_eq|].
  destruct (decide (name = p)) as [->|Hne]; [apply lookup_insert_eq|].
  rewrite lookup_insert_ne; auto.
Qed.

Lemma mkdirs_lookup_out (names : list string) (fs : gmap string node) (p : string) :
  ~ In p names -> mkdirs names fs !! p = fs !! p.
Proof.
  induction names as [|name names IH]; simpl; [done|].
  intros Hn. rewrite lookup_insert_ne; [|intros ->; apply Hn; by left].
  apply IH. intros Hin. apply Hn. by right.
Qed.

(** What staging does to a path: nothing, or it makes a directory that
    was missing, at an initial part of the staging path. *)
Lemma staged_lookup (w : world) (p : string) :
  isfile (w_fs w) (file_download_temp_path (w_conf w)) = false ->
  w_fs (staged w) !! p = w_fs w !! p
  \/ (w_fs w !! p = None /\ w_fs (staged w) !! p = Some Dir
      /\ String.prefix p (file_download_temp_path (w_conf w)) = true).
Proof.
  unfold staged, isfile, isdir. intros Ht.
  destruct (w_fs w !! file_download_temp_path (w_conf w)) as [[|c m]|] eqn:E;
    try discriminate; cbn [w_fs]; [by left|].
  match goal with
  | |- context [mkdirs ?names _] =>
      destruct (decide (p ∈ names)) as [Hin|Hout];
      rewrite list_elem_of_In in *
  end.
  - right. rewrite (mkdirs_lookup_in _ _ _ Hin). destruct Hin as [<-|Hin].
    + split; [exact E|]. split; [reflexivity|].
      rewrite <- (string_app_nil_r (file_download_temp_path (w_conf w))) at 2.
      apply string_prefix_app.
    + apply missing_heads_spec in Hin as [Hp Hn]. auto.
  - left. by apply mkdirs_lookup_out.
Qed.

(** A regular file of the world is one of the staged world, and back,
    unless the staging path itself names a regular file. *)
Lemma staged_lookup_file (w : world) (path content : string) (mtime : Qc) :
  isfile (w_fs w) (file_download_temp_path (w_conf w)) = false ->
  w_fs (staged w) !! path = Some (File content mtime)
  <-> w_fs w !! path = Some (File content mtime).
Proof.
  intros Ht. destruct (staged_lookup w path Ht) as [->|(Hn & Hd & _)];
    [reflexivity|].
  rewrite Hn, Hd. split; discriminate.
Qed.

(** What [download_to_local] comes to, once the export check passes and
    the staging directory is there or can be made. *)
Lemma download_to_local_decision (output_file_path : string)
    (normalized_entry : normal_entry) (mime_type : string)
    (allow_cache : bool) (w : world) :
  negb (String.eqb mime_type (ne_mime_type normalized_entry))
  && negb (has_key mime_type (ne_download_links normalized_entry)) = false ->
  isfile (w_fs w) (file_download_temp_path (w_conf w)) = false ->
  download_to_local output_file_path normalized_entry mime_type allow_cache w
  = match (if allow_cache then w_fs (staged w) !! output_file_path else None) with
    | Some (File content mtime) =>
        if Qeq_bool (this (gd_mtime_epoch normalized_entry)) (this mtime)
        then (Ok (Z.of_nat (String.length content), false), staged w)
        else download_fresh output_file_path normalized_entry mime_type
               (gd_mtime_epoch normalized_entry) (staged w)
    | _ => download_fresh output_file_path normalized_entry mime_type
             (gd_mtime_epoch normalized_entry) (staged w)
    end.
Proof.
  intros He Ht. unfold download_to_local. rewrite He.
  unfold bind at 1. unfold ret at 1. unfold bind at 1, get_conf at 1.
  unfold bind at 1, get_fs at 1. unfold bind at 1.
  assert (Hstage :
    (if isdir (w_fs w) (file_download_temp_path (w_conf w)) then ret tt
     else catch (makedirs (file_download_temp_path (w_conf w)))
                (fun e => raise e)) w = (Ok tt, staged w)).
  { unfold staged. unfold isfile in Ht. unfold isdir.
    destruct (w_fs w !! file_download_temp_path (w_conf w)) as [[|c m]|] eqn:E;
      try discriminate; [reflexivity|].
    unfold catch, makedirs, bind, log, get_fs, set_fs. simpl. rewrite E.
    reflexivity. }
  rewrite Hstage. unfold bind at 1, get_fs at 1. unfold bind at 1.
  destruct allow_cache; simpl; [|reflexivity].
  unfold isfile.
  destruct (w_fs (staged w) !! output_file_path) as [[|content mtime]|] eqn:E;
    try reflexivity.
  unfold bind at 1. unfold catch, stat, bind at 1, get_fs at 1. rewrite E.
  unfold ret at 1. unfold ret at 1. simpl.
  destruct (Qeq_bool _ _); reflexivity.
Qed.

(** One chunk that arrives is appended to the file. *)
Lemma next_chunk_returns (url path content : string) (mtime : Qc) (c : chunk)
    (tl : list (outcome chunk)) (w : world) :
  r_chunks (w_remote w) = Returns c :: tl ->
  w_fs w !! path = Some (File content mtime) ->
  exists w',
    next_chunk url path w = (Ok c, w')
    /\ w_fs w' = <[path := File (content ++ ch_data c) (w_clock w)]> (w_fs w)
    /\ w_trace w' = app (w_trace w) [EvNextChunk url]
    /\ r_chunks (w_remote w') = tl
    /\ w_clock w' = w_clock w.
Proof.
  intros Hs Hf. unfold next_chunk. unfold bind at 1.
  rewrite (reply_returns _ _ _ _ _ _ Hs).
  unfold bind at 1. unfold write_append, bind, get_fs, time_time, set_fs, ret.
  simpl. rewrite Hf. eexists. split; [reflexivity|]. simpl. auto.
Qed.

(** One chunk that fails leaves the file as it is. *)
Lemma next_chunk_raises (url path : string) (e : exn)
    (tl : list (outcome chunk)) (w : world) :
  r_chunks (w_remote w) = Raises e :: tl ->
  exists w',
    next_chunk url path w = (Raise e, w')
    /\ w_fs w' = w_fs w
    /\ w_trace w' = app (w_trace w) [EvNextChunk url]
    /\ r_chunks (w_remote w') = tl.
Proof.
  intros Hs. unfold next_chunk. unfold bind at 1.
  rewrite (reply_raises _ _ _ _ _ _ Hs). eexists. split; [reflexivity|].
  simpl. auto.
Qed.

(** The loop over a script of chunks [pre] that are not the last one,
    followed by the chunk [last] that is. *)
Lemma download_chunks_completes (url path : string) (last : chunk)
    (rest : list (outcome chunk)) (pre : list chunk) :
  forall (fuel : nat) (content : string) (mtime : Qc) (w : world),
    r_chunks (w_remote w) = app (map Returns (app pre [last])) rest ->
    Forall (fun c => ch_done c = false) pre ->
    ch_done last = true ->
    w_fs w !! path = Some (File content mtime) ->
    (length pre < fuel)%nat ->
    exists w',
      download_chunks fuel url path w = (Ok (ch_total_size last), w')
      /\ w_fs w'
         = <[path := File (content ++ received (app pre [last])) (w_clock w)]> (w_fs w)
      /\ w_trace w' = app (w_trace w) (repeat (EvNextChunk url) (S (length pre)))
      /\ r_chunks (w_remote w') = rest
      /\ w_clock w' = w_clock w.
Proof.
  induction pre as [|c pre IH]; intros fuel content mtime w Hs Hpre Hlast Hf Hfuel;
    (destruct fuel as [|fuel]; [simpl in Hfuel; lia|]); simpl in Hs |- *.
  - destruct (next_chunk_returns url path content mtime last rest w Hs Hf)
      as (w1 & Hn & Hfs & Htr & Hch & Hck).
    unfold bind. rewrite Hn, Hlast. unfold ret. exists w1.
    rewrite string_app_nil_r. auto.
  - inversion Hpre as [|? ? Hc Hpre']; subst.
    destruct (next_chunk_returns url path content mtime c _ w Hs Hf)
      as (w1 & Hn & Hfs & Htr & Hch & Hck).
    unfold bind at 1. rewrite Hn, Hc.
    assert (Hf1 : w_fs w1 !! path = Some (File (content ++ ch_data c) (w_clock w)))
      by (rewrite Hfs; apply lookup_insert_eq).
    assert (Hfuel' : (length pre < fuel)%nat) by (simpl in Hfuel; lia).
    destruct (IH fuel _ _ w1 Hch Hpre' Hlast Hf1 Hfuel')
      as (w' & Hrun & Hfs' & Htr' & Hch' & Hck').
    exists w'. split; [exact Hrun|]. split.
    + rewrite Hfs', Hfs, Hck, insert_insert_eq. by rewrite string_app_assoc.
    + split; [|split; [exact Hch'|congruence]].
      rewrite Htr', Htr, <- app_assoc. reflexivity.
Qed.

(** The loop over a script of chunks [pre] that arrive, none of them the
    last one, followed by a request that fails with [e]. *)
Lemma download_chunks_fails (url path : string) (e : exn)
    (rest : list (outcome chunk)) (pre : list chunk) :
  forall (fuel : nat) (content : string) (w : world),
    r_chunks (w_remote w) = app (map Returns pre) (Raises e :: rest) ->
    Forall (fun c => ch_done c = false) pre ->
    w_fs w !! path = Some (File content (w_clock w)) ->
    (length pre < fuel)%nat ->
    exists w',
      download_chunks fuel url path w = (Raise e, w')
      /\ w_fs w' = <[path := File (content ++ received pre) (w_clock w)]> (w_fs w)
      /\ w_trace w' = app (w_trace w) (repeat (EvNextChunk url) (S (length pre)))
      /\ r_chunks (w_remote w') = rest.
Proof.
  induction pre as [|c pre IH]; intros fuel content w Hs Hpre Hf Hfuel;
    (destruct fuel as [|fuel]; [simpl in Hfuel; lia|]); simpl in Hs |- *.
  - destruct (next_chunk_raises url path e rest w Hs) as (w1 & Hn & Hfs & Htr & Hch).
    unfold bind. rewrite Hn. exists w1. split; [reflexivity|].
    rewrite string_app_nil_r, Hfs. split; [|by auto].
    symmetry. by apply insert_id.
  - inversion Hpre as [|? ? Hc Hpre']; subst.
    destruct (next_chunk_returns url path content _ c _ w Hs Hf)
      as (w1 & Hn & Hfs & Htr & Hch & Hck).
    unfold bind at 1. rewrite Hn, Hc.
    assert (Hf1 : w_fs w1 !! path = Some (File (content ++ ch_data c) (w_clock w1)))
      by (rewrite Hfs, Hck; apply lookup_insert_eq).
    assert (Hfuel' : (length pre < fuel)%nat) by (simpl in Hfuel; lia).
    destruct (IH fuel _ w1 Hch Hpre' Hf1 Hfuel') as (w' & Hrun & Hfs' & Htr' & Hch').
    exists w'. split; [exact Hrun|]. split.
    + rewrite Hfs', Hfs, Hck, insert_insert_eq. by rewrite string_app_assoc.
    + split; [|exact Hch'].
      rewrite Htr', Htr, <- app_assoc. reflexivity.
Qed.

(** Whatever the script, a loop that ends normally has written to the
    file: it is a regular file then. *)
Lemma download_chunks_ok_file (url path : string) :
  forall (fuel : nat) (total : Z) (w w' : world),
    download_chunks fuel url path w = (Ok total, w') ->
    exists content mtime, w_fs w' !! path = Some (File content mtime).
Proof.
  induction fuel as [|fuel IH]; intros total w w' Hrun; simpl in Hrun;
    [discriminate|].
  unfold bind at 1 in Hrun.
  destruct (next_chunk url path w) as [[c|e|] w1] eqn:Hn; try discriminate.
  destruct (ch_done c).
  - unfold ret in Hrun. inversion Hrun; subst.
    unfold next_chunk in Hn. unfold bind at 1 in Hn.
    match type of Hn with
    | context [reply ?ev ?sc ?rs w] => destruct (reply ev sc rs w) as [[c'|e'|] w2]
    end; try discriminate.
    unfold bind at 1 in Hn. unfold write_append, bind, get_fs, time_time in Hn.
    destruct (w_fs w2 !! path) as [[|content mtime]|]; simpl in Hn;
      unfold raise, set_fs, ret in Hn; try discriminate.
    inversion Hn; subst. simpl. rewrite lookup_insert_eq. eauto.
  - eapply IH. exact Hrun.
Qed.

Lemma has_key_in {V} (k : string) (l : list (string * V)) :
  In k (map fst l) -> has_key k l = true.
Proof.
  unfold has_key. induction l as [|[k' v] l IH]; simpl; [tauto|].
  intros [->|Hin].
  - by rewrite String.eqb_refl.
  - destruct (String.eqb k k'); [reflexivity|]. by apply IH.
Qed.

Lemma export_check_passes (normalized_entry : normal_entry) (mime_type : string) :
  mime_type = ne_mime_type normalized_entry
  \/ In mime_type (map fst (ne_download_links normalized_entry)) ->
  negb (String.eqb mime_type (ne_mime_type normalized_entry))
  && negb (has_key mime_type (ne_download_links normalized_entry)) = false.
Proof.
  intros [->|Hin].
  - by rewrite String.eqb_refl.
  - rewrite (has_key_in _ _ Hin). simpl. apply andb_false_r.
Qed.

(** Staging asks nothing of the service and logs no network event. *)
Lemma staged_quiet (w : world) :
  w_remote (staged w) = w_remote w
  /\ w_clock (staged w) = w_clock w
  /\ exists evs, w_trace (staged w) = app (w_trace w) evs
       /\ Forall (fun ev => is_network ev = false) evs.
Proof.
  unfold staged. destruct (isdir _ _); simpl.
  - repeat split. exists []. by rewrite app_nil_r.
  - repeat split. eexists. split; [reflexivity|]. by repeat constructor.
Qed.

(** The start of a fresh download, up to the opened file. *)
Lemma download_fresh_opens (path : string) (normalized_entry : normal_entry)
    (mime_type url : string) (gd_mtime : Qc) (tl : list (outcome unit)) (w : world) :
  r_credentials (w_remote w) = Returns tt :: tl ->
  assoc_get mime_type (ne_download_links normalized_entry) = Some url ->
  w_fs w !! path <> Some Dir ->
  exists wo,
    download_fresh path normalized_entry mime_type gd_mtime w
    = (total_size <- download_chunks (S (length (r_chunks (w_remote w)))) url path ;;
       now <- time_time ;;
       utime path now gd_mtime ;;;
       ret (total_size, true)) wo
    /\ w_fs wo = <[path := File EmptyString (w_clock w)]> (w_fs w)
    /\ w_trace wo = app (w_trace w) [EvGetCredentials; EvOpenWb path]
    /\ r_chunks (w_remote wo) = r_chunks (w_remote w)
    /\ w_clock wo = w_clock w.
Proof.
  intros Hc Hu Hd. unfold download_fresh, get_authed_http, get_credentials.
  unfold bind at 1. unfold bind at 1.
  rewrite (reply_returns _ _ _ _ _ _ Hc). unfold ret at 1.
  rewrite Hu. unfold bind at 1. unfold ret at 1. unfold bind at 1.
  unfold open_wb, bind at 1, log at 1. unfold bind at 1, get_fs at 1.
  unfold bind at 1, time_time at 1. simpl.
  assert (Ho : forall (w1 : world),
             (match w_fs w !! path with
              | Some Dir => raise (IOError path)
              | _ => set_fs (<[path := File EmptyString (w_clock w)]> (w_fs w))
              end) w1
             = set_fs (<[path := File EmptyString (w_clock w)]> (w_fs w)) w1).
  { intros w1. destruct (w_fs w !! path) as [[|c m]|]; try reflexivity. done. }
  rewrite Ho. unfold set_fs at 1. unfold bind at 1, get_remote at 1. simpl.
  eexists. split; [reflexivity|]. simpl. rewrite <- app_assoc. auto.
Qed.

Lemma download_fresh_completes (path : string) (normalized_entry : normal_entry)
    (mime_type url : string) (gd_mtime : Qc) (tl : list (outcome unit))
    (pre : list chunk) (last : chunk) (rest : list (outcome chunk)) (w : world) :
  r_credentials (w_remote w) = Returns tt :: tl ->
  assoc_get mime_type (ne_download_links normalized_entry) = Some url ->
  w_fs w !! path <> Some Dir ->
  r_chunks (w_remote w) = app (map Returns (app pre [last])) rest ->
  Forall (fun c => ch_done c = false) pre ->
  ch_done last = true ->
  exists w',
    download_fresh path normalized_entry mime_type gd_mtime w
    = (Ok (ch_total_size last, true), w')
    /\ w_fs w' !! path = Some (File (received (app pre [last])) gd_mtime)
    /\ w_trace w'
       = app (w_trace w)
           (app [EvGetCredentials; EvOpenWb path]
              (app (repeat (EvNextChunk url) (S (length pre)))
                 [EvUtime path (w_clock w) gd_mtime])).
Proof.
  intros Hc Hu Hd Hs Hpre Hlast.
  destruct (download_fresh_opens path normalized_entry mime_type url gd_mtime
              tl w Hc Hu Hd) as (wo & -> & Hfs & Htr & Hch & Hck).
  assert (Hf : w_fs wo !! path = Some (File EmptyString (w_clock w)))
    by (rewrite Hfs; apply lookup_insert_eq).
  rewrite <- Hch in Hs.
  destruct (download_chunks_completes url path last rest pre
              (S (length (r_chunks (w_remote w)))) EmptyString (w_clock w) wo Hs Hpre Hlast Hf)
    as (w1 & Hrun & Hfs1 & Htr1 & _ & Hck1).
  { rewrite <- Hch, Hs, length_app, length_map, length_app. simpl. lia. }
  unfold bind at 1. rewrite Hrun.
  unfold time_time, utime, log, get_fs, set_fs, ret, bind. simpl.
  assert (Hf1 : w_fs w1 !! path = Some (File (received (app pre [last])) (w_clock w)))
    by (rewrite Hfs1, Hck; apply lookup_insert_eq).
  rewrite Hf1. eexists. split; [reflexivity|]. simpl.
  split; [apply lookup_insert_eq|].
  rewrite Htr1, Htr, Hck1, Hck. simpl. rewrite <- !app_assoc. reflexivity.
Qed.

Lemma download_fresh_fails (path : string) (normalized_entry : normal_entry)
    (mime_type url : string) (gd_mtime : Qc) (tl : list (outcome unit))
    (pre : list chunk) (e : exn) (rest : list (outcome chunk)) (w : world) :
  r_credentials (w_remote w) = Returns tt :: tl ->
  assoc_get mime_type (ne_download_links normalized_entry) = Some url ->
  w_fs w !! path <> Some Dir ->
  r_chunks (w_remote w) = app (map Returns pre) (Raises e :: rest) ->
  Forall (fun c => ch_done c = false) pre ->
  exists w',
    download_fresh path normalized_entry mime_type gd_mtime w = (Raise e, w')
    /\ w_fs w' !! path = Some (File (received pre) (w_clock w))
    /\ w_trace w'
       = app (w_trace w)
           (app [EvGetCredentials; EvOpenWb path]
              (repeat (EvNextChunk url) (S (length pre)))).
Proof.
  intros Hc Hu Hd Hs Hpre.
  destruct (download_fresh_opens path normalized_entry mime_type url gd_mtime
              tl w Hc Hu Hd) as (wo & -> & Hfs & Htr & Hch & Hck).
  assert (Hf : w_fs wo !! path = Some (File EmptyString (w_clock wo)))
    by (rewrite Hfs, Hck; apply lookup_insert_eq).
  rewrite <- Hch in Hs.
  destruct (download_chunks_fails url path e rest pre
              (S (length (r_chunks (w_remote w)))) EmptyString wo Hs Hpre Hf)
    as (w1 & Hrun & Hfs1 & Htr1 & _).
  { rewrite <- Hch, Hs, length_app, length_map. simpl. lia. }
  unfold bind at 1. rewrite Hrun. exists w1. split; [reflexivity|].
  split.
  - rewrite Hfs1, Hck. apply lookup_insert_eq.
  - rewrite Htr1, Htr, <- app_assoc. reflexivity.
Qed.

(** A fresh download that returns reports a change and has set the
    file's modification time to the remote one. *)
Lemma download_fresh_ok (path : string) (normalized_entry : normal_entry)
    (mime_type : string) (gd_mtime : Qc) (total : Z) (changed : bool)
    (w w' : world) :
  download_fresh path normalized_entry mime_type gd_mtime w
  = (Ok (total, changed), w') ->
  changed = true
  /\ exists content, w_fs w' !! path = Some (File content gd_mtime).
Proof.
  intros H. unfold download_fresh in H. unfold bind at 1 in H.
  destruct (get_authed_http w) as [[[]|e|] w1]; try discriminate.
  unfold bind at 1 in H.
  destruct (assoc_get mime_type (ne_download_links normalized_entry)) as [url|];
    [|discriminate].
  unfold ret at 1 in H. unfold bind at 1 in H.
  destruct (open_wb path w1) as [[[]|e|] w2]; try discriminate.
  unfold bind at 1, get_remote at 1 in H. unfold bind at 1 in H.
  destruct (download_chunks _ url path w2) as [[t|e|] w3] eqn:Hd; try discriminate.
  apply download_chunks_ok_file in Hd as (content & mtime & Hf).
  unfold time_time, utime, log, get_fs, set_fs, ret, bind in H. simpl in H.
  rewrite Hf in H. inversion H; subst. simpl. split; [reflexivity|].
  rewrite lookup_insert_eq. eauto.
Qed.

(** With the cache allowed, a call that is no cache hit comes to a fresh
    download. *)
Lemma download_to_local_miss (path : string) (normalized_entry : normal_entry)
    (mime_type : string) (w : world) :
  mime_type = ne_mime_type normalized_entry
  \/ In mime_type (map fst (ne_download_links normalized_entry)) ->
  isfile (w_fs w) (file_download_temp_path (w_conf w)) = false ->
  (forall content,
      w_fs w !! path <> Some (File content (gd_mtime_epoch normalized_entry))) ->
  download_to_local path normalized_entry mime_type true w
  = download_fresh path normalized_entry mime_type
      (gd_mtime_epoch normalized_entry) (staged w).
Proof.
  intros He Ht Hmiss.
  rewrite (download_to_local_decision _ _ _ _ _ (export_check_passes _ _ He) Ht).
  destruct (w_fs (staged w) !! path) as [[|content mtime]|] eqn:E; try reflexivity.
  destruct (Qeq_bool _ _) eqn:Hq; [|reflexivity].
  apply Qeq_bool_iff, Qc_is_canon in Hq. subst mtime.
  apply (staged_lookup_file w path content _ Ht) in E. by apply Hmiss in E.
Qed.

(** C4: with the cache allowed, past the export check and with the
    staging directory there or makeable. The remote time is the entry's
    modified date in whole seconds, [time.mktime] of its time tuple, the
    microseconds dropped. If the target is a regular file whose
    modification time equals the remote time, the call returns its size
    and the flag [False], having asked nothing of the service. If not, the
    call is a fresh download: it never gives the cache answer; when it
    returns, the flag is [True] and the file's modification time is the
    remote time; and it does return when the credentials are there, the
    type has a link, the target is no directory and the chunks arrive up
    to a last one. *)
Theorem download_to_local_cache_rule (path : string)
    (normalized_entry : normal_entry) (mime_type : string) (w : world) :
  mime_type = ne_mime_type normalized_entry
  \/ In mime_type (map fst (ne_download_links normalized_entry)) ->
  isfile (w_fs w) (file_download_temp_path (w_conf w)) = false ->
  let gd_mtime :=
    Q2Qc (inject_Z (dt_mktime (ne_modified_date normalized_entry))) in
  let run := download_to_local path normalized_entry mime_type true w in
  (forall content,
      w_fs w !! path = Some (File content gd_mtime) ->
      run = (Ok (Z.of_nat (String.length content), false), staged w)
      /\ w_remote (snd run) = w_remote w
      /\ exists evs, w_trace (snd run) = app (w_trace w) evs
           /\ Forall (fun ev => is_network ev = false) evs)
  /\ ((forall content, w_fs w !! path <> Some (File content gd_mtime)) ->
      (forall size, fst run <> Ok (size, false))
      /\ (forall total changed,
            fst run = Ok (total, changed) ->
            changed = true
            /\ exists content, w_fs (snd run) !! path = Some (File content gd_mtime))
      /\ (forall tl url pre last rest,
            r_credentials (w_remote w) = Returns tt :: tl ->
            assoc_get mime_type (ne_download_links normalized_entry) = Some url ->
            w_fs (staged w) !! path <> Some Dir ->
            r_chunks (w_remote w) = app (map Returns (app pre [last])) rest ->
            Forall (fun c => ch_done c = false) pre ->
            ch_done last = true ->
            fst run = Ok (ch_total_size last, true)
            /\ w_fs (snd run) !! path
               = Some (File (received (app pre [last])) gd_mtime)
            /\ w_trace (snd run)
               = app (w_trace (staged w))
                   (app [EvGetCredentials; EvOpenWb path]
                      (app (repeat (EvNextChunk url) (S (length pre)))
                         [EvUtime path (w_clock w) gd_mtime])))).
Proof.
  intros He Ht gd_mtime run.
  change (Q2Qc (inject_Z (dt_mktime (ne_modified_date normalized_entry))))
    with (gd_mtime_epoch normalized_entry) in gd_mtime.
  split.
  - intros content Hf. subst run.
    rewrite (download_to_local_decision _ _ _ _ _ (export_check_passes _ _ He) Ht).
    apply (staged_lookup_file w path content gd_mtime Ht) in Hf. rewrite Hf.
    subst gd_mtime. rewrite Qeq_bool_refl. simpl.
    destruct (staged_quiet w) as (Hr & _ & Hev). auto.
  - intros Hmiss. subst run gd_mtime.
    rewrite (download_to_local_miss _ _ _ _ He Ht Hmiss).
    destruct (staged_quiet w) as (Hr & Hck & _).
    split; [|split].
    + intros size Hrun.
      destruct (download_fresh _ _ _ _ _) as [r w'] eqn:Hd. simpl in Hrun. subst r.
      apply download_fresh_ok in Hd as [Hd _]. discriminate.
    + intros total changed Hrun.
      destruct (download_fresh _ _ _ _ _) as [r w'] eqn:Hd. simpl in Hrun. subst r.
      simpl. by apply download_fresh_ok in Hd.
    + intros tl url pre last rest Hc Hu Hd Hs Hpre Hlast.
      rewrite <- Hr in Hc, Hs.
      destruct (download_fresh_completes path normalized_entry mime_type url
                  (gd_mtime_epoch normalized_entry) tl pre last rest (staged w)
                  Hc Hu Hd Hs Hpre Hlast)
        as (w' & -> & Hf & Htr).
      simpl. rewrite Hck in Htr. auto.
Qed.

Lemma download_to_local_cache_rule_witness :
  (let w := Fixture.world_of true (Fixture.staging_with_copy "%PDF-1.3" 5000)
              Fixture.no_replies in
   download_to_local "/tmp/gdrivefs/1a2b" Fixture.sheet "application/pdf" true w
   = (Ok (8, false), w))
  /\ (let w := Fixture.world_of true (Fixture.staging_with_copy "%PDF-1.3" 4999)
                 (Fixture.chunks_script [Returns tt]
                    [Returns Fixture.first_half; Returns Fixture.second_half]) in
      let run := download_to_local "/tmp/gdrivefs/1a2b" Fixture.sheet
                   "application/pdf" true w in
      fst run = Ok (8, true)
      /\ w_fs (snd run) !! "/tmp/gdrivefs/1a2b"
         = Some (File "%PDF-1.4" (Q2Qc (inject_Z 5000)))).
Proof.
  split.
  - intros w.
    destruct (download_to_local_cache_rule "/tmp/gdrivefs/1a2b" Fixture.sheet
                "application/pdf" w) as [Hhit _].
    + right. simpl. tauto.
    + reflexivity.
    + destruct (Hhit "%PDF-1.3") as [Hrun _]; [reflexivity|]. exact Hrun.
  - intros w run.
    destruct (download_to_local_cache_rule "/tmp/gdrivefs/1a2b" Fixture.sheet
                "application/pdf" w) as [_ Hmiss].
    + right. simpl. tauto.
    + reflexivity.
    + destruct Hmiss as (_ & _ & Hgo).
      * intros content Hf. vm_compute in Hf. discriminate.
      * destruct (Hgo [] "https://docs.example/export?format=pdf"
                    [Fixture.first_half] Fixture.second_half [])
          as (H1 & H2 & _); try reflexivity.
        -- vm_compute. discriminate.
        -- repeat constructor.
        -- split; [exact H1|exact H2].
Defined.

(** C10: a call that does not use the cache (the cache is not allowed, or
    there is no current copy), and that gets as far as the transfer: it
    reads the credentials, opens the target for writing, which empties it,
    and only then asks for chunks. When a chunk request fails with [e]
    after the chunks [pre] have arrived, [e] leaves the call, the target
    holds the bytes of [pre] and nothing of what it held before, and its
    modification time is that of the writing, not the one it had. *)
Theorem download_to_local_failure_loses_copy (path : string)
    (normalized_entry : normal_entry) (mime_type : string) (allow_cache : bool)
    (w : world) (tl : list (outcome unit)) (url : string) (pre : list chunk)
    (e : exn) (rest : list (outcome chunk)) :
  mime_type = ne_mime_type normalized_entry
  \/ In mime_type (map fst (ne_download_links normalized_entry)) ->
  isfile (w_fs w) (file_download_temp_path (w_conf w)) = false ->
  allow_cache = false
  \/ (forall content,
        w_fs w !! path <> Some (File content (gd_mtime_epoch normalized_entry))) ->
  r_credentials (w_remote w) = Returns tt :: tl ->
  assoc_get mime_type (ne_download_links normalized_entry) = Some url ->
  w_fs (staged w) !! path <> Some Dir ->
  r_chunks (w_remote w) = app (map Returns pre) (Raises e :: rest) ->
  Forall (fun c => ch_done c = false) pre ->
  let run := download_to_local path normalized_entry mime_type allow_cache w in
  fst run = Raise e
  /\ w_fs (snd run) !! path = Some (File (received pre) (w_clock w))
  /\ w_trace (snd run)
     = app (w_trace (staged w))
         (app [EvGetCredentials; EvOpenWb path]
            (repeat (EvNextChunk url) (S (length pre)))).
Proof.
  intros He Ht Hnc Hc Hu Hd Hs Hpre run.
  assert (Hrun : run = download_fresh path normalized_entry mime_type
                         (gd_mtime_epoch normalized_entry) (staged w)).
  { subst run. destruct Hnc as [->|Hmiss].
    - by rewrite (download_to_local_decision _ _ _ _ _ (export_check_passes _ _ He) Ht).
    - destruct allow_cache.
      + by apply download_to_local_miss.
      + by rewrite (download_to_local_decision _ _ _ _ _ (export_check_passes _ _ He) Ht). }
  rewrite Hrun. destruct (staged_quiet w) as (Hr & Hck & _).
  rewrite <- Hr in Hc, Hs.
  destruct (download_fresh_fails path normalized_entry mime_type url
              (gd_mtime_epoch normalized_entry) tl pre e rest (staged w)
              Hc Hu Hd Hs Hpre) as (w' & -> & Hf & Htr).
  simpl. rewrite Hck in Hf. auto.
Qed.

Lemma download_to_local_failure_loses_copy_witness :
  let w := Fixture.world_of true (Fixture.staging_with_copy "%PDF-1.3" 5000)
             (Fixture.chunks_script [Returns tt]
                [Returns Fixture.first_half; Raises (SSLError "read timed out")]) in
  let run := download_to_local "/tmp/gdrivefs/1a2b" Fixture.sheet
               "application/pdf" false w in
  fst run = Raise (SSLError "read timed out")
  /\ w_fs (snd run) !! "/tmp/gdrivefs/1a2b"
     = Some (File "%PDF-" (Q2Qc (inject_Z 1000)))
  /\ w_trace (snd run)
     = [EvGetCredentials; EvOpenWb "/tmp/gdrivefs/1a2b";
        EvNextChunk "https://docs.example/export?format=pdf";
        EvNextChunk "https://docs.example/export?format=pdf"].
Proof.
  intros w run.
  apply (download_to_local_failure_loses_copy "/tmp/gdrivefs/1a2b" Fixture.sheet
           "application/pdf" false w [] "https://docs.example/export?format=pdf"
           [Fixture.first_half] (SSLError "read timed out") []).
  - right. simpl. tauto.
  - reflexivity.
  - by left.
  - reflexivity.
  - reflexivity.
  - vm_compute. discriminate.
  - reflexivity.
  - repeat constructor.
Defined.

(** In any run the chunk requests come in a row. *)
Lemma next_chunk_trace (url path : string) (w : world) :
  w_trace (snd (next_chunk url path w)) = app (w_trace w) [EvNextChunk url].
Proof.
  unfold next_chunk. unfold bind at 1.
  match goal with
  | |- context [reply ?ev ?sc ?rs w] =>
      pose proof (reply_trace ev sc rs w) as Ht;
      destruct (reply ev sc rs w) as [[c|e|] w1]
  end; simpl in Ht; simpl; try exact Ht.
  unfold write_append, get_fs, time_time, set_fs, ret, raise, bind. simpl.
  destruct (w_fs w1 !! path) as [[|content mtime]|]; simpl; exact Ht.
Qed.

Lemma download_chunks_trace (url path : string) :
  forall (fuel : nat) (w : world),
    exists k, w_trace (snd (download_chunks fuel url path w))
              = app (w_trace w) (repeat (EvNextChunk url) k).
Proof.
  induction fuel as [|fuel IH]; intros w; simpl.
  - exists 0%nat. simpl. by rewrite app_nil_r.
  - unfold bind at 1. pose proof (next_chunk_trace url path w) as Ht.
    destruct (next_chunk url path w) as [[c|e|] w1]; simpl in Ht;
      try (exists 1%nat; exact Ht).
    destruct (ch_done c); [exists 1%nat; exact Ht|].
    destruct (IH w1) as [k Hk]. exists (S k). rewrite Hk, Ht, <- app_assoc.
    reflexivity.
Qed.

Lemma open_wb_trace (path : string) (w : world) :
  w_trace (snd (open_wb path w)) = app (w_trace w) [EvOpenWb path].
Proof.
  unfold open_wb, log, get_fs, time_time, set_fs, raise, bind. simpl.
  destruct (w_fs w !! path) as [[|content mtime]|]; reflexivity.
Qed.

Lemma utime_trace (path : string) (atime mtime : Qc) (w : world) :
  w_trace (snd (utime path atime mtime w)) = app (w_trace w) [EvUtime path atime mtime].
Proof.
  unfold utime, log, get_fs, set_fs, raise, ret, bind. simpl.
  destruct (w_fs w !! path) as [[|content m]|]; reflexivity.
Qed.

Lemma get_authed_http_trace (w : world) :
  w_trace (snd (get_authed_http w)) = app (w_trace w) [EvGetCredentials].
Proof.
  unfold get_authed_http, get_credentials. unfold bind.
  match goal with
  | |- context [reply ?ev ?sc ?rs w] =>
      pose proof (reply_trace ev sc rs w) as Ht;
      destruct (reply ev sc rs w) as [[[]|e|] w1]
  end; exact Ht.
Qed.

(** Whatever the service answers, a fresh download logs the reading of
    the credentials, then at most the opening of the target, then chunk
    requests, then at most the setting of the times: no chunk is asked for
    before the target has been opened. *)
Lemma download_fresh_trace_shape (path : string) (normalized_entry : normal_entry)
    (mime_type : string) (gd_mtime : Qc) (w : world) :
  exists evs,
    w_trace (snd (download_fresh path normalized_entry mime_type gd_mtime w))
    = app (w_trace w) (EvGetCredentials :: evs)
    /\ (evs = []
        \/ exists url k tail,
             evs = EvOpenWb path :: app (repeat (EvNextChunk url) k) tail
             /\ (tail = [] \/ exists atime, tail = [EvUtime path atime gd_mtime])).
Proof.
  unfold download_fresh. unfold bind at 1.
  pose proof (get_authed_http_trace w) as H1.
  destruct (get_authed_http w) as [[[]|e|] w1]; simpl in H1; cbn [snd fst];
    try (exists []; split; [exact H1|by left]).
  unfold bind at 1.
  destruct (assoc_get mime_type (ne_download_links normalized_entry)) as [url|];
    [|exists []; split; [exact H1|by left]].
  unfold ret at 1. unfold bind at 1.
  pose proof (open_wb_trace path w1) as H2.
  destruct (open_wb path w1) as [[[]|e|] w2]; simpl in H2; cbn [snd fst];
    try (eexists; split; [rewrite H2, H1, <- app_assoc; reflexivity|];
         right; exists url, 0%nat, []; auto).
  unfold bind at 1, get_remote at 1. unfold bind at 1.
  destruct (download_chunks_trace url path (S (length (r_chunks (w_remote w2)))) w2)
    as [k H3].
  destruct (download_chunks (S (length (r_chunks (w_remote w2)))) url path w2)
    as [[t|e|] w3]; simpl in H3; cbn [snd fst];
    try (eexists; split; [rewrite H3, H2, H1, <- !app_assoc; reflexivity|];
         right; exists url, k, []; rewrite app_nil_r; auto).
  unfold bind at 1, time_time at 1. unfold bind at 1.
  pose proof (utime_trace path (w_clock w3) gd_mtime w3) as H4.
  destruct (utime path (w_clock w3) gd_mtime w3) as [[[]|e|] w4]; simpl in H4;
    unfold ret; cbn [snd fst];
    (eexists; split; [rewrite H4, H3, H2, H1, <- !app_assoc; reflexivity|]);
    right; exists url, k, [EvUtime path (w_clock w3) gd_mtime]; eauto.
Qed.

(** * Further properties *)

(** ** GdriveAuth.get_client *)

(** X1: once [get_client] has returned, the client is kept: any further
    call returns at once, asking nothing and logging nothing. *)
Theorem get_client_builds_once (w w0 : world) :
  get_client w = (Ok tt, w0) ->
  w_client w0 = true /\ get_client w0 = (Ok tt, w0).
Proof.
  intros H.
  assert (Hb : w_client w0 = true).
  { unfold get_client in H. destruct (w_client w) eqn:Hc.
    - by inversion H; subst.
    - unfold get_authed_http, get_credentials, build, reply, catch, bind, log,
        get_remote, set_remote, get_conf, set_client, ret, raise in H. simpl in H.
      destruct (r_credentials (w_remote w)) as [|[[]|e] tl]; simpl in H;
        try discriminate.
      destruct (r_build (w_remote w)) as [|[[]|e] tl']; simpl in H;
        try discriminate.
      by inversion H; subst. }
  split; [exact Hb|]. by apply get_client_built.
Qed.

Lemma get_client_builds_once_witness :
  let w := Fixture.world_of false ∅
             (Fixture.build_script [Returns tt] [Returns tt]) in
  w_client (snd (get_client w)) = true
  /\ get_client (snd (get_client w)) = (Ok tt, snd (get_client w)).
Proof.
  intros w. apply (get_client_builds_once w (snd (get_client w))). reflexivity.
Defined.

(** X2: when [get_client] raises, be it from the credentials or from the
    discovery service, no client is kept: the next call builds again. *)
Theorem get_client_failure_not_kept (w w0 : world) (e : exn) :
  get_client w = (Raise e, w0) ->
  w_client w0 = false
  /\ (In (Raises e) (r_credentials (w_remote w))
      \/ In (Raises e) (r_build (w_remote w))).
Proof.
  intros H. unfold get_client in H. destruct (w_client w) eqn:Hc;
    [discriminate|].
  unfold get_authed_http, get_credentials, build, reply, catch, bind, log,
    get_remote, set_remote, get_conf, set_client, ret, raise in H. simpl in H.
  destruct (r_credentials (w_remote w)) as [|[[]|e1] tl]; simpl in H;
    try discriminate.
  - destruct (r_build (w_remote w)) as [|[[]|e2] tl']; simpl in H;
      try discriminate.
    inversion H; subst. simpl. split; [exact Hc|]. right. by left.
  - inversion H; subst. simpl. split; [exact Hc|]. left. by left.
Qed.

Lemma get_client_failure_not_kept_witness :
  let w := Fixture.world_of false ∅
             (Fixture.build_script [Returns tt]
                [Raises (HttpError 503 (NotJson "Service Unavailable"))]) in
  w_client (snd (get_client w)) = false.
Proof.
  intros w.
  apply (get_client_failure_not_kept w (snd (get_client w))
           (HttpError 503 (NotJson "Service Unavailable"))).
  reflexivity.
Defined.

(** ** The backoff *)

(** X3: a backoff at round [n] sleeps [2^n] seconds, or one second more
    when the draw is exactly 1000: the division is on integers, so the
    jitter is never a fraction of a second. *)
Theorem backoff_sleep_whole_seconds (n : Z) (w : world) :
  let d := (2 ^ n + jitter (w_entropy w (w_draws w)))%Z in
  (jitter (w_entropy w (w_draws w)) = 0
   \/ jitter (w_entropy w (w_draws w)) = 1
      /\ (w_entropy w (w_draws w)) mod 1001 = 1000)
  /\ fst (backoff_sleep n w) = Ok tt
  /\ w_trace (snd (backoff_sleep n w)) = app (w_trace w) [EvSleep d]
  /\ w_clock (snd (backoff_sleep n w)) = (w_clock w + Q2Qc (inject_Z d))%Qc
  /\ w_draws (snd (backoff_sleep n w)) = S (w_draws w).
Proof.
  intros d. split.
  - unfold jitter. change (1000 - 0 + 1) with 1001.
    pose proof (Z.mod_pos_bound (w_entropy w (w_draws w)) 1001 ltac:(lia)) as Hb.
    rewrite Z.add_0_l.
    destruct (Z.eq_dec ((w_entropy w (w_draws w)) mod 1001) 1000) as [He|Hne].
    + right. rewrite He. split; reflexivity.
    + left. apply Z.div_small. lia.
  - repeat split.
Qed.

(** ** The retrying proxy, one failure at a time *)

(** X4: a transient connection error at the first attempt, then a result:
    the proxy sleeps once and returns the result of the second attempt. *)
Theorem proxied_method_retry_after_transient {A} (auto_refresh : bool)
    (method : M A) (e : exn) (a : A) (w w1 w2 w3 : world) :
  method w = (Raise e, w1) ->
  is_transient e = true ->
  backoff_sleep 0 w1 = (Ok tt, w2) ->
  method w2 = (Ok a, w3) ->
  proxied_method auto_refresh method w = (Ok (Some a), w3).
Proof.
  intros H1 He H2 H3. unfold proxied_method. rewrite range_0_5.
  simpl. rewrite H1.
  destruct e; simpl in He; try discriminate;
    unfold bind at 1; rewrite H2; simpl; by rewrite H3.
Qed.

Lemma proxied_method_retry_after_transient_witness :
  let w := Fixture.world_of true ∅
             (Fixture.about_script
                [Raises (SSLError "handshake"); Returns (JStr "about")] []) in
  fst (proxied_method false get_about_info w) = Ok (Some (JStr "about")).
Proof.
  intros w.
  pose proof (proxied_method_retry_after_transient false get_about_info
                (SSLError "handshake") (JStr "about") w
                (snd (get_about_info w))
                (snd (backoff_sleep 0 (snd (get_about_info w))))
                (snd (get_about_info
                        (snd (backoff_sleep 0 (snd (get_about_info w))))))
                eq_refl eq_refl eq_refl eq_refl) as H.
  by rewrite H.
Defined.

(** X5: an HTTP 403 whose body names a rate-limit reason, then a result:
    the same backoff, and the result of the second attempt is returned. *)
Theorem proxied_method_retry_after_rate_limit {A} (auto_refresh : bool)
    (method : M A) (status : Z) (j : json) (a : A) (w w1 w2 w3 : world) :
  method w = (Raise (HttpError status (Json j)), w1) ->
  is_rate_limit (Some j) = inr true ->
  backoff_sleep 0 w1 = (Ok tt, w2) ->
  method w2 = (Ok a, w3) ->
  proxied_method auto_refresh method w = (Ok (Some a), w3).
Proof.
  intros H1 Hr H2 H3. unfold proxied_method. rewrite range_0_5.
  simpl. rewrite H1, Hr. unfold bind at 1. rewrite H2. simpl. by rewrite H3.
Qed.

Lemma proxied_method_retry_after_rate_limit_witness :
  let w := Fixture.world_of true ∅
             (Fixture.about_script
                [Raises Fixture.rate_limited; Returns (JStr "about")] []) in
  fst (proxied_method false get_about_info w) = Ok (Some (JStr "about")).
Proof.
  intros w.
  pose proof (proxied_method_retry_after_rate_limit false get_about_info 403
                _ (JStr "about") w
                (snd (get_about_info w))
                (snd (backoff_sleep 0 (snd (get_about_info w))))
                (snd (get_about_info
                        (snd (backoff_sleep 0 (snd (get_about_info w))))))
                eq_refl eq_refl eq_refl eq_refl) as H.
  by rewrite H.
Defined.

(** X6: when the refresh that answers an authorization fault fails itself,
    the error of the refresh is what the caller gets, and the operation is
    not tried again. *)
Theorem proxied_method_refresh_failure_propagates {A} (method : M A)
    (msg : string) (e : exn) (w w1 w2 : world) :
  method w = (Raise (AuthorizationFaultError msg), w1) ->
  check_credential_state w1 = (Raise e, w2) ->
  proxied_method true method w = (Raise e, w2).
Proof.
  intros H1 H2. unfold proxied_method. rewrite range_0_5.
  simpl. rewrite H1. simpl. unfold bind at 1. by rewrite H2.
Qed.

Lemma proxied_method_refresh_failure_propagates_witness :
  let w := Fixture.world_of true ∅
             (Fixture.about_script
                [Raises (AuthorizationFaultError "expired"); Returns JNull]
                [Raises (AuthorizationFaultError "no refresh token")]) in
  fst (proxied_method true get_about_info w)
  = Raise (AuthorizationFaultError "no refresh token")
  /\ r_about (w_remote (snd (proxied_method true get_about_info w)))
     = [Returns JNull].
Proof.
  intros w.
  pose proof (proxied_method_refresh_failure_propagates get_about_info
                "expired" (AuthorizationFaultError "no refresh token") w
                (snd (get_about_info w))
                (snd (check_credential_state (snd (get_about_info w))))
                eq_refl eq_refl) as H.
  rewrite H. split; reflexivity.
Defined.

(** X7: an HTTP error whose body is a JSON object with no top-level [code]
    equal to 403 is never taken for a rate limit, whatever else the body
    holds: it leaves at the first attempt, unchanged. *)
Theorem proxied_method_http_other_code_not_retried {A} (auto_refresh : bool)
    (method : M A) (status : Z) (fields : list (string * json))
    (w w1 : world) :
  method w = (Raise (HttpError status (Json (JObj fields))), w1) ->
  py_eq_403 (default JNull (assoc_get "code" fields)) = false ->
  proxied_method auto_refresh method w
  = (Raise (HttpError status (Json (JObj fields))), w1).
Proof.
  intros H Hc. apply proxied_method_http_error_propagates; [exact H|].
  unfold is_rate_limit. simpl. by rewrite Hc.
Qed.

Lemma proxied_method_http_other_code_not_retried_witness :
  let body := [("error", JObj [("code", JInt 403);
                               ("errors", JArr [JObj [("reason", JStr "rateLimitExceeded")]])])] in
  let w := Fixture.world_of true ∅
             (Fixture.about_script
                [Raises (HttpError 403 (Json (JObj body))); Returns JNull] []) in
  fst (proxied_method true get_about_info w)
  = Raise (HttpError 403 (Json (JObj body))).
Proof.
  intros body w.
  pose proof (proxied_method_http_other_code_not_retried true get_about_info
                403 body w (snd (get_about_info w)) eq_refl eq_refl) as H.
  by rewrite H.
Defined.

(** ** list_changes, once more *)

Section ListChangesMore.

Variable NormalEntry : string -> json -> exn + normal_entry.

Lemma od_set_Forall {V} (P : Z * V -> Prop) (k : Z) (v : V) (d : list (Z * V)) :
  P (k, v) -> Forall P d -> Forall P (od_set k v d).
Proof.
  intros Hk. induction 1 as [|[k' v'] d Hkv Hd IH]; simpl.
  - by repeat constructor.
  - destruct (k =? k')%Z; constructor; auto.
Qed.

Lemma list_changes_items_deleted (items : list change_item) :
  forall (last : option Z) (changes r : list (Z * change)) (w w' : world),
    Forall deleted_iff_no_entry changes ->
    list_changes_items NormalEntry items last changes w = (Ok r, w') ->
    Forall deleted_iff_no_entry r.
Proof.
  induction items as [|item items IH]; intros last changes r w w' Hch Hrun.
  - simpl in Hrun. unfold ret in Hrun. by inversion Hrun; subst.
  - simpl in Hrun.
    destruct (ci_deleted item) eqn:Hdel; [|destruct (ci_file item) as [f|]];
      unfold bind, ret, raise in Hrun; simpl in Hrun; try discriminate;
      destruct (truthy_int last && (ci_id item <=? default 0 last)%Z);
      try discriminate.
    + eapply IH; [|exact Hrun]. apply od_set_Forall; [|exact Hch].
      unfold deleted_iff_no_entry. simpl. tauto.
    + destruct (NormalEntry "list_changes" f) as [e|ne]; simpl in Hrun;
        unfold raise, ret in Hrun; try discriminate.
      eapply IH; [|exact Hrun]. apply od_set_Forall; [|exact Hch].
      unfold deleted_iff_no_entry. simpl. split; discriminate.
Qed.

(** X8: in whatever [list_changes] returns, a change is marked deleted
    exactly when it comes without an entry. *)
Theorem list_changes_deleted_iff_no_entry (start_change_id : option Z)
    (page_token : option string) (w w' : world) (largest : Z)
    (next : option string) (changes : list (Z * change)) :
  list_changes NormalEntry start_change_id page_token w
    = (Ok (largest, next, changes), w') ->
  Forall deleted_iff_no_entry changes.
Proof.
  intros Hrun. unfold list_changes in Hrun. unfold bind at 1 in Hrun.
  destruct (get_client w) as [[[]|e|] w0]; try discriminate.
  unfold bind at 1 in Hrun.
  destruct (changes_list_execute page_token start_change_id w0)
    as [[response|e|] w1]; try discriminate.
  unfold bind at 1 in Hrun.
  destruct (list_changes_items NormalEntry (cr_items response) None [] w1)
    as [[r|e|] w2] eqn:Hitems; try discriminate.
  unfold ret in Hrun. inversion Hrun; subst.
  eapply list_changes_items_deleted; [|exact Hitems]. constructor.
Qed.

(** X9: on a page whose ids are not zero, [list_changes] returns only when
    the ids grow strictly, and then with the page's ids as keys, in the
    page's order, next to the page's largest id and token; when the ids do
    not grow strictly it raises. *)
Theorem list_changes_nonzero_page (start_change_id : option Z)
    (page_token : option string) (page : changes_response)
    (rest : list (outcome changes_response)) (w w0 : world) :
  get_client w = (Ok tt, w0) ->
  r_changes (w_remote w0) = Returns page :: rest ->
  Forall (fun item => ci_id item <> 0) (cr_items page) ->
  let run := list_changes NormalEntry start_change_id page_token w in
  (forall largest next changes,
      fst run = Ok (largest, next, changes) ->
      increasing_from None (map ci_id (cr_items page))
      /\ map fst changes = map ci_id (cr_items page)
      /\ largest = cr_largestChangeId page /\ next = cr_nextPageToken page)
  /\ (~ increasing_from None (map ci_id (cr_items page)) ->
      exists e, fst run = Raise e).
Proof.
  intros Hc Hs Hnz run. split.
  - intros largest next changes Hrun. subst run.
    destruct (list_changes NormalEntry start_change_id page_token w)
      as [r w'] eqn:E. simpl in Hrun. subst r.
    destruct (list_changes_result_increasing NormalEntry _ _ _ _ _ _ _ _ _ _
                Hc Hs Hnz E) as (H1 & H2 & H3 & H4).
    auto.
  - intros Hbad.
    exact (list_changes_violation_aborts NormalEntry start_change_id page_token
             page rest w w0 Hc Hs Hnz Hbad).
Qed.

Lemma list_changes_items_torn (items : list change_item) :
  forall (last : option Z) (changes r : list (Z * change)) (w w' : world),
    Exists (fun item => ci_deleted item = false /\ ci_file item = None) items ->
    list_changes_items NormalEntry items last changes w <> (Ok r, w').
Proof.
  induction items as [|item items IH]; intros last changes r w w' Hex Hrun;
    [by inversion Hex|].
  simpl in Hrun.
  destruct (ci_deleted item) eqn:Hdel; [|destruct (ci_file item) as [f|] eqn:Hf];
    unfold bind, ret, raise in Hrun; simpl in Hrun; try discriminate;
    destruct (truthy_int last && (ci_id item <=? default 0 last)%Z);
    try discriminate.
  - inversion Hex as [? ? [Hd _]|? ? Hex']; subst; [congruence|].
    by eapply IH.
  - destruct (NormalEntry "list_changes" f) as [e|ne]; simpl in Hrun;
      unfold raise, ret in Hrun; try discriminate.
    inversion Hex as [? ? [_ Hn]|? ? Hex']; subst; [congruence|].
    by eapply IH.
Qed.

(** X10: a page with a change that is not marked deleted and yet carries
    no file makes [list_changes] raise: it returns nothing of the page. *)
Theorem list_changes_missing_file_raises (start_change_id : option Z)
    (page_token : option string) (page : changes_response)
    (rest : list (outcome changes_response)) (w w0 : world) :
  get_client w = (Ok tt, w0) ->
  r_changes (w_remote w0) = Returns page :: rest ->
  Exists (fun item => ci_deleted item = false /\ ci_file item = None)
         (cr_items page) ->
  exists e, fst (list_changes NormalEntry start_change_id page_token w) = Raise e.
Proof.
  intros Hc Hs Hex. unfold list_changes.
  unfold bind at 1. rewrite Hc.
  unfold bind at 1. unfold changes_list_execute.
  rewrite (reply_returns _ _ _ _ _ _ Hs).
  unfold bind at 1.
  match goal with
  | |- context [list_changes_items NormalEntry ?its None [] ?w1] =>
      pose proof (list_changes_items_pure NormalEntry its None [] w1) as [_ Hn];
      pose proof (list_changes_items_torn its None [] ) as Ht;
      destruct (list_changes_items NormalEntry its None [] w1) as [[r|e|] w2] eqn:E
  end.
  - exfalso. by eapply Ht.
  - simpl. eauto.
  - simpl in Hn. done.
Qed.

End ListChangesMore.

Lemma list_changes_deleted_iff_no_entry_witness :
  Forall deleted_iff_no_entry
    [(11, ("f11", true, None)); (12, ("f12", false, Some (Fixture.file_entry "f12")))].
Proof.
  apply (list_changes_deleted_iff_no_entry Fixture.NormalEntry None None
           (Fixture.world_of true ∅
              (Fixture.changes_script
                 [Returns {| cr_items := [Fixture.deletion 11 "f11"; Sample.live];
                             cr_largestChangeId := 12;
                             cr_nextPageToken := None |}]))
           (snd (list_changes Fixture.NormalEntry None None
                   (Fixture.world_of true ∅
                      (Fixture.changes_script
                         [Returns {| cr_items := [Fixture.deletion 11 "f11"; Sample.live];
                                     cr_largestChangeId := 12;
                                     cr_nextPageToken := None |}]))))
           12 None).
  reflexivity.
Defined.

Lemma list_changes_nonzero_page_witness :
  let page := {| cr_items := [Fixture.deletion 11 "f11"; Sample.live];
                 cr_largestChangeId := 12; cr_nextPageToken := Some "next" |} in
  let w := Fixture.world_of true ∅ (Fixture.changes_script [Returns page]) in
  increasing_from None [11; 12]
  /\ exists changes,
       fst (list_changes Fixture.NormalEntry None None w)
       = Ok (12, Some "next", changes)
       /\ map fst changes = [11; 12].
Proof.
  intros page w.
  destruct (list_changes_nonzero_page Fixture.NormalEntry None None page [] w w)
    as [Hok _].
  - reflexivity.
  - reflexivity.
  - repeat constructor; discriminate.
  - destruct (Hok 12 (Some "next")
                [(11, ("f11", true, None));
                 (12, ("f12", false, Some (Fixture.file_entry "f12")))]
                eq_refl) as (H1 & H2 & _).
    split; [exact H1|]. eexists. split; [reflexivity|exact H2].
Defined.

Lemma list_changes_missing_file_raises_witness :
  let page := {| cr_items := [Sample.live; Sample.torn];
                 cr_largestChangeId := 13; cr_nextPageToken := None |} in
  let w := Fixture.world_of true ∅ (Fixture.changes_script [Returns page]) in
  exists e, fst (list_changes Fixture.NormalEntry None None w) = Raise e.
Proof.
  intros page w.
  apply (list_changes_missing_file_raises Fixture.NormalEntry None None page [] w w).
  - reflexivity.
  - reflexivity.
  - right. left. split; reflexivity.
Defined.

(** ** Query strings *)

(** X11: for the children listing an empty query string is as good as
    none: the call does the same with the empty string as with [None], for either
    string. In particular an empty string next to a real one is no clash. *)
Theorem get_children_empty_string_is_none
    (escape_filename_for_query : string -> string) (exc_info : option exn)
    (parent_id : string) (query_contains_string query_is_string : option string)
    (max_results : option Z) (w : world) :
  get_children_under_parent_id escape_filename_for_query exc_info parent_id
    query_contains_string query_is_string max_results w
  = get_children_under_parent_id escape_filename_for_query exc_info parent_id
      (nonempty query_contains_string) (nonempty query_is_string) max_results w.
Proof.
  destruct query_contains_string as [[|c s]|], query_is_string as [[|c' s']|];
    reflexivity.
Qed.

Lemma list_files_query_strings
    (escape_filename_for_query : string -> string)
    (query_contains_string query_is_string parent_id : option string)
    (hidden_flags : list string) :
  list_files_query escape_filename_for_query query_contains_string
    query_is_string parent_id hidden_flags
  = list_files_query escape_filename_for_query
      (if truthy_str query_is_string then None else nonempty query_contains_string)
      (nonempty query_is_string) (nonempty parent_id) hidden_flags.
Proof.
  destruct query_contains_string as [[|c s]|], query_is_string as [[|c' s']|],
    parent_id as [[|c'' s'']|]; reflexivity.
Qed.

(** X12: [list_files] takes an empty string for a missing one, for the
    parent id and both query strings, and when an is-string is given it
    ignores the contains-string: unlike the children listing it does not
    refuse the two together. *)
Theorem list_files_strings
    (NormalEntry : string -> json -> exn + normal_entry)
    (escape_filename_for_query : string -> string)
    (query_contains_string query_is_string parent_id : option string)
    (w : world) :
  list_files NormalEntry escape_filename_for_query query_contains_string
    query_is_string parent_id w
  = list_files NormalEntry escape_filename_for_query
      (if truthy_str query_is_string then None else nonempty query_contains_string)
      (nonempty query_is_string) (nonempty parent_id) w.
Proof.
  unfold list_files.
  unfold bind at 1. unfold bind at 3.
  destruct (get_client w) as [[[]|e|] w0]; try reflexivity.
  unfold bind at 1, get_conf at 1. unfold bind at 3, get_conf at 1.
  by rewrite list_files_query_strings.
Qed.

(** ** list_files: the first failure ends the listing *)

Section ListFilesMore.

Variable NormalEntry : string -> json -> exn + normal_entry.
Variable escape_filename_for_query : string -> string.

(** The error that leaves the handler of [list_files] for the raw entry
    [bad] whose normalisation raised [e]: [e], unless reading [bad[u'id']]
    for the log line raises itself. *)
Lemma list_files_items_fails (items : list json) :
  forall (es acc : list normal_entry) (bad : json) (more : list json)
         (e : exn) (w : world),
    Forall2 (fun raw en => NormalEntry "list_files" raw = inr en) items es ->
    NormalEntry "list_files" bad = inl e ->
    list_files_items NormalEntry (app items (bad :: more)) acc w
    = (Raise (match py_getitem bad "id" with
              | inr _ => e
              | inl e' => e'
              end), w).
Proof.
  induction items as [|raw items IH]; intros es acc bad more e w H Hbad;
    inversion H; subst; simpl.
  - unfold bind, catch. rewrite Hbad. simpl.
    destruct (py_getitem bad "id"); reflexivity.
  - unfold bind, catch.
    match goal with Hn : NormalEntry _ raw = _ |- _ => rewrite Hn end.
    simpl. eapply IH; eauto.
Qed.

(** The page loop over pages that go through, followed by a step that
    fails: a request that raises, or a page with an entry that does not
    normalise. *)
Lemma list_files_pages_fail (query : option string) (e : exn)
    (next : outcome files_response) (rest : list (outcome files_response))
    (pages : list files_response) :
  forall (fuel : nat) (page_token : option string) (page_num : Z)
         (acc entries : list normal_entry) (w : world),
    r_files_list (w_remote w) = app (map Returns pages) (next :: rest) ->
    Forall (fun page => is_Some (fr_nextPageToken page)) pages ->
    Forall2 (fun raw en => NormalEntry "list_files" raw = inr en)
            (concat (map fr_items pages)) entries ->
    (next = Raises e
     \/ exists page good es bad more e0,
          next = Returns page
          /\ fr_items page = app good (bad :: more)
          /\ Forall2 (fun raw en => NormalEntry "list_files" raw = inr en) good es
          /\ NormalEntry "list_files" bad = inl e0
          /\ e = match py_getitem bad "id" with
                 | inr _ => e0
                 | inl e' => e'
                 end) ->
    (length pages < fuel)%nat ->
    exists w',
      list_files_pages NormalEntry fuel query page_token page_num acc w
      = (Raise e, w')
      /\ w_trace w'
         = app (w_trace w)
             (map (EvFilesList query) (page_token :: map fr_nextPageToken pages))
      /\ r_files_list (w_remote w') = rest.
Proof.
  induction pages as [|page pages IH];
    intros fuel page_token page_num acc entries w Hs Htok Hnorm Hnext Hfuel;
    (destruct fuel as [|fuel]; [simpl in Hfuel; lia|]); simpl in Hs, Hnorm |- *.
  - unfold bind at 1. unfold files_list_execute.
    destruct Hnext
      as [->|(page & good & es & bad & more & e0 & -> & Hit & Hgood & Hbad & ->)].
    + rewrite (reply_raises _ _ _ _ _ _ Hs). eexists. split; [reflexivity|]. by simpl.
    + rewrite (reply_returns _ _ _ _ _ _ Hs). unfold bind at 1.
      rewrite Hit, (list_files_items_fails _ _ _ _ _ _ _ Hgood Hbad).
      eexists. split; [reflexivity|]. by simpl.
  - apply Forall2_app_inv_l in Hnorm as (es1 & es2 & H1 & H2 & ->).
    inversion Htok as [|? ? [token Htoken] Htok']; subst.
    unfold bind at 1. unfold files_list_execute.
    rewrite (reply_returns _ _ _ _ _ _ Hs).
    unfold bind at 1. rewrite (list_files_items_ok _ _ _ _ _ H1).
    rewrite Htoken.
    assert (Hfuel' : (length pages < fuel)%nat) by (simpl in Hfuel; lia).
    match goal with
    | |- context [list_files_pages _ _ _ _ _ _ ?w1] =>
        destruct (IH fuel (Some token) (page_num + 1)%Z (app acc es1) es2 w1
                    eq_refl Htok' H2 Hnext Hfuel') as (w' & Hrun & Htr & Hrest)
    end.
    exists w'. rewrite Hrun. split; [reflexivity|].
    split; [|exact Hrest].
    rewrite Htr. simpl. rewrite <- app_assoc. reflexivity.
Qed.

(** X13: when, after pages that went through, a request for the next page
    raises, [list_files] raises that error: the entries gathered so far are
    not returned, and no further page is asked for. *)
Theorem list_files_page_failure_aborts (query_contains_string query_is_string
    parent_id : option string) (pages : list files_response) (e : exn)
    (rest : list (outcome files_response)) (entries : list normal_entry)
    (w w0 : world) :
  get_client w = (Ok tt, w0) ->
  r_files_list (w_remote w0) = app (map Returns pages) (Raises e :: rest) ->
  Forall (fun page => is_Some (fr_nextPageToken page)) pages ->
  Forall2 (fun raw en => NormalEntry "list_files" raw = inr en)
          (concat (map fr_items pages)) entries ->
  let run := list_files NormalEntry escape_filename_for_query
               query_contains_string query_is_string parent_id w in
  fst run = Raise e
  /\ length (w_trace (snd run)) = (length (w_trace w0) + S (length pages))%nat
  /\ r_files_list (w_remote (snd run)) = rest.
Proof.
  intros Hc Hs Htok Hnorm run.
  destruct (list_files_pages_fail
              (list_files_query escape_filename_for_query query_contains_string
                 query_is_string parent_id (hidden_flags_list_remote (w_conf w0)))
              e (Raises e) rest pages
              (S (length (r_files_list (w_remote w0)))) None 0 [] entries w0
              Hs Htok Hnorm (or_introl eq_refl))
    as (w' & Hrun & Htr & Hrest).
  { rewrite Hs. rewrite length_app, length_map. simpl. lia. }
  assert (Hr : run = (Raise e, w')).
  { subst run. unfold list_files. unfold bind at 1. rewrite Hc.
    unfold bind at 1, get_conf at 1. unfold bind at 1, get_remote at 1.
    exact Hrun. }
  rewrite Hr. simpl. split; [reflexivity|]. split; [|exact Hrest].
  rewrite Htr, length_app, length_map. simpl. by rewrite length_map.
Qed.

(** X14: when an entry of some page does not normalise, [list_files]
    returns nothing, not even the entries of the pages before, and asks
    for no further page. What it raises is the normaliser's error when the
    raw entry has an [id]; when it has none, or is no dict at all, the
    handler's own lookup of [entry_raw[u'id']] for the log line fails, and
    that [KeyError] or [TypeError] takes the place of the normaliser's
    error. *)
Theorem list_files_bad_entry_aborts (query_contains_string query_is_string
    parent_id : option string) (pages : list files_response)
    (page : files_response) (good : list json) (bad : json) (more : list json)
    (e : exn) (rest : list (outcome files_response))
    (entries es : list normal_entry) (w w0 : world) :
  get_client w = (Ok tt, w0) ->
  r_files_list (w_remote w0) = app (map Returns pages) (Returns page :: rest) ->
  Forall (fun page => is_Some (fr_nextPageToken page)) pages ->
  Forall2 (fun raw en => NormalEntry "list_files" raw = inr en)
          (concat (map fr_items pages)) entries ->
  fr_items page = app good (bad :: more) ->
  Forall2 (fun raw en => NormalEntry "list_files" raw = inr en) good es ->
  NormalEntry "list_files" bad = inl e ->
  let run := list_files NormalEntry escape_filename_for_query
               query_contains_string query_is_string parent_id w in
  (forall i, py_getitem bad "id" = inr i -> fst run = Raise e)
  /\ (forall e', py_getitem bad "id" = inl e' -> fst run = Raise e')
  /\ (forall fields, bad = JObj fields -> assoc_get "id" fields = None ->
        fst run = Raise (KeyError "id"))
  /\ r_files_list (w_remote (snd run)) = rest.
Proof.
  intros Hc Hs Htok Hnorm Hit Hgood Hbad run.
  destruct (list_files_pages_fail
              (list_files_query escape_filename_for_query query_contains_string
                 query_is_string parent_id (hidden_flags_list_remote (w_conf w0)))
              (match py_getitem bad "id" with
               | inr _ => e
               | inl e' => e'
               end)
              (Returns page) rest pages
              (S (length (r_files_list (w_remote w0)))) None 0 [] entries w0
              Hs Htok Hnorm)
    as (w' & Hrun & Htr & Hrest).
  { right. exists page, good, es, bad, more, e. auto. }
  { rewrite Hs. rewrite length_app, length_map. simpl. lia. }
  assert (Hr : run = (Raise (match py_getitem bad "id" with
                             | inr _ => e
                             | inl e' => e'
                             end), w')).
  { subst run. unfold list_files. unfold bind at 1. rewrite Hc.
    unfold bind at 1, get_conf at 1. unfold bind at 1, get_remote at 1.
    exact Hrun. }
  rewrite Hr. simpl. split; [|split; [|split]].
  - by intros i ->.
  - by intros e' ->.
  - intros fields -> Hid. simpl. by rewrite Hid.
  - exact Hrest.
Qed.

End ListFilesMore.

Lemma list_files_page_failure_aborts_witness :
  let w := Fixture.world_of true ∅
             (Fixture.files_script
                (app (map Returns Fixture.three_pages)
                     [Raises (SocketError 104); Returns Fixture.last_page])) in
  let run := list_files Fixture.NormalEntry Fixture.escape_filename_for_query
               None None None w in
  fst run = Raise (SocketError 104)
  /\ length (w_trace (snd run)) = 3%nat
  /\ r_files_list (w_remote (snd run)) = [Returns Fixture.last_page].
Proof.
  intros w run.
  apply (list_files_page_failure_aborts Fixture.NormalEntry
           Fixture.escape_filename_for_query None None None
           Fixture.three_pages (SocketError 104) [Returns Fixture.last_page]
           (map Fixture.file_entry ["f1"; "f2"; "f3"; "f4"]) w w).
  - reflexivity.
  - reflexivity.
  - repeat constructor; eexists; reflexivity.
  - repeat constructor.
Defined.

Lemma list_files_bad_entry_aborts_witness :
  let first := {| fr_items := [Fixture.raw_file "f1"; Fixture.raw_file "f2"];
                  fr_nextPageToken := Some "t1" |} in
  let second (bad : json) :=
    {| fr_items := [Fixture.raw_file "f3"; bad; Fixture.raw_file "f4"];
       fr_nextPageToken := Some "t2" |} in
  let run (bad : json) :=
    list_files Fixture.NormalEntry Fixture.escape_filename_for_query
      None None None
      (Fixture.world_of true ∅
         (Fixture.files_script
            [Returns first; Returns (second bad); Returns Fixture.last_page])) in
  (fst (run (JObj [("id", JInt 7)])) = Raise (KeyError "id")
   /\ r_files_list (w_remote (snd (run (JObj [("id", JInt 7)]))))
      = [Returns Fixture.last_page])
  /\ fst (run JNull) = Raise (TypeError "__getitem__").
Proof.
  intros first second run. split.
  - destruct (list_files_bad_entry_aborts Fixture.NormalEntry
                Fixture.escape_filename_for_query None None None
                [first] (second (JObj [("id", JInt 7)]))
                [Fixture.raw_file "f3"] (JObj [("id", JInt 7)])
                [Fixture.raw_file "f4"] (KeyError "id")
                [Returns Fixture.last_page]
                (map Fixture.file_entry ["f1"; "f2"]) [Fixture.file_entry "f3"]
                (Fixture.world_of true ∅
                   (Fixture.files_script
                      [Returns first; Returns (second (JObj [("id", JInt 7)]));
                       Returns Fixture.last_page]))
                (Fixture.world_of true ∅
                   (Fixture.files_script
                      [Returns first; Returns (second (JObj [("id", JInt 7)]));
                       Returns Fixture.last_page])))
      as (H1 & _ & _ & H4).
    + reflexivity.
    + reflexivity.
    + repeat constructor; eexists; reflexivity.
    + repeat constructor.
    + reflexivity.
    + repeat constructor.
    + reflexivity.
    + split; [exact (H1 (JInt 7) eq_refl)|exact H4].
  - destruct (list_files_bad_entry_aborts Fixture.NormalEntry
                Fixture.escape_filename_for_query None None None
                [first] (second JNull)
                [Fixture.raw_file "f3"] JNull
                [Fixture.raw_file "f4"] (TypeError "raw entry")
                [Returns Fixture.last_page]
                (map Fixture.file_entry ["f1"; "f2"]) [Fixture.file_entry "f3"]
                (Fixture.world_of true ∅
                   (Fixture.files_script
                      [Returns first; Returns (second JNull);
                       Returns Fixture.last_page]))
                (Fixture.world_of true ∅
                   (Fixture.files_script
                      [Returns first; Returns (second JNull);
                       Returns Fixture.last_page])))
      as (_ & H2 & _).
    + reflexivity.
    + reflexivity.
    + repeat constructor; eexists; reflexivity.
    + repeat constructor.
    + reflexivity.
    + repeat constructor.
    + reflexivity.
    + exact (H2 (TypeError "__getitem__") eq_refl).
Defined.

(** ** What a computation leaves alone *)

Section Respects.

Variable R : world -> world -> Prop.
Hypothesis R_refl : forall w, R w w.
Hypothesis R_trans : forall w1 w2 w3, R w1 w2 -> R w2 w3 -> R w1 w3.

Lemma respects_ret {A} (a : A) : respects R (ret a).
Proof. intros w. apply R_refl. Qed.

Lemma respects_raise {A} (e : exn) : respects R (@raise A e).
Proof. intros w. apply R_refl. Qed.

Lemma respects_lift {A} (r : exn + A) : respects R (lift r).
Proof. destruct r; [apply respects_raise|apply respects_ret]. Qed.

Lemma respects_bind {A B} (m : M A) (k : A -> M B) :
  respects R m -> (forall a, respects R (k a)) -> respects R (bind m k).
Proof.
  intros Hm Hk w. unfold bind. specialize (Hm w).
  destruct (m w) as [[a|e|] w1]; simpl in *; auto.
  eapply R_trans; [exact Hm|apply Hk].
Qed.

Lemma respects_catch {A} (m : M A) (h : exn -> M A) :
  respects R m -> (forall e, respects R (h e)) -> respects R (catch m h).
Proof.
  intros Hm Hh w. unfold catch. specialize (Hm w).
  destruct (m w) as [[a|e|] w1]; simpl in *; auto.
  eapply R_trans; [exact Hm|apply Hh].
Qed.

(** The retry loop adds only sleeps and refreshes to what the method does. *)
Lemma respects_proxied_loop {A} (auto_refresh : bool) (method : M A) :
  respects R method ->
  (forall n, respects R (backoff_sleep n)) ->
  respects R check_credential_state ->
  forall ns error, respects R (proxied_loop auto_refresh method ns error).
Proof.
  intros Hm Hs Hc. induction ns as [|n ns IH]; intros error w; simpl.
  - apply R_refl.
  - specialize (Hm w). destruct (method w) as [[a|e|] w1]; simpl in *; auto.
    assert (Hgo : forall err,
               R w (snd ((backoff_sleep n ;;;
                          proxied_loop auto_refresh method ns err) w1))).
    { intros err. eapply R_trans; [exact Hm|].
      apply (respects_bind (backoff_sleep n)); [apply Hs|]. intros _. apply IH. }
    destruct e; simpl; auto.
    + destruct (is_rate_limit _) as [x|[|]]; simpl; auto.
    + destruct (negb auto_refresh || (n =? 1)%Z); simpl; auto.
      eapply R_trans; [exact Hm|].
      apply (respects_bind check_credential_state); [apply Hc|]. intros _. apply IH.
Qed.

End Respects.

Lemma same_conf_refl (w : world) : same_conf w w.
Proof. reflexivity. Qed.

Lemma same_conf_trans (w1 w2 w3 : world) :
  same_conf w1 w2 -> same_conf w2 w3 -> same_conf w1 w3.
Proof. unfold same_conf. congruence. Qed.

Lemma same_fs_outside_refl (paths : list string) (w : world) :
  same_fs_outside paths w w.
Proof. by intros p _. Qed.

Lemma same_fs_outside_trans (paths : list string) (w1 w2 w3 : world) :
  same_fs_outside paths w1 w2 -> same_fs_outside paths w2 w3 ->
  same_fs_outside paths w1 w3.
Proof. intros H1 H2 p Hp. by rewrite H2, H1. Qed.

(** External calls change neither the configuration nor any file. *)
Lemma reply_same_conf {A} (ev : event) (script : remote -> list (outcome A))
    (rest : remote -> list (outcome A) -> remote) :
  respects same_conf (reply ev script rest).
Proof.
  intros w. unfold same_conf, reply, bind, log, get_remote, set_remote, ret, raise.
  simpl. destruct (script (w_remote w)) as [|[a|e] tl]; reflexivity.
Qed.

Lemma reply_same_fs {A} (paths : list string) (ev : event)
    (script : remote -> list (outcome A))
    (rest : remote -> list (outcome A) -> remote) :
  respects (same_fs_outside paths) (reply ev script rest).
Proof.
  intros w p _. unfold reply, bind, log, get_remote, set_remote, ret, raise.
  simpl. destruct (script (w_remote w)) as [|[a|e] tl]; reflexivity.
Qed.

Lemma open_wb_same_conf (path : string) : respects same_conf (open_wb path).
Proof.
  intros w. unfold same_conf, open_wb, log, get_fs, time_time, set_fs, raise, bind.
  simpl. destruct (w_fs w !! path) as [[|c m]|]; reflexivity.
Qed.

Lemma open_wb_same_fs (path : string) :
  respects (same_fs_outside [path]) (open_wb path).
Proof.
  intros w p Hp. unfold open_wb, log, get_fs, time_time, set_fs, raise, bind.
  simpl. destruct (w_fs w !! path) as [[|c m]|]; simpl; try reflexivity;
    apply lookup_insert_ne; intros <-; apply Hp; by left.
Qed.

Lemma utime_same_conf (path : string) (atime mtime : Qc) :
  respects same_conf (utime path atime mtime).
Proof.
  intros w. unfold same_conf, utime, log, get_fs, set_fs, raise, ret, bind.
  simpl. destruct (w_fs w !! path) as [[|c m]|]; reflexivity.
Qed.

Lemma utime_same_fs (path : string) (atime mtime : Qc) :
  respects (same_fs_outside [path]) (utime path atime mtime).
Proof.
  intros w p Hp. unfold utime, log, get_fs, set_fs, raise, ret, bind.
  simpl. destruct (w_fs w !! path) as [[|c m]|]; simpl; try reflexivity.
  apply lookup_insert_ne. intros <-. apply Hp. by left.
Qed.

Lemma next_chunk_same_conf (url path : string) :
  respects same_conf (next_chunk url path).
Proof.
  unfold next_chunk.
  apply (respects_bind same_conf same_conf_trans);
    [apply reply_same_conf|].
  intros c w. unfold same_conf, write_append, get_fs, time_time, set_fs, raise,
    ret, bind. simpl.
  destruct (w_fs w !! path) as [[|c' m]|]; reflexivity.
Qed.

Lemma next_chunk_same_fs (url path : string) :
  respects (same_fs_outside [path]) (next_chunk url path).
Proof.
  unfold next_chunk.
  apply (respects_bind _ (same_fs_outside_trans [path]));
    [apply reply_same_fs|].
  intros c w p Hp. unfold write_append, get_fs, time_time, set_fs, raise,
    ret, bind. simpl.
  destruct (w_fs w !! path) as [[|c' m]|]; simpl; try reflexivity.
  apply lookup_insert_ne. intros <-. apply Hp. by left.
Qed.

Lemma download_chunks_respects (R : world -> world -> Prop) (url path : string) :
  (forall w, R w w) ->
  (forall w1 w2 w3, R w1 w2 -> R w2 w3 -> R w1 w3) ->
  respects R (next_chunk url path) ->
  forall fuel, respects R (download_chunks fuel url path).
Proof.
  intros Hrefl Htrans Hn. induction fuel as [|fuel IH]; simpl.
  - intros w. apply Hrefl.
  - apply (respects_bind R Htrans); [exact Hn|].
    intros c. destruct (ch_done c); [apply (respects_ret R Hrefl)|exact IH].
Qed.

Lemma download_fresh_respects (R : world -> world -> Prop) (path : string)
    (normalized_entry : normal_entry) (mime_type : string) (gd_mtime : Qc) :
  (forall w, R w w) ->
  (forall w1 w2 w3, R w1 w2 -> R w2 w3 -> R w1 w3) ->
  respects R get_credentials ->
  respects R (open_wb path) ->
  (forall url, respects R (next_chunk url path)) ->
  (forall atime, respects R (utime path atime gd_mtime)) ->
  respects R (download_fresh path normalized_entry mime_type gd_mtime).
Proof.
  intros Hrefl Htrans Hc Ho Hn Hu. unfold download_fresh, get_authed_http.
  apply (respects_bind R Htrans).
  { apply (respects_bind R Htrans); [exact Hc|].
    intros _. apply (respects_ret R Hrefl). }
  intros _. apply (respects_bind R Htrans).
  { destruct (assoc_get _ _);
      [apply (respects_ret R Hrefl)|apply (respects_raise R Hrefl)]. }
  intros url. apply (respects_bind R Htrans); [exact Ho|].
  intros _. apply (respects_bind R Htrans); [intros w; apply Hrefl|].
  intros r. apply (respects_bind R Htrans).
  { apply download_chunks_respects; auto. }
  intros total. apply (respects_bind R Htrans); [intros w; apply Hrefl|].
  intros now. apply (respects_bind R Htrans); [apply Hu|].
  intros _. apply (respects_ret R Hrefl).
Qed.

Lemma download_fresh_same_conf (path : string) (normalized_entry : normal_entry)
    (mime_type : string) (gd_mtime : Qc) :
  respects same_conf (download_fresh path normalized_entry mime_type gd_mtime).
Proof.
  apply download_fresh_respects.
  - apply same_conf_refl.
  - apply same_conf_trans.
  - apply reply_same_conf.
  - apply open_wb_same_conf.
  - intros url. apply next_chunk_same_conf.
  - intros atime. apply utime_same_conf.
Qed.

Lemma download_fresh_same_fs (path : string) (normalized_entry : normal_entry)
    (mime_type : string) (gd_mtime : Qc) :
  respects (same_fs_outside [path])
    (download_fresh path normalized_entry mime_type gd_mtime).
Proof.
  apply download_fresh_respects.
  - apply same_fs_outside_refl.
  - apply same_fs_outside_trans.
  - apply reply_same_fs.
  - apply open_wb_same_fs.
  - intros url. apply next_chunk_same_fs.
  - intros atime. apply utime_same_fs.
Qed.

(** ** download_to_local, once more *)

(** The run that stops at [makedirs]. *)
Lemma download_to_local_staging_blocked (path : string)
    (normalized_entry : normal_entry) (mime_type : string) (allow_cache : bool)
    (w : world) :
  negb (String.eqb mime_type (ne_mime_type normalized_entry))
  && negb (has_key mime_type (ne_download_links normalized_entry)) = false ->
  isfile (w_fs w) (file_download_temp_path (w_conf w)) = true ->
  download_to_local path normalized_entry mime_type allow_cache w
  = (Raise (OSError (file_download_temp_path (w_conf w))),
     snd (log (EvMakedirs (file_download_temp_path (w_conf w))) w)).
Proof.
  intros He Ht. unfold download_to_local. rewrite He.
  unfold bind at 1. unfold ret at 1. unfold bind at 1, get_conf at 1.
  unfold bind at 1, get_fs at 1. unfold bind at 1.
  unfold isfile in Ht. unfold isdir.
  destruct (w_fs w !! file_download_temp_path (w_conf w)) as [[|c m]|] eqn:E;
    try discriminate.
  unfold catch, makedirs. unfold bind at 1. unfold log at 1.
  unfold bind at 1, get_fs at 1. cbn [w_fs fst snd]. rewrite E. reflexivity.
Qed.

(** X15: when the staging path names a regular file, the directory
    cannot be made: [download_to_local] raises the [OSError] of [makedirs],
    having asked nothing of the service and changed no file. *)
Theorem download_to_local_staging_is_file (path : string)
    (normalized_entry : normal_entry) (mime_type : string) (allow_cache : bool)
    (w : world) :
  mime_type = ne_mime_type normalized_entry
  \/ In mime_type (map fst (ne_download_links normalized_entry)) ->
  isfile (w_fs w) (file_download_temp_path (w_conf w)) = true ->
  let run := download_to_local path normalized_entry mime_type allow_cache w in
  fst run = Raise (OSError (file_download_temp_path (w_conf w)))
  /\ w_fs (snd run) = w_fs w
  /\ w_remote (snd run) = w_remote w
  /\ w_trace (snd run)
     = app (w_trace w) [EvMakedirs (file_download_temp_path (w_conf w))].
Proof.
  intros He Ht run. subst run.
  rewrite (download_to_local_staging_blocked _ _ _ _ _
             (export_check_passes _ _ He) Ht).
  simpl. auto.
Qed.

Lemma download_to_local_staging_is_file_witness :
  let w := Fixture.world_of true
             {["/tmp/gdrivefs" := File "not a directory" (Q2Qc (inject_Z 7))]}
             Fixture.no_replies in
  fst (download_to_local "/tmp/gdrivefs/1a2b" Fixture.sheet "text/csv" true w)
  = Raise (OSError "/tmp/gdrivefs").
Proof.
  intros w.
  apply (download_to_local_staging_is_file "/tmp/gdrivefs/1a2b" Fixture.sheet
           "text/csv" true w).
  - right. simpl. tauto.
  - reflexivity.
Defined.



(** X17: with the cache not allowed, a current copy is not used. Though
    the target is a regular file whose modification time is the entry's
    modified date in whole seconds, the file is fetched again, the call
    reports a change, and the target holds what was received, with that
    same modification time. *)
Theorem download_to_local_no_cache_fetches_again (path : string)
    (normalized_entry : normal_entry) (mime_type : string) (w : world)
    (old : string) (tl : list (outcome unit)) (url : string)
    (pre : list chunk) (last : chunk) (rest : list (outcome chunk)) :
  mime_type = ne_mime_type normalized_entry
  \/ In mime_type (map fst (ne_download_links normalized_entry)) ->
  isfile (w_fs w) (file_download_temp_path (w_conf w)) = false ->
  w_fs w !! path
  = Some (File old (Q2Qc (inject_Z (dt_mktime (ne_modified_date normalized_entry))))) ->
  r_credentials (w_remote w) = Returns tt :: tl ->
  assoc_get mime_type (ne_download_links normalized_entry) = Some url ->
  r_chunks (w_remote w) = app (map Returns (app pre [last])) rest ->
  Forall (fun c => ch_done c = false) pre ->
  ch_done last = true ->
  let run := download_to_local path normalized_entry mime_type false w in
  fst run = Ok (ch_total_size last, true)
  /\ w_fs (snd run) !! path
     = Some (File (received (app pre [last]))
               (Q2Qc (inject_Z (dt_mktime (ne_modified_date normalized_entry)))))
  /\ w_trace (snd run)
     = app (w_trace (staged w))
         (app [EvGetCredentials; EvOpenWb path]
            (app (repeat (EvNextChunk url) (S (length pre)))
               [EvUtime path (w_clock w)
                  (Q2Qc (inject_Z (dt_mktime (ne_modified_date normalized_entry))))])).
Proof.
  intros He Ht Hold Hc Hu Hs Hpre Hlast run. subst run.
  change (Q2Qc (inject_Z (dt_mktime (ne_modified_date normalized_entry))))
    with (gd_mtime_epoch normalized_entry) in *.
  rewrite (download_to_local_decision _ _ _ _ _ (export_check_passes _ _ He) Ht).
  cbn iota.
  destruct (staged_quiet w) as (Hr & Hck & _).
  assert (Hd : w_fs (staged w) !! path <> Some Dir).
  { apply (staged_lookup_file w path old _ Ht) in Hold. rewrite Hold. discriminate. }
  rewrite <- Hr in Hc, Hs.
  destruct (download_fresh_completes path normalized_entry mime_type url
              (gd_mtime_epoch normalized_entry) tl pre last rest (staged w)
              Hc Hu Hd Hs Hpre Hlast) as (w' & -> & Hf & Htr).
  simpl. rewrite Hck in Htr. auto.
Qed.

Lemma download_to_local_no_cache_fetches_again_witness :
  let w := Fixture.world_of true (Fixture.staging_with_copy "%PDF-1.3" 5000)
             (Fixture.chunks_script [Returns tt]
                [Returns Fixture.first_half; Returns Fixture.second_half]) in
  let run := download_to_local "/tmp/gdrivefs/1a2b" Fixture.sheet
               "application/pdf" false w in
  fst run = Ok (8, true)
  /\ w_fs (snd run) !! "/tmp/gdrivefs/1a2b"
     = Some (File "%PDF-1.4" (Q2Qc (inject_Z 5000)))
  /\ w_trace (snd run)
     = [EvGetCredentials; EvOpenWb "/tmp/gdrivefs/1a2b";
        EvNextChunk "https://docs.example/export?format=pdf";
        EvNextChunk "https://docs.example/export?format=pdf";
        EvUtime "/tmp/gdrivefs/1a2b" (Q2Qc (inject_Z 1000)) (Q2Qc (inject_Z 5000))].
Proof.
  intros w run.
  apply (download_to_local_no_cache_fetches_again "/tmp/gdrivefs/1a2b"
           Fixture.sheet "application/pdf" w "%PDF-1.3" []
           "https://docs.example/export?format=pdf"
           [Fixture.first_half] Fixture.second_half []).
  - right. simpl. tauto.
  - reflexivity.
  - reflexivity.
  - reflexivity.
  - reflexivity.
  - reflexivity.
  - repeat constructor.
  - reflexivity.
Defined.

(** A call that does not use the cache is the fresh download. *)
Lemma download_to_local_uncached (path : string)
    (normalized_entry : normal_entry) (mime_type : string) (allow_cache : bool)
    (w : world) :
  mime_type = ne_mime_type normalized_entry
  \/ In mime_type (map fst (ne_download_links normalized_entry)) ->
  isfile (w_fs w) (file_download_temp_path (w_conf w)) = false ->
  allow_cache = false
  \/ (forall content,
        w_fs w !! path <> Some (File content (gd_mtime_epoch normalized_entry))) ->
  download_to_local path normalized_entry mime_type allow_cache w
  = download_fresh path normalized_entry mime_type
      (gd_mtime_epoch normalized_entry) (staged w).
Proof.
  intros He Ht [->|Hmiss].
  - by rewrite (download_to_local_decision _ _ _ _ _ (export_check_passes _ _ He) Ht).
  - destruct allow_cache.
    + by apply download_to_local_miss.
    + by rewrite (download_to_local_decision _ _ _ _ _ (export_check_passes _ _ He) Ht).
Qed.

(** X18: asked for the entry's own MIME type when the entry has no
    download link for it, a call that does not use the cache gets past the
    export check and raises [KeyError] once the credentials are read: the
    target is not opened, and nothing is asked of the download service. *)
Theorem download_to_local_own_type_without_link (path : string)
    (normalized_entry : normal_entry) (allow_cache : bool) (w : world)
    (tl : list (outcome unit)) :
  assoc_get (ne_mime_type normalized_entry) (ne_download_links normalized_entry)
  = None ->
  isfile (w_fs w) (file_download_temp_path (w_conf w)) = false ->
  allow_cache = false
  \/ (forall content,
        w_fs w !! path <> Some (File content (gd_mtime_epoch normalized_entry))) ->
  r_credentials (w_remote w) = Returns tt :: tl ->
  let run := download_to_local path normalized_entry
               (ne_mime_type normalized_entry) allow_cache w in
  fst run = Raise (KeyError (ne_mime_type normalized_entry))
  /\ w_fs (snd run) = w_fs (staged w)
  /\ r_chunks (w_remote (snd run)) = r_chunks (w_remote w)
  /\ w_trace (snd run) = app (w_trace (staged w)) [EvGetCredentials].
Proof.
  intros Hu Ht Hnc Hc run. subst run.
  rewrite (download_to_local_uncached _ _ _ _ _ (or_introl eq_refl) Ht Hnc).
  destruct (staged_quiet w) as (Hr & _ & _). rewrite <- Hr in Hc. rewrite <- Hr.
  assert (Hrun : exists w',
    download_fresh path normalized_entry (ne_mime_type normalized_entry)
      (gd_mtime_epoch normalized_entry) (staged w)
    = (Raise (KeyError (ne_mime_type normalized_entry)), w')
    /\ w_fs w' = w_fs (staged w)
    /\ r_chunks (w_remote w') = r_chunks (w_remote (staged w))
    /\ w_trace w' = app (w_trace (staged w)) [EvGetCredentials]).
  { unfold download_fresh, get_authed_http, get_credentials.
    unfold bind at 1. unfold bind at 1.
    rewrite (reply_returns _ _ _ _ _ _ Hc). unfold ret at 1.
    rewrite Hu. unfold bind at 1. unfold raise.
    eexists. split; [reflexivity|]. simpl. auto. }
  destruct Hrun as (w' & -> & H1 & H2 & H3). simpl. auto.
Qed.

Lemma download_to_local_own_type_without_link_witness :
  let w := Fixture.world_of true Fixture.staging
             (Fixture.chunks_script [Returns tt]
                [Returns Fixture.second_half]) in
  let run := download_to_local "/tmp/gdrivefs/1a2b" Fixture.sheet
               "application/vnd.google-apps.spreadsheet" true w in
  fst run = Raise (KeyError "application/vnd.google-apps.spreadsheet")
  /\ w_fs (snd run) = Fixture.staging
  /\ r_chunks (w_remote (snd run)) = [Returns Fixture.second_half]
  /\ w_trace (snd run) = [EvGetCredentials].
Proof.
  intros w run.
  apply (download_to_local_own_type_without_link "/tmp/gdrivefs/1a2b"
           Fixture.sheet true w []).
  - reflexivity.
  - reflexivity.
  - right. intros content H. vm_compute in H. discriminate.
  - reflexivity.
Defined.

Lemma staged_has_dir (w : world) :
  isfile (w_fs w) (file_download_temp_path (w_conf w)) = false ->
  w_fs (staged w) !! file_download_temp_path (w_conf w) = Some Dir.
Proof.
  unfold staged, isfile, isdir. intros Ht.
  destruct (w_fs w !! file_download_temp_path (w_conf w)) as [[|c m]|] eqn:E;
    try discriminate; simpl; [exact E|apply lookup_insert_eq].
Qed.

Lemma staged_same_conf (w : world) : same_conf w (staged w).
Proof. unfold same_conf, staged. by destruct (isdir _ _). Qed.

Lemma staged_of_staged (w : world) :
  w_fs w !! file_download_temp_path (w_conf w) = Some Dir -> staged w = w.
Proof. intros H. unfold staged, isdir. by rewrite H. Qed.

(** X19: a download that went through is found again. After a call that
    fetched the file, a second call for the same target with the cache
    allowed is a cache hit: it returns the number of bytes received, with
    the flag [False], and leaves the world as the first call left it. *)
Theorem download_to_local_then_cached (path : string)
    (normalized_entry : normal_entry) (mime_type : string) (allow_cache : bool)
    (w : world) (tl : list (outcome unit)) (url : string)
    (pre : list chunk) (last : chunk) (rest : list (outcome chunk)) :
  mime_type = ne_mime_type normalized_entry
  \/ In mime_type (map fst (ne_download_links normalized_entry)) ->
  isfile (w_fs w) (file_download_temp_path (w_conf w)) = false ->
  allow_cache = false
  \/ (forall content,
        w_fs w !! path <> Some (File content (gd_mtime_epoch normalized_entry))) ->
  r_credentials (w_remote w) = Returns tt :: tl ->
  assoc_get mime_type (ne_download_links normalized_entry) = Some url ->
  w_fs (staged w) !! path <> Some Dir ->
  r_chunks (w_remote w) = app (map Returns (app pre [last])) rest ->
  Forall (fun c => ch_done c = false) pre ->
  ch_done last = true ->
  let w1 := snd (download_to_local path normalized_entry mime_type allow_cache w) in
  download_to_local path normalized_entry mime_type true w1
  = (Ok (Z.of_nat (String.length (received (app pre [last]))), false), w1).
Proof.
  intros He Ht Hnc Hc Hu Hd Hs Hpre Hlast w1. subst w1.
  rewrite (download_to_local_uncached _ _ _ _ _ He Ht Hnc).
  destruct (staged_quiet w) as (Hr & _ & _).
  rewrite <- Hr in Hc, Hs.
  pose proof (download_fresh_same_conf path normalized_entry mime_type
                (gd_mtime_epoch normalized_entry) (staged w)) as Hconf.
  pose proof (download_fresh_same_fs path normalized_entry mime_type
                (gd_mtime_epoch normalized_entry) (staged w)) as Hfs.
  destruct (download_fresh_completes path normalized_entry mime_type url
              (gd_mtime_epoch normalized_entry) tl pre last rest (staged w)
              Hc Hu Hd Hs Hpre Hlast) as (w' & Hrun & Hf & _).
  rewrite Hrun in Hconf, Hfs |- *. simpl in Hconf, Hfs |- *.
  unfold same_conf in Hconf. rewrite (staged_same_conf w) in Hconf.
  assert (Hdir : w_fs w' !! file_download_temp_path (w_conf w') = Some Dir).
  { rewrite Hconf, Hfs; [by apply staged_has_dir|].
    intros [Heq|[]]. apply Hd. rewrite Heq. by apply staged_has_dir. }
  assert (Ht' : isfile (w_fs w') (file_download_temp_path (w_conf w')) = false)
    by (unfold isfile; by rewrite Hdir).
  rewrite (download_to_local_decision _ _ _ _ _ (export_check_passes _ _ He) Ht').
  rewrite (staged_of_staged w' Hdir), Hf, Qeq_bool_refl. reflexivity.
Qed.

Lemma download_to_local_then_cached_witness :
  let w := Fixture.world_of true (Fixture.staging_with_copy "%PDF-1.3" 4999)
             (Fixture.chunks_script [Returns tt]
                [Returns Fixture.first_half; Returns Fixture.second_half]) in
  let w1 := snd (download_to_local "/tmp/gdrivefs/1a2b" Fixture.sheet
                   "application/pdf" true w) in
  download_to_local "/tmp/gdrivefs/1a2b" Fixture.sheet "application/pdf" true w1
  = (Ok (8, false), w1).
Proof.
  intros w w1.
  apply (download_to_local_then_cached "/tmp/gdrivefs/1a2b" Fixture.sheet
           "application/pdf" true w [] "https://docs.example/export?format=pdf"
           [Fixture.first_half] Fixture.second_half []).
  - right. simpl. tauto.
  - reflexivity.
  - right. intros content H. vm_compute in H. discriminate.
  - reflexivity.
  - reflexivity.
  - vm_compute. discriminate.
  - reflexivity.
  - repeat constructor.
  - reflexivity.
Defined.

(** ** Inserts and updates: the requests sent *)

Section Requests.

Variable NormalEntry : string -> json -> exn + normal_entry.
Variable get_flat_normal_fs_time_from_dt : Qc -> string.
Variable split_path_nolookups :
  string -> exn + (string * string * option string * bool).
Variable MediaFileUpload : string -> string -> exn + media_upload.

(** The request of an update, and what the call makes of the reply. *)
Lemma update_entry_request (normalized_entry : normal_entry)
    (kw : update_kwargs) (w w0 : world) (um : option media_upload) :
  let mime_type := if truthy_str (uk_mime_type kw) then str_of (uk_mime_type kw)
                   else ne_mime_type normalized_entry in
  let args :=
    {| ua_fileId := ne_id normalized_entry;
       ua_body := update_body mime_type (uk_filename kw) (uk_parents kw)
                    (default (Some false) (uk_is_hidden kw)) (uk_description kw)
                    (uk_modified_datetime kw)
                    (get_flat_normal_fs_time_from_dt (w_clock w0))
                    (uk_accessed_datetime kw);
       ua_setModifiedDate := true;
       ua_updateViewedDate := match uk_accessed_datetime kw with
                              | Some _ => 1
                              | None => 0
                              end;
       ua_media_body := um |} in
  get_client w = (Ok tt, w0) ->
  media_body_of MediaFileUpload (uk_data_filepath kw) mime_type w0 = (Ok um, w0) ->
  update_entry NormalEntry get_flat_normal_fs_time_from_dt MediaFileUpload
    normalized_entry kw w
  = (raw <- files_update_execute args ;;
     lift (NormalEntry "update_entry" raw)) w0.
Proof.
  intros mime_type args Hc Hm. unfold update_entry, now_phrase, time_time.
  unfold bind at 1. rewrite Hc. unfold bind at 1. unfold bind at 1.
  unfold ret at 1. unfold bind at 1. fold mime_type. rewrite Hm.
  unfold bind. destruct (files_update_execute _ w0) as [[raw|e|] w1]; try reflexivity.
  destruct (lift (NormalEntry "update_entry" raw) w1) as [[ne|e|] w2]; reflexivity.
Qed.


Lemma execute_then_lift_trace {A B} (ev : event)
    (script : remote -> list (outcome A))
    (rest : remote -> list (outcome A) -> remote) (f : A -> exn + B) (w : world) :
  w_trace (snd ((raw <- reply ev script rest ;; lift (f raw)) w))
  = app (w_trace w) [ev].
Proof.
  unfold bind. pose proof (reply_trace ev script rest w) as Ht.
  destruct (reply ev script rest w) as [[raw|e|] w1]; simpl in *; try exact Ht.
  destruct (f raw); exact Ht.
Qed.

(** X20: an update addresses the entry by its id, always asks for the
    modification date to be set, asks for the viewed date to be updated
    exactly when an access time is given, and returns the service's reply
    normalised; a reply that does not normalise raises though the update
    has been made. *)
Theorem update_entry_call (normalized_entry : normal_entry)
    (kw : update_kwargs) (w w0 : world) (um : option media_upload)
    (raw : json) (tl : list (outcome json)) :
  get_client w = (Ok tt, w0) ->
  media_body_of MediaFileUpload (uk_data_filepath kw)
    (if truthy_str (uk_mime_type kw) then str_of (uk_mime_type kw)
     else ne_mime_type normalized_entry) w0 = (Ok um, w0) ->
  r_files_update (w_remote w0) = Returns raw :: tl ->
  let run := update_entry NormalEntry get_flat_normal_fs_time_from_dt
               MediaFileUpload normalized_entry kw w in
  (exists args,
      w_trace (snd run) = app (w_trace w0) [EvFilesUpdate args]
      /\ ua_fileId args = ne_id normalized_entry
      /\ ua_setModifiedDate args = true
      /\ ua_updateViewedDate args = (if given (uk_accessed_datetime kw) then 1 else 0)
      /\ ua_media_body args = um)
  /\ fst run = match NormalEntry "update_entry" raw with
               | inr entry => Ok entry
               | inl e => Raise e
               end
  /\ r_files_update (w_remote (snd run)) = tl.
Proof.
  intros Hc Hm Hs run. subst run.
  rewrite (update_entry_request _ _ _ _ _ Hc Hm).
  split.
  - eexists. split; [apply execute_then_lift_trace|].
    simpl. repeat split. by destruct (uk_accessed_datetime kw).
  - unfold bind, files_update_execute. rewrite (reply_returns _ _ _ _ _ _ Hs).
    destruct (NormalEntry "update_entry" raw); simpl; auto.
Qed.


(** X22: [rename] sends an update that sets the title to the stripped
    file name and the hidden label to what the path says, keeps the
    entry's own MIME type whatever type the path names, and carries no
    media; when the path cannot be split nothing is sent. *)
Theorem rename_call (normalized_entry : normal_entry) (new_filename : string)
    (w w0 : world) :
  get_client w = (Ok tt, w0) ->
  let run := rename NormalEntry get_flat_normal_fs_time_from_dt
               split_path_nolookups MediaFileUpload normalized_entry
               new_filename w in
  match split_path_nolookups new_filename with
  | inl e => run = (Raise e, w)
  | inr (path, filename_stripped, mime_type, is_hidden) =>
      exists args,
        w_trace (snd run) = app (w_trace w0) [EvFilesUpdate args]
        /\ ua_fileId args = ne_id normalized_entry
        /\ ua_media_body args = None
        /\ ua_body args !! "title" = Some (JStr filename_stripped)
        /\ ua_body args !! "labels" = Some (hidden_label is_hidden)
        /\ ua_body args !! "mimeType" = Some (JStr (ne_mime_type normalized_entry))
        /\ ua_body args !! "parents" = None
        /\ ua_body args !! "description" = None
  end.
Proof.
  intros Hc run. subst run. unfold rename.
  destruct (split_path_nolookups new_filename)
    as [e|[[[path filename_stripped] mime_type] is_hidden]]; [reflexivity|].
  unfold lift, ret at 1. unfold bind at 1. cbv beta iota.
  rewrite (update_entry_request _ _ _ _ None Hc); [|reflexivity].
  eexists. split; [apply execute_then_lift_trace|].
  cbn [ua_fileId ua_media_body ua_body].
  split; [reflexivity|]. split; [reflexivity|].
  match goal with
  | |- context [update_body ?m ?f ?p ?h ?d ?md ?now ?ad] =>
      pose proof (update_body_lookup normalized_entry
                    {| uk_filename := Some filename_stripped;
                       uk_data_filepath := None; uk_mime_type := None;
                       uk_parents := None; uk_modified_datetime := None;
                       uk_accessed_datetime := None;
                       uk_is_hidden := Some (Some is_hidden);
                       uk_description := None |} now) as H
  end.
  destruct H as (H1 & _ & H3 & H4 & H5 & H6 & _). simpl in *. auto.
Qed.

(** X23: [truncate] sends an update whose media body is [/dev/null] with
    the entry's own MIME type, and with it the hidden label set to false
    and a fresh modification date; it changes neither title nor parents. *)
Theorem truncate_call (normalized_entry : normal_entry) (w w0 : world)
    (m : media_upload) :
  get_client w = (Ok tt, w0) ->
  MediaFileUpload "/dev/null" (ne_mime_type normalized_entry) = inr m ->
  exists args,
    w_trace (snd (truncate NormalEntry get_flat_normal_fs_time_from_dt
                    MediaFileUpload normalized_entry w))
    = app (w_trace w0) [EvFilesUpdate args]
    /\ ua_fileId args = ne_id normalized_entry
    /\ ua_media_body args = Some m
    /\ ua_body args !! "labels" = Some (hidden_label false)
    /\ ua_body args !! "modifiedDate"
       = Some (JStr (get_flat_normal_fs_time_from_dt (w_clock w0)))
    /\ ua_body args !! "title" = None
    /\ ua_body args !! "parents" = None.
Proof.
  intros Hc Hm. unfold truncate.
  assert (Htr : forall (mm : M normal_entry) (w : world),
             w_trace (snd (catch (mm ;;; ret tt) (fun e => raise e) w))
             = w_trace (snd (mm w))).
  { intros mm w'. unfold catch, bind. destruct (mm w') as [[a|e|] w1]; reflexivity. }
  rewrite Htr.
  rewrite (update_entry_request _ _ _ _ (Some m) Hc).
  2: { unfold media_body_of. simpl. unfold lift, bind. by rewrite Hm. }
  eexists. split; [apply execute_then_lift_trace|].
  cbn [ua_fileId ua_media_body ua_body].
  split; [reflexivity|]. split; [reflexivity|].
  match goal with
  | |- context [update_body ?mt ?f ?p ?h ?d ?md ?now ?ad] =>
      pose proof (update_body_lookup normalized_entry
                    {| uk_filename := None;
                       uk_data_filepath := Some "/dev/null"; uk_mime_type := None;
                       uk_parents := None; uk_modified_datetime := None;
                       uk_accessed_datetime := None;
                       uk_is_hidden := None;
                       uk_description := None |} now) as H
  end.
  destruct H as (_ & H2 & H3 & H4 & H5 & _). simpl in *. auto.
Qed.

End Requests.

Lemma update_entry_call_witness :
  let w := Fixture.world_of true ∅
             (Sample.writes_script [] [Returns (Fixture.raw_file "1a2b")]) in
  let run := update_entry Fixture.NormalEntry
               Fixture.get_flat_normal_fs_time_from_dt Fixture.MediaFileUpload
               Fixture.sheet Sample.touch_kwargs w in
  (exists args,
      w_trace (snd run) = app (w_trace w) [EvFilesUpdate args]
      /\ ua_fileId args = "1a2b"
      /\ ua_setModifiedDate args = true
      /\ ua_updateViewedDate args = 1
      /\ ua_media_body args = None)
  /\ fst run = Ok (Fixture.file_entry "1a2b")
  /\ r_files_update (w_remote (snd run)) = [].
Proof.
  intros w run.
  apply (update_entry_call Fixture.NormalEntry
           Fixture.get_flat_normal_fs_time_from_dt Fixture.MediaFileUpload
           Fixture.sheet Sample.touch_kwargs w w None
           (Fixture.raw_file "1a2b") []);
    reflexivity.
Defined.


Lemma rename_call_witness :
  let w := Fixture.world_of true ∅ Fixture.no_replies in
  exists args,
    w_trace (snd (rename Fixture.NormalEntry
                    Fixture.get_flat_normal_fs_time_from_dt
                    Sample.split_path_nolookups Fixture.MediaFileUpload
                    Fixture.sheet "/.report#text" w))
    = app (w_trace w) [EvFilesUpdate args]
    /\ ua_fileId args = "1a2b"
    /\ ua_media_body args = None
    /\ ua_body args !! "title" = Some (JStr "report")
    /\ ua_body args !! "labels" = Some (hidden_label true)
    /\ ua_body args !! "mimeType"
       = Some (JStr "application/vnd.google-apps.spreadsheet")
    /\ ua_body args !! "parents" = None
    /\ ua_body args !! "description" = None.
Proof.
  intros w.
  apply (rename_call Fixture.NormalEntry Fixture.get_flat_normal_fs_time_from_dt
           Sample.split_path_nolookups Fixture.MediaFileUpload Fixture.sheet
           "/.report#text" w w).
  reflexivity.
Defined.

Lemma truncate_call_witness :
  let w := Fixture.world_of true ∅ Fixture.no_replies in
  exists args,
    w_trace (snd (truncate Fixture.NormalEntry
                    Fixture.get_flat_normal_fs_time_from_dt
                    Fixture.MediaFileUpload Fixture.sheet w))
    = app (w_trace w) [EvFilesUpdate args]
    /\ ua_fileId args = "1a2b"
    /\ ua_media_body args
       = Some {| mu_filename := "/dev/null";
                 mu_mimetype := "application/vnd.google-apps.spreadsheet" |}
    /\ ua_body args !! "labels" = Some (hidden_label false)
    /\ ua_body args !! "modifiedDate" = Some (JStr "2013-05-01T12:00:00.000Z")
    /\ ua_body args !! "title" = None
    /\ ua_body args !! "parents" = None.
Proof.
  intros w.
  apply (truncate_call Fixture.NormalEntry Fixture.get_flat_normal_fs_time_from_dt
           Fixture.MediaFileUpload Fixture.sheet w w
           {| mu_filename := "/dev/null";
              mu_mimetype := "application/vnd.google-apps.spreadsheet" |});
    reflexivity.
Defined.

(** ** Parents and single entries *)

Section ParentsMore.

Variable parents_list_execute : string -> M json.

Lemma ids_of_all (entries ids : list json) :
  Forall2 (fun entry i => exists fields,
             entry = JObj fields /\ assoc_get "id" fields = Some i) entries ids ->
  ids_of entries = inr ids.
Proof.
  induction 1 as [|entry i entries ids (fields & -> & Hid) _ IH]; simpl;
    [reflexivity|].
  by rewrite Hid, IH.
Qed.

Lemma ids_of_missing (good ids more : list json) (fields : list (string * json)) :
  Forall2 (fun entry i => exists fs,
             entry = JObj fs /\ assoc_get "id" fs = Some i) good ids ->
  assoc_get "id" fields = None ->
  ids_of (app good (JObj fields :: more)) = inl (KeyError "id").
Proof.
  induction 1 as [|entry i good ids (fs & -> & Hid) _ IH]; intros Hn; simpl.
  - by rewrite Hn.
  - by rewrite Hid, IH.
Qed.

(** X24: [get_parents_containing_id] returns the id of every item of the
    reply, in the reply's order, and leaves the world as the request left
    it. *)
Theorem get_parents_containing_id_ids (child_id : string) (w w0 w1 : world)
    (fields : list (string * json)) (entries ids : list json) :
  get_client w = (Ok tt, w0) ->
  parents_list_execute child_id w0 = (Ok (JObj fields), w1) ->
  assoc_get "items" fields = Some (JArr entries) ->
  Forall2 (fun entry i => exists fs,
             entry = JObj fs /\ assoc_get "id" fs = Some i) entries ids ->
  get_parents_containing_id parents_list_execute child_id w = (Ok ids, w1).
Proof.
  intros Hc He Hi Hids. unfold get_parents_containing_id.
  unfold bind at 1. rewrite Hc. unfold bind at 1. rewrite He.
  unfold py_getitem. rewrite Hi. unfold bind at 1. simpl.
  unfold bind. simpl. by rewrite (ids_of_all _ _ Hids).
Qed.

(** X25: a reply without [items] makes [get_parents_containing_id] raise
    [KeyError]; so does an item without [id], and then none of the ids
    before it is returned. *)
Theorem get_parents_containing_id_missing_key (child_id : string)
    (w w0 w1 : world) (fields : list (string * json)) :
  get_client w = (Ok tt, w0) ->
  parents_list_execute child_id w0 = (Ok (JObj fields), w1) ->
  (assoc_get "items" fields = None ->
   get_parents_containing_id parents_list_execute child_id w
   = (Raise (KeyError "items"), w1))
  /\ (forall good ids bad more,
        assoc_get "items" fields = Some (JArr (app good (JObj bad :: more))) ->
        Forall2 (fun entry i => exists fs,
                   entry = JObj fs /\ assoc_get "id" fs = Some i) good ids ->
        assoc_get "id" bad = None ->
        get_parents_containing_id parents_list_execute child_id w
        = (Raise (KeyError "id"), w1)).
Proof.
  intros Hc He. split.
  - intros Hi. unfold get_parents_containing_id.
    unfold bind at 1. rewrite Hc. unfold bind at 1. rewrite He.
    unfold py_getitem. rewrite Hi. reflexivity.
  - intros good ids bad more Hi Hgood Hbad. unfold get_parents_containing_id.
    unfold bind at 1. rewrite Hc. unfold bind at 1. rewrite He.
    unfold py_getitem at 1. rewrite Hi. unfold bind at 1. simpl.
    unfold bind. simpl. by rewrite (ids_of_missing _ _ _ _ Hgood Hbad).
Qed.

End ParentsMore.

Section EntriesMore.

Variable NormalEntry : string -> json -> exn + normal_entry.
Variable files_get_execute : string -> M json.

Lemma get_entries_from_keys (entry_ids : list string) :
  forall (retrieved r : gmap string (option normal_entry)) (w w' : world),
    get_entries_from NormalEntry files_get_execute entry_ids retrieved w
    = (Ok r, w') ->
    dom r = dom retrieved ∪ list_to_set entry_ids.
Proof.
  induction entry_ids as [|entry_id entry_ids IH]; intros retrieved r w w' Hrun;
    simpl in Hrun.
  - unfold ret in Hrun. inversion Hrun; subst. simpl. set_solver.
  - unfold bind at 1, catch in Hrun.
    destruct (proxied_method true (get_entry NormalEntry files_get_execute entry_id) w)
      as [[entry|e|] w1]; try discriminate.
    apply IH in Hrun. rewrite Hrun, dom_insert_L. simpl. set_solver.
Qed.

(** X26: the dict [get_entries] returns has the requested ids as its keys,
    all of them and no other. *)
Theorem get_entries_keys (entry_ids : list string)
    (r : gmap string (option normal_entry)) (w w' : world) :
  get_entries NormalEntry files_get_execute entry_ids w = (Ok r, w') ->
  forall entry_id, is_Some (r !! entry_id) <-> In entry_id entry_ids.
Proof.
  intros Hrun entry_id. unfold get_entries in Hrun.
  apply get_entries_from_keys in Hrun.
  rewrite <- elem_of_dom, Hrun, dom_empty_L, <- list_elem_of_In. set_solver.
Qed.

(** The retry loop under a condition on the world that the method and the
    sleeps keep: a method that always fails with a transient error runs it
    dry. *)
Lemma proxied_loop_runs_dry_inv {A} (I : world -> Prop) (auto_refresh : bool)
    (method : M A) :
  (forall w0, I w0 ->
     exists e w1, method w0 = (Raise e, w1) /\ is_transient e = true /\ I w1) ->
  (forall n w0, I w0 -> I (snd (backoff_sleep n w0))) ->
  forall (ns : list Z) (error : option json) (w : world),
    I w ->
    exists w', proxied_loop auto_refresh method ns error w = (Ok None, w') /\ I w'.
Proof.
  intros Hm Hs. induction ns as [|n ns IH]; intros error w Hw; simpl.
  - unfold ret. eauto.
  - destruct (Hm w Hw) as (e & w1 & -> & He & Hw1).
    pose proof (Hs n w1 Hw1) as Hw2.
    destruct (backoff_sleep_ok n w1) as [w2 Hb]. rewrite Hb in Hw2. simpl in Hw2.
    destruct e; simpl in He; try discriminate;
      unfold bind at 1; rewrite Hb; by apply IH.
Qed.

(** X27: when the request for an entry meets a transient connection error
    at every attempt, [get_entries] does not raise: each proxied fetch gives
    up after its five attempts and hands back [None], and the dict maps
    every requested id to [None]. *)
Theorem get_entries_none_on_exhaustion (entry_ids : list string) (w : world) :
  w_client w = true ->
  (forall entry_id w0,
      exists e, files_get_execute entry_id w0 = (Raise e, w0)
                /\ is_transient e = true) ->
  exists r w',
    get_entries NormalEntry files_get_execute entry_ids w = (Ok r, w')
    /\ forall entry_id, In entry_id entry_ids -> r !! entry_id = Some None.
Proof.
  intros Hw Hget. unfold get_entries.
  assert (Hloop : forall ids retrieved w0,
             w_client w0 = true ->
             exists r w',
               get_entries_from NormalEntry files_get_execute ids retrieved w0
               = (Ok r, w')
               /\ (forall entry_id, In entry_id ids -> r !! entry_id = Some None)
               /\ (forall entry_id, ~ In entry_id ids ->
                                    r !! entry_id = retrieved !! entry_id)).
  { induction ids as [|entry_id ids IH]; intros retrieved w0 Hw0; simpl.
    - exists retrieved, w0. unfold ret. split; [reflexivity|]. split; [tauto|auto].
    - destruct (proxied_loop_runs_dry_inv (fun w1 => w_client w1 = true) true
                  (get_entry NormalEntry files_get_execute entry_id))
        with (ns := seqZ 0 5) (error := @None json) (w := w0)
        as (w1 & Hp & Hw1); [| |exact Hw0|].
      + intros w2 Hw2. destruct (Hget entry_id w2) as (e & He & Ht).
        exists e, w2. unfold get_entry. unfold bind at 1.
        rewrite (get_client_built _ Hw2). unfold bind at 1, catch.
        rewrite He. auto.
      + intros n w2 Hw2. exact Hw2.
      + unfold bind at 1, catch. unfold proxied_method. rewrite Hp.
        destruct (IH (<[entry_id := None]> retrieved) w1 Hw1)
          as (r & w' & Hrun & Hin & Hout).
        exists r, w'. split; [exact Hrun|]. split.
        * intros i [<-|Hi].
          -- destruct (decide (entry_id ∈ ids)) as [Hi|Hni].
             ++ apply Hin. by apply list_elem_of_In.
             ++ rewrite Hout; [apply lookup_insert_eq|].
                intros Hi. apply Hni. by apply list_elem_of_In.
          -- by apply Hin.
        * intros i Hni. rewrite Hout; [|tauto].
          apply lookup_insert_ne. intros <-. apply Hni. by left. }
  destruct (Hloop entry_ids ∅ w Hw) as (r & w' & Hrun & Hin & _). eauto.
Qed.

End EntriesMore.

Lemma get_parents_containing_id_ids_witness :
  let reply := JObj [("kind", JStr "drive#parentList");
                     ("items", JArr [JObj [("id", JStr "p1")];
                                     JObj [("id", JStr "p2"); ("isRoot", JBool true)]])] in
  let w := Fixture.world_of true ∅ Fixture.no_replies in
  get_parents_containing_id (Sample.parents_reply reply) "1a2b" w
  = (Ok [JStr "p1"; JStr "p2"], w).
Proof.
  intros reply w.
  apply (get_parents_containing_id_ids (Sample.parents_reply reply) "1a2b" w w w
           [("kind", JStr "drive#parentList");
            ("items", JArr [JObj [("id", JStr "p1")];
                            JObj [("id", JStr "p2"); ("isRoot", JBool true)]])]
           [JObj [("id", JStr "p1")];
            JObj [("id", JStr "p2"); ("isRoot", JBool true)]]
           [JStr "p1"; JStr "p2"]).
  - reflexivity.
  - reflexivity.
  - reflexivity.
  - repeat constructor; eexists; split; reflexivity.
Defined.

Lemma get_parents_containing_id_missing_key_witness :
  let w := Fixture.world_of true ∅ Fixture.no_replies in
  get_parents_containing_id
    (Sample.parents_reply (JObj [("kind", JStr "drive#parentList")])) "1a2b" w
  = (Raise (KeyError "items"), w).
Proof.
  intros w.
  destruct (get_parents_containing_id_missing_key
              (Sample.parents_reply (JObj [("kind", JStr "drive#parentList")]))
              "1a2b" w w w [("kind", JStr "drive#parentList")] eq_refl eq_refl)
    as [H _].
  apply H. reflexivity.
Defined.

Lemma get_entries_keys_witness :
  exists r,
    fst (get_entries Fixture.NormalEntry
           (Sample.always_returns (Fixture.raw_file "x")) ["a"; "b"; "a"]
           (Fixture.world_of true ∅ Fixture.no_replies)) = Ok r
    /\ forall entry_id, is_Some (r !! entry_id) <-> In entry_id ["a"; "b"; "a"].
Proof.
  destruct (get_entries Fixture.NormalEntry
              (Sample.always_returns (Fixture.raw_file "x")) ["a"; "b"; "a"]
              (Fixture.world_of true ∅ Fixture.no_replies))
    as [[r|e|] w'] eqn:E.
  - exists r. split; [reflexivity|].
    exact (get_entries_keys Fixture.NormalEntry
             (Sample.always_returns (Fixture.raw_file "x")) ["a"; "b"; "a"] r
             (Fixture.world_of true ∅ Fixture.no_replies) w' E).
  - vm_compute in E. discriminate.
  - vm_compute in E. discriminate.
Defined.

Lemma get_entries_none_on_exhaustion_witness :
  exists r w',
    get_entries Fixture.NormalEntry Sample.always_bad_status ["a"; "b"]
      (Fixture.world_of true ∅ Fixture.no_replies) = (Ok r, w')
    /\ forall entry_id, In entry_id ["a"; "b"] -> r !! entry_id = Some None.
Proof.
  apply (get_entries_none_on_exhaustion Fixture.NormalEntry
           Sample.always_bad_status ["a"; "b"]
           (Fixture.world_of true ∅ Fixture.no_replies)).
  - reflexivity.
  - intros entry_id w0. eexists. split; reflexivity.
Defined.

(** ** What the proxy leaves alone *)

Lemma backoff_sleep_same_fs (paths : list string) (n : Z) :
  respects (same_fs_outside paths) (backoff_sleep n).
Proof. by intros w p _. Qed.

Lemma backoff_sleep_same_conf (n : Z) : respects same_conf (backoff_sleep n).
Proof. by intros w. Qed.

(** X28: the proxy writes no file of its own: a path the method never
    changes is the same after the proxied call, however many times the
    method was tried, slept on or refreshed for. *)
Theorem proxied_method_touches_no_file {A} (auto_refresh : bool)
    (method : M A) (paths : list string) :
  (forall w p, ~ In p paths -> w_fs (snd (method w)) !! p = w_fs w !! p) ->
  forall w p, ~ In p paths ->
    w_fs (snd (proxied_method auto_refresh method w)) !! p = w_fs w !! p.
Proof.
  intros Hm. unfold proxied_method.
  apply (respects_proxied_loop (same_fs_outside paths)
           (same_fs_outside_refl paths) (same_fs_outside_trans paths)
           auto_refresh method Hm (backoff_sleep_same_fs paths)
           (reply_same_fs paths _ _ _)).
Qed.

Lemma get_client_same_fs (paths : list string) :
  respects (same_fs_outside paths) get_client.
Proof.
  intros w p _. unfold get_client. destruct (w_client w); [reflexivity|].
  unfold get_authed_http, get_credentials, build, reply, catch, bind, log,
    get_remote, set_remote, get_conf, set_client, ret, raise. simpl.
  destruct (r_credentials (w_remote w)) as [|[[]|e] tl]; simpl; try reflexivity.
  destruct (r_build (w_remote w)) as [|[[]|e] tl']; reflexivity.
Qed.

Lemma proxied_method_touches_no_file_witness :
  let w := Fixture.world_of false (Fixture.staging_with_copy "%PDF-1.3" 5000)
             (Fixture.build_script [Returns tt; Returns tt]
                [Raises (SSLError "handshake"); Returns tt]) in
  w_fs (snd (proxied_method true get_about_info w)) !! "/tmp/gdrivefs/1a2b"
  = Some (File "%PDF-1.3" (Q2Qc (inject_Z 5000))).
Proof.
  intros w.
  rewrite (proxied_method_touches_no_file true get_about_info []);
    [reflexivity| |tauto].
  intros w0 p _. unfold get_about_info.
  apply (respects_bind (same_fs_outside []) (same_fs_outside_trans []));
    [apply get_client_same_fs| |tauto].
  intros _. apply (respects_bind (same_fs_outside []) (same_fs_outside_trans []));
    [apply reply_same_fs|].
  intros a. apply (respects_ret (same_fs_outside []) (same_fs_outside_refl [])).
Defined.

(** ** A download that is tried again starts over *)

Lemma next_chunk_same_credentials (url path : string) :
  respects same_credentials (next_chunk url path).
Proof.
  intros w. unfold same_credentials, next_chunk, reply, write_append, bind, log,
    get_remote, set_remote, get_fs, time_time, set_fs, ret, raise. simpl.
  destruct (r_chunks (w_remote w)) as [|[c|e] tl]; simpl; try reflexivity.
  destruct (w_fs w !! path) as [[|content m]|]; reflexivity.
Qed.

Lemma same_credentials_refl (w : world) : same_credentials w w.
Proof. reflexivity. Qed.

Lemma same_credentials_trans (w1 w2 w3 : world) :
  same_credentials w1 w2 -> same_credentials w2 w3 -> same_credentials w1 w3.
Proof. unfold same_credentials. congruence. Qed.

(** The start of a fresh download, with what is left of the scripts. *)
Lemma download_fresh_opens_scripts (path : string) (normalized_entry : normal_entry)
    (mime_type url : string) (gd_mtime : Qc) (tl : list (outcome unit)) (w : world) :
  r_credentials (w_remote w) = Returns tt :: tl ->
  assoc_get mime_type (ne_download_links normalized_entry) = Some url ->
  w_fs w !! path <> Some Dir ->
  exists wo,
    download_fresh path normalized_entry mime_type gd_mtime w
    = (total_size <- download_chunks (S (length (r_chunks (w_remote w)))) url path ;;
       now <- time_time ;;
       utime path now gd_mtime ;;;
       ret (total_size, true)) wo
    /\ w_fs wo = <[path := File EmptyString (w_clock w)]> (w_fs w)
    /\ r_credentials (w_remote wo) = tl
    /\ r_chunks (w_remote wo) = r_chunks (w_remote w)
    /\ w_clock wo = w_clock w.
Proof.
  intros Hc Hu Hd. unfold download_fresh, get_authed_http, get_credentials.
  unfold bind at 1. unfold bind at 1.
  rewrite (reply_returns _ _ _ _ _ _ Hc). unfold ret at 1.
  rewrite Hu. unfold bind at 1. unfold ret at 1. unfold bind at 1.
  unfold open_wb, bind at 1, log at 1. unfold bind at 1, get_fs at 1.
  unfold bind at 1, time_time at 1. simpl.
  assert (Ho : forall (w1 : world),
             (match w_fs w !! path with
              | Some Dir => raise (IOError path)
              | _ => set_fs (<[path := File EmptyString (w_clock w)]> (w_fs w))
              end) w1
             = set_fs (<[path := File EmptyString (w_clock w)]> (w_fs w)) w1).
  { intros w1. destruct (w_fs w !! path) as [[|c m]|]; try reflexivity. done. }
  rewrite Ho. unfold set_fs at 1. unfold bind at 1, get_remote at 1. simpl.
  eexists. split; [reflexivity|]. simpl. auto.
Qed.

Lemma download_fresh_fails_scripts (path : string) (normalized_entry : normal_entry)
    (mime_type url : string) (gd_mtime : Qc) (tl : list (outcome unit))
    (pre : list chunk) (e : exn) (rest : list (outcome chunk)) (w : world) :
  r_credentials (w_remote w) = Returns tt :: tl ->
  assoc_get mime_type (ne_download_links normalized_entry) = Some url ->
  w_fs w !! path <> Some Dir ->
  r_chunks (w_remote w) = app (map Returns pre) (Raises e :: rest) ->
  Forall (fun c => ch_done c = false) pre ->
  exists w',
    download_fresh path normalized_entry mime_type gd_mtime w = (Raise e, w')
    /\ w_fs w' !! path = Some (File (received pre) (w_clock w))
    /\ r_credentials (w_remote w') = tl
    /\ r_chunks (w_remote w') = rest.
Proof.
  intros Hc Hu Hd Hs Hpre.
  destruct (download_fresh_opens_scripts path normalized_entry mime_type url
              gd_mtime tl w Hc Hu Hd) as (wo & -> & Hfs & Hcr & Hch & Hck).
  assert (Hf : w_fs wo !! path = Some (File EmptyString (w_clock wo)))
    by (rewrite Hfs, Hck; apply lookup_insert_eq).
  rewrite <- Hch in Hs.
  pose proof (download_chunks_respects same_credentials url path
                same_credentials_refl same_credentials_trans
                (next_chunk_same_credentials url path)
                (S (length (r_chunks (w_remote w)))) wo) as Hsame.
  destruct (download_chunks_fails url path e rest pre
              (S (length (r_chunks (w_remote w)))) EmptyString wo Hs Hpre Hf)
    as (w1 & Hrun & Hfs1 & _ & Hrest).
  { rewrite <- Hch, Hs, length_app, length_map. simpl. lia. }
  rewrite Hrun in Hsame. simpl in Hsame. unfold same_credentials in Hsame.
  unfold bind at 1. rewrite Hrun. exists w1. split; [reflexivity|].
  split; [rewrite Hfs1, Hck; apply lookup_insert_eq|].
  split; [congruence|exact Hrest].
Qed.

(** X29: a download that breaks off on a transient connection error and
    is tried again by the proxy starts over: the second attempt opens the
    target anew, so the bytes of the first attempt are gone, and when it
    goes through the target holds the second transfer alone, with the
    remote modification time. (With the cache allowed, the broken copy must
    not happen to carry the remote time, or it would count as current.) *)
Theorem proxied_download_starts_over (auto_refresh : bool) (path : string)
    (normalized_entry : normal_entry) (mime_type : string) (allow_cache : bool)
    (w : world) (tl : list (outcome unit)) (url : string)
    (pre1 pre2 : list chunk) (last : chunk) (e : exn)
    (rest : list (outcome chunk)) :
  mime_type = ne_mime_type normalized_entry
  \/ In mime_type (map fst (ne_download_links normalized_entry)) ->
  isfile (w_fs w) (file_download_temp_path (w_conf w)) = false ->
  allow_cache = false
  \/ ((forall content,
         w_fs w !! path <> Some (File content (gd_mtime_epoch normalized_entry)))
      /\ w_clock w <> gd_mtime_epoch normalized_entry) ->
  r_credentials (w_remote w) = Returns tt :: Returns tt :: tl ->
  assoc_get mime_type (ne_download_links normalized_entry) = Some url ->
  w_fs (staged w) !! path <> Some Dir ->
  r_chunks (w_remote w)
  = app (map Returns pre1) (Raises e :: app (map Returns (app pre2 [last])) rest) ->
  Forall (fun c => ch_done c = false) pre1 ->
  Forall (fun c => ch_done c = false) pre2 ->
  ch_done last = true ->
  is_transient e = true ->
  let run := proxied_method auto_refresh
               (download_to_local path normalized_entry mime_type allow_cache) w in
  fst run = Ok (Some (ch_total_size last, true))
  /\ w_fs (snd run) !! path
     = Some (File (received (app pre2 [last])) (gd_mtime_epoch normalized_entry)).
Proof.
  intros He Ht Hnc Hc Hu Hd Hs Hpre1 Hpre2 Hlast Hte run.
  set (gd := gd_mtime_epoch normalized_entry) in *.
  (* the first attempt *)
  assert (Hnc1 : allow_cache = false
                 \/ (forall content, w_fs w !! path <> Some (File content gd)))
    by (destruct Hnc as [?|[? _]]; auto).
  pose proof (download_to_local_uncached path normalized_entry mime_type
                allow_cache w He Ht Hnc1) as Hrun1.
  destruct (staged_quiet w) as (Hr & Hck & _).
  rewrite <- Hr in Hc, Hs.
  pose proof (download_fresh_same_conf path normalized_entry mime_type gd
                (staged w)) as Hconf.
  pose proof (download_fresh_same_fs path normalized_entry mime_type gd
                (staged w)) as Hfs.
  destruct (download_fresh_fails_scripts path normalized_entry mime_type url gd
              (Returns tt :: tl) pre1 e
              (app (map Returns (app pre2 [last])) rest) (staged w)
              Hc Hu Hd Hs Hpre1) as (w1 & Hf1 & Hfile1 & Hcr1 & Hch1).
  fold gd in Hrun1. rewrite Hf1 in Hrun1, Hconf, Hfs. simpl in Hconf, Hfs.
  unfold same_conf in Hconf. rewrite (staged_same_conf w) in Hconf.
  assert (Hdir1 : w_fs w1 !! file_download_temp_path (w_conf w1) = Some Dir).
  { rewrite Hconf, Hfs; [by apply staged_has_dir|].
    intros [Heq|[]]. apply Hd. rewrite Heq. by apply staged_has_dir. }
  (* the sleep *)
  destruct (backoff_sleep_ok 0 w1) as [w2 Hb].
  assert (Hw2 : w_fs w2 = w_fs w1 /\ w_conf w2 = w_conf w1
                /\ w_remote w2 = w_remote w1).
  { unfold backoff_sleep, bind, random_randint, time_sleep in Hb.
    inversion Hb; subst. auto. }
  destruct Hw2 as (Hfs2 & Hconf2 & Hrem2).
  (* the second attempt *)
  assert (Ht2 : isfile (w_fs w2) (file_download_temp_path (w_conf w2)) = false)
    by (unfold isfile; by rewrite Hfs2, Hconf2, Hdir1).
  assert (Hst2 : staged w2 = w2)
    by (apply staged_of_staged; by rewrite Hfs2, Hconf2).
  assert (Hnc2 : allow_cache = false
                 \/ (forall content, w_fs w2 !! path <> Some (File content gd))).
  { destruct Hnc as [?|[_ Hclock]]; [by left|right].
    intros content. rewrite Hfs2, Hfile1, Hck. intros Heq. inversion Heq. done. }
  pose proof (download_to_local_uncached path normalized_entry mime_type
                allow_cache w2 He Ht2 Hnc2) as Hrun2.
  fold gd in Hrun2. rewrite Hst2 in Hrun2.
  destruct (download_fresh_completes path normalized_entry mime_type url gd
              tl pre2 last rest w2) as (w3 & Hf3 & Hfile3 & _); auto.
  { by rewrite Hrem2, Hcr1. }
  { rewrite Hfs2, Hfile1. discriminate. }
  { by rewrite Hrem2, Hch1. }
  rewrite Hf3 in Hrun2.
  (* the proxy *)
  assert (Hp : run = (Ok (Some (ch_total_size last, true)), w3)).
  { subst run. unfold proxied_method. rewrite range_0_5. simpl. rewrite Hrun1.
    destruct e; simpl in Hte; try discriminate;
      unfold bind at 1; rewrite Hb; simpl; by rewrite Hrun2. }
  rewrite Hp. simpl. auto.
Qed.

Lemma proxied_download_starts_over_witness :
  let w := Fixture.world_of true (Fixture.staging_with_copy "%PDF-1.3" 4999)
             (Fixture.chunks_script [Returns tt; Returns tt]
                [Returns Fixture.first_half; Raises (SSLError "read timed out");
                 Returns Fixture.first_half; Returns Fixture.second_half]) in
  let run := proxied_method true
               (download_to_local "/tmp/gdrivefs/1a2b" Fixture.sheet
                  "application/pdf" true) w in
  fst run = Ok (Some (8, true))
  /\ w_fs (snd run) !! "/tmp/gdrivefs/1a2b"
     = Some (File "%PDF-1.4" (Q2Qc (inject_Z 5000))).
Proof.
  intros w run.
  apply (proxied_download_starts_over true "/tmp/gdrivefs/1a2b" Fixture.sheet
           "application/pdf" true w [] "https://docs.example/export?format=pdf"
           [Fixture.first_half] [Fixture.first_half] Fixture.second_half
           (SSLError "read timed out") []).
  - right. simpl. tauto.
  - reflexivity.
  - right. split.
    + intros content H. vm_compute in H. discriminate.
    + intros H. apply (f_equal this) in H. vm_compute in H. discriminate.
  - reflexivity.
  - reflexivity.
  - vm_compute. discriminate.
  - reflexivity.
  - repeat constructor.
  - repeat constructor.
  - reflexivity.
  - reflexivity.
Defined.
